(** * Workflow progress and broadcast core of the PINN platform

    A shallow embedding of

    - [pinn-workers-deploy/src/services/workflow-manager.js]
      (class [WorkflowManager]: the pipeline that drives one workflow and
      persists every transition in the [WORKFLOWS_KV] namespace),
    - the part of [pinn-workers-deploy/src/index.js] that creates a workflow
      record and starts the pipeline ([app.post('/api/v2/simulations')]), and
      the endpoints that read the status, the results, the use case and the
      visualization of a workflow back,
    - [opensource-pinn-platform/cloudflare/src/services/websocket-manager.js]
      (class [WebSocketManager]: the Durable Object holding the session
      registry and sending messages to the sockets),
    - the geometry and the field normalisation of the visualization service
      ([prepareWebGLData] and [processFieldData] of class [Visualization3D]),

    followed by the properties of the natural-language specification that
    were checked against them, and by further properties of the same code.

    Conventions of the embedding.
    - A JavaScript number is a rational ([Q]).  The progress values and
      remaining times the pipeline stores are integers or results of
      [Math.round], where exact and double arithmetic agree; the simulated
      metrics, the random payloads and the grids are computed exactly, and
      the bounds proved for them are bounds of the exact values.
    - A JavaScript object used as a record is a [gmap string Json]; a
      property holding [undefined] is an absent key (that is what
      [JSON.stringify] writes).  A KV namespace holds the object whose
      [JSON.stringify] text the code stores: [JSON.parse] of that text gives
      the object back.
    - The code is asynchronous but single-threaded: a computation of the
      model is a state transformer on the world, and every handler of the
      Durable Object is one turn of its event loop.
    - Everything the code cannot decide itself (a KV operation failing, the
      wall clock, [Math.random], the visualization service) is read from an
      oracle indexed by the number of outside calls made so far, and the set
      of open sockets is part of the world, so a theorem quantified over the
      world covers every behaviour of the outside. *)

From Stdlib Require Import QArith Qround Qminmax Lqa.
From Stdlib Require OrderedTypeEx.
From stdpp Require Import base gmap strings list sorting.

Open Scope string_scope.

(** ** JavaScript values *)

#[local] Unset Elimination Schemes.
Inductive Json : Type :=
| JNull
| JBool (b : bool)
| JNum (q : Q)
| JStr (s : string)
| JArr (items : list Json)
| JObj (fields : list (string * Json)).
#[local] Set Elimination Schemes.

Abbreviation JsObject := (gmap string Json).

(** [v || d] on a property that may be [undefined]. *)
Definition truthy (v : option Json) : bool :=
  match v with
  | None | Some JNull | Some (JBool false) | Some (JStr "") => false
  | Some (JNum q) => negb (Qeq_bool q 0)
  | Some _ => true
  end.

Definition js_or (v : option Json) (d : Json) : Json :=
  match v with
  | Some x => if truthy v then x else d
  | None => d
  end.

(** An object literal; a property whose value is [undefined] is not
    serialized. *)
Definition object_literal (props : list (string * option Json)) : JsObject :=
  foldl (fun o kv => match kv.2 with Some v => <[kv.1 := v]> o | None => o end)
        ∅ props.

(** [Math.round]: the nearest integer, halves towards plus infinity. *)
Definition Math_round (x : Q) : Q := inject_Z (Qfloor (x + (1 # 2))).

Definition Q_ltb (x y : Q) : bool := negb (Qle_bool y x).

(** ** The world: the KV namespaces, the Durable Object, the outside *)

Inductive Namespace := Workflows | Results | UseCases.

(** What the outside can observe of a run, in order.  [WsSend] is a
    [webSocket.send] that went through: the client of that socket receives
    the message. *)
Inductive Effect :=
| KvPut (ns : Namespace) (key : string) (value : JsObject)
| ConsoleError (label : string) (error : string)
| SetTimeout (ms : nat)
| WsSend (socket : nat) (message : JsObject).

(** The outside.  [kv_fault ns n = Some msg]: the operation on namespace
    [ns] that is the [n]-th outside call throws [Error(msg)]
    (StoreUnavailable).
    [toISOString n] and [random n] are the values of
    [new Date().toISOString()] and of [Math.random()] when they are the
    [n]-th outside call, [radix36 x] is [x.toString(36).substr(2, 9)].
    [visualization n] is what [Visualization3D.createVisualization] does when
    it is the [n]-th outside call: it throws, or returns its descriptor.
    [generateSampleResults] and [generateAnalysis] are the two pure helpers of
    [WorkflowManager] that compute the grid data (trigonometric tables of
    doubles); they cannot throw and no property below depends on their
    value. *)
Record Outside := {
  kv_fault : Namespace → nat → option string;
  toISOString : nat → string;
  random : nat → Q;
  radix36 : Q → string;
  visualization : nat → string + Json;
  generateSampleResults : JsObject → Json;
  generateAnalysis : option Json → Json → Json
}.

Record Stores := {
  WORKFLOWS_KV : gmap string JsObject;
  RESULTS_KV : gmap string JsObject;
  USECASES_KV : gmap string JsObject
}.

(** One entry of [this.sessions] of the Durable Object.  [workflowId] is
    [request.headers.get('Workflow-ID')], [null] when the header is absent;
    [subscriptions] is [undefined] until a [subscribe_metrics] message. *)
Record Session := {
  webSocket : nat;
  workflowId : option string;
  connectedAt : string;
  lastActivity : string;
  subscriptions : option Json
}.

(** The Durable Object instance and its sockets.  [sessions] is a
    JavaScript [Map]: it iterates in insertion order.  [timers] are the live
    [setInterval] handles with the [sessionId] and [workflowId] their
    callback closes over.  A socket in [open_sockets] accepts [send]; on any
    other socket [send] throws. *)
Record Hub := {
  sessions : list (string * Session);
  timers : gmap nat (string * option string);
  next_timer : nat;
  open_sockets : gset nat
}.

Record World := {
  kv : Stores;
  hub : Hub;
  calls : nat;
  log : list Effect;
  outside : Outside
}.

Definition namespace (ns : Namespace) (w : World) : gmap string JsObject :=
  match ns with
  | Workflows => WORKFLOWS_KV (kv w)
  | Results => RESULTS_KV (kv w)
  | UseCases => USECASES_KV (kv w)
  end.

Definition with_kv (f : Stores → Stores) (w : World) : World :=
  {| kv := f (kv w); hub := hub w; calls := calls w; log := log w;
     outside := outside w |}.

Definition with_hub (f : Hub → Hub) (w : World) : World :=
  {| kv := kv w; hub := f (hub w); calls := calls w; log := log w;
     outside := outside w |}.

Definition store (ns : Namespace) (key : string) (value : JsObject) : World → World :=
  with_kv (fun s =>
    match ns with
    | Workflows => {| WORKFLOWS_KV := <[key := value]> (WORKFLOWS_KV s);
                      RESULTS_KV := RESULTS_KV s; USECASES_KV := USECASES_KV s |}
    | Results => {| WORKFLOWS_KV := WORKFLOWS_KV s;
                    RESULTS_KV := <[key := value]> (RESULTS_KV s);
                    USECASES_KV := USECASES_KV s |}
    | UseCases => {| WORKFLOWS_KV := WORKFLOWS_KV s; RESULTS_KV := RESULTS_KV s;
                     USECASES_KV := <[key := value]> (USECASES_KV s) |}
    end).

Definition emit (e : Effect) (w : World) : World :=
  {| kv := kv w; hub := hub w; calls := calls w; log := log w ++ [e];
     outside := outside w |}.

Definition called (w : World) : World :=
  {| kv := kv w; hub := hub w; calls := S (calls w); log := log w;
     outside := outside w |}.

Definition clear_log (w : World) : World :=
  {| kv := kv w; hub := hub w; calls := calls w; log := []; outside := outside w |}.

(** ** Computations: state, and exceptions carrying [error.message] *)

Inductive Outcome (A : Type) : Type :=
| Normal (a : A)
| Thrown (message : string).
Arguments Normal {A} a.
Arguments Thrown {A} message.

Definition M (A : Type) : Type := World → World * Outcome A.

Definition ret {A} (a : A) : M A := fun w => (w, Normal a).

Definition throw {A} (message : string) : M A := fun w => (w, Thrown message).

Definition bind {A B} (m : M A) (k : A → M B) : M B :=
  fun w =>
    match m w with
    | (w', Normal a) => k a w'
    | (w', Thrown e) => (w', Thrown e)
    end.

Definition try_catch {A} (body : M A) (handler : string → M A) : M A :=
  fun w =>
    match body w with
    | (w', Normal a) => (w', Normal a)
    | (w', Thrown e) => handler e w'
    end.

Notation "x <- m ;; k" := (bind m (fun x => k))
  (at level 100, m at next level, right associativity).
Notation "m ;; k" := (bind m (fun _ => k))
  (at level 100, right associativity).

(** The effects of running [m] from [w]. *)
Definition effects {A} (m : M A) (w : World) : list Effect :=
  log (m (clear_log w)).1.

(** [await env.NS.get(key)]: [null] for a missing key. *)
Definition kv_get (ns : Namespace) (key : string) : M (option JsObject) :=
  fun w =>
    match kv_fault (outside w) ns (calls w) with
    | Some e => (called w, Thrown e)
    | None => (called w, Normal (namespace ns w !! key))
    end.

(** [await env.NS.put(key, JSON.stringify(value))]: a full overwrite. *)
Definition kv_put (ns : Namespace) (key : string) (value : JsObject) : M unit :=
  fun w =>
    match kv_fault (outside w) ns (calls w) with
    | Some e => (called w, Thrown e)
    | None => (emit (KvPut ns key value) (store ns key value (called w)), Normal tt)
    end.

(** [new Date().toISOString()] *)
Definition new_Date : M string :=
  fun w => (called w, Normal (toISOString (outside w) (calls w))).

Definition console_error (label error : string) : M unit :=
  fun w => (emit (ConsoleError label error) w, Normal tt).

(** [await this.sleep(ms)] *)
Definition sleep (ms : nat) : M unit :=
  fun w => (emit (SetTimeout ms) w, Normal tt).

(** [for (let progress = lo; progress <= hi; progress += step) body].
    The fuel is the trip count of the loop; [for_progress_unfold] below shows
    that it is never exhausted while the condition holds. *)
Fixpoint for_upto (fuel : nat) (progress hi step : Q) (body : Q → M unit) : M unit :=
  match fuel with
  | O => ret tt
  | S fuel =>
      if Qle_bool progress hi
      then body progress ;; for_upto fuel (progress + step) hi step body
      else ret tt
  end.

Definition trip_count (lo hi step : Q) : nat :=
  Z.to_nat (Qfloor ((hi - lo) / step) + 1).

Definition for_progress (lo hi step : Q) (body : Q → M unit) : M unit :=
  for_upto (trip_count lo hi step) lo hi step body.

(** ** [class WorkflowManager] (workflow-manager.js) *)

Module WorkflowManager.

#[local] Open Scope Q_scope.

(** Lines 222-230: the remaining-time estimate written with every update.
    [progress && progress < 100] is false for [null] and for [0]. *)
Definition estimated_remaining_time (progress : option Q) : Q :=
  match progress with
  | Some p =>
      if negb (Qeq_bool p 0) && Q_ltb p 100 then
        let elapsedRatio := p / 100 in
        let totalEstimated := 300 in
        let remainingRatio := 1 - elapsedRatio in
        Math_round (totalEstimated * remainingRatio)
      else 0
  | None => 0
  end.

(** Lines 214-230: the in-memory mutation of the parsed record. *)
Definition updated (workflow : JsObject) (status timestamp : string)
    (progress : option Q) (step : option string) (metrics : option Json) : JsObject :=
  let workflow := <["status" := JStr status]> workflow in
  let workflow := <["updated_at" := JStr timestamp]> workflow in
  let workflow := if progress is Some p then <["progress" := JNum p]> workflow else workflow in
  let workflow := if step is Some s then <["current_step" := JStr s]> workflow else workflow in
  let workflow := if metrics is Some m then <["metrics" := m]> workflow else workflow in
  <["estimated_remaining_time" := JNum (estimated_remaining_time progress)]> workflow.

(** Lines 206-241.  The whole body sits in [try { } catch], and the handler
    only logs. *)
Definition updateWorkflowStatus (workflowId status : string)
    (progress : option Q) (step : option string) (metrics : option Json) : M unit :=
  try_catch
    (workflowData <- kv_get Workflows workflowId ;;
     match workflowData with
     | None => ret tt
     | Some workflow =>
         timestamp <- new_Date ;;
         kv_put Workflows workflowId
                (updated workflow status timestamp progress step metrics)
     end)
    (fun error => console_error "Failed to update workflow status:" error).

(** Lines 43-48. *)
Definition simulateProblemAnalysis (workflowId : string) : M unit :=
  for_progress 10 30 5 (fun progress =>
    updateWorkflowStatus workflowId "processing" (Some progress) (Some "problem_analysis") None ;;
    sleep 200).

(** Lines 50-55. *)
Definition simulateMeshGeneration (workflowId : string) : M unit :=
  for_progress 30 50 5 (fun progress =>
    updateWorkflowStatus workflowId "processing" (Some progress) (Some "mesh_generation") None ;;
    sleep 200).

(** Lines 59-70: the simulated training metrics at a progress value. *)
Definition training_metrics (progress : Q) : Json :=
  let epoch := (progress - 50) * 100 in
  let accuracy := (1 # 2) + (progress - 50) / 60 in
  let loss := (1 # 10) * (81 - progress) / 31 in
  JObj [("epoch", JNum epoch);
        ("accuracy", JNum (Qmin accuracy (99 # 100)));
        ("loss", JNum (Qmax loss (1 # 1000)));
        ("convergence", JNum ((progress - 50) / 31));
        ("training_time", JNum ((progress - 50) * 2))].

(** Lines 57-75. *)
Definition simulatePINNTraining (workflowId : string) (request : JsObject) : M unit :=
  for_progress 50 80 2 (fun progress =>
    updateWorkflowStatus workflowId "processing" (Some progress) (Some "pinn_training")
                         (Some (training_metrics progress)) ;;
    sleep 100).

(** Lines 77-82. *)
Definition simulateModelValidation (workflowId : string) : M unit :=
  for_progress 80 90 2 (fun progress =>
    updateWorkflowStatus workflowId "processing" (Some progress) (Some "model_validation") None ;;
    sleep 100).

(** [await this.visualization3D.createVisualization(...)]: the one call of
    the pipeline into another service; it may throw. *)
Definition createVisualization (simulationResults : Json) : M Json :=
  fun w =>
    match visualization (outside w) (calls w) with
    | inl e => (called w, Thrown e)
    | inr v => (called w, Normal v)
    end.

Definition performance_metrics : Json :=
  JObj [("total_runtime", JNum 180); ("memory_usage", JStr "2.1 GB");
        ("gpu_utilization", JStr "85%"); ("convergence_rate", JStr "excellent")].

(** Lines 84-118.  [RESULTS_KV.put] is not guarded: its failure leaves the
    step like a failure of the visualization service. *)
Definition generateResultsAndVisualization (workflowId : string)
    (request useCase : JsObject) : M unit :=
  updateWorkflowStatus workflowId "processing" (Some 90) (Some "generating_results") None ;;
  simulationResults <- (fun w => (w, Normal (generateSampleResults (outside w) request))) ;;
  updateWorkflowStatus workflowId "processing" (Some 95) (Some "creating_visualization") None ;;
  visualization <- createVisualization simulationResults ;;
  analysis <- (fun w => (w, Normal (generateAnalysis (outside w) (request !! "domain_type")
                                                     simulationResults))) ;;
  let results : JsObject :=
    object_literal [("simulation_results", Some simulationResults);
                    ("analysis", Some analysis);
                    ("visualization", Some visualization);
                    ("performance_metrics", Some performance_metrics)] in
  kv_put Results workflowId results ;;
  updateWorkflowStatus workflowId "processing" (Some 100) (Some "completed") None.

(** Lines 15-36: the [try] block of [processWorkflow]. *)
Definition pipeline (workflowId : string) (request useCase : JsObject) : M unit :=
  updateWorkflowStatus workflowId "processing" (Some 10) (Some "initializing") None ;;
  simulateProblemAnalysis workflowId ;;
  simulateMeshGeneration workflowId ;;
  simulatePINNTraining workflowId request ;;
  simulateModelValidation workflowId ;;
  generateResultsAndVisualization workflowId request useCase ;;
  updateWorkflowStatus workflowId "completed" (Some 100) (Some "finished") None.

(** Lines 14-41: the block, and the [catch] that marks the workflow failed
    and rethrows. *)
Definition processWorkflow (workflowId : string) (request useCase : JsObject) : M unit :=
  try_catch
    (pipeline workflowId request useCase)
    (fun error =>
       updateWorkflowStatus workflowId "failed" None (Some ("error: " ++ error)) None ;;
       throw error).

(** Lines 122-136 of [generateSampleResults]: the grid of 30 rows and 20
    columns, [x[i][j] = -5 + (10 * j) / 19] and [y[i][j] = -3 + (6 * i) / 29].
    (The fields computed from it with [Math.sin] are left to the outside.) *)
Definition sample_x : list (list Q) :=
  map (fun i : nat =>
         map (fun j : nat => -5 + (10 * inject_Z (Z.of_nat j)) / 19) (seq 0 20))
      (seq 0 30).

Definition sample_y : list (list Q) :=
  map (fun i : nat =>
         map (fun j : nat => -3 + (6 * inject_Z (Z.of_nat i)) / 29) (seq 0 20))
      (seq 0 30).

End WorkflowManager.

(** ** [app.post('/api/v2/simulations')] (index.js, lines 699-762)

    The handler from "Store use case in KV" on: the parsed request body, the
    fresh [uuidv4()] and the use case returned by the generator are its
    inputs.  The result is the HTTP status and the JSON body. *)

Definition initial_workflow (workflowId : string) (request useCase : JsObject)
    (created_at updated_at : string) : JsObject :=
  object_literal
    [("id", Some (JStr workflowId));
     ("name", request !! "name");
     ("description", request !! "description");
     ("domain_type", request !! "domain_type");
     ("application", request !! "application");
     ("status", Some (JStr "initiated"));
     ("progress", Some (JNum 0));
     ("current_step", Some (JStr "use_case_generation"));
     ("request_data", Some (JObj (map_to_list request)));
     ("use_case_id", useCase !! "id");
     ("created_at", Some (JStr created_at));
     ("updated_at", Some (JStr updated_at));
     ("priority", Some (js_or (request !! "priority") (JStr "normal")));
     ("tags", Some (js_or (request !! "tags") (JArr [])));
     ("metadata", Some (js_or (request !! "metadata") (JObj [])))].

Definition endpoints (workflowId : string) : Json :=
  let base := "/api/v2/simulations/" ++ workflowId in
  JObj [("status", JStr (base ++ "/status"));
        ("results", JStr (base ++ "/results"));
        ("use_case", JStr (base ++ "/use-case"));
        ("visualization", JStr (base ++ "/visualization"));
        ("code", JStr (base ++ "/code"));
        ("websocket", JStr ("/ws/simulation/" ++ workflowId))].

Definition post_simulations (request : JsObject) (workflowId : string)
    (useCase : JsObject) : M (nat * JsObject) :=
  try_catch
    (kv_put UseCases workflowId useCase ;;
     created_at <- new_Date ;;
     updated_at <- new_Date ;;
     kv_put Workflows workflowId
            (initial_workflow workflowId request useCase created_at updated_at) ;;
     WorkflowManager.processWorkflow workflowId request useCase ;;
     now <- new_Date ;;
     ret (200%nat,
          object_literal
            [("workflow_id", Some (JStr workflowId));
             ("status", Some (JStr "initiated"));
             ("estimated_completion_time", Some (JNum 300));
             ("use_case_generated", Some (JBool true));
             ("python_code_available", Some (JBool true));
             ("visualization_ready", Some (JBool false));
             ("endpoints", Some (endpoints workflowId));
             ("created_at", Some (JStr now))]))
    (fun error =>
       ret (500%nat,
            object_literal [("error", Some (JStr "Failed to create simulation"));
                            ("details", Some (JStr error))])).

(** ** The read endpoints of index.js

    Each handler returns the HTTP status and the JSON body; each has its
    own [try { } catch] that answers 500 with the message of the error. *)

(** [app.get('/api/v2/simulations/:id/status')], lines 768-793.
    [estimated_remaining_time] is [workflow.estimated_remaining_time || 0]. *)
Definition get_status (workflowId : string) : M (nat * JsObject) :=
  try_catch
    (workflowData <- kv_get Workflows workflowId ;;
     match workflowData with
     | None =>
         ret (404%nat, object_literal [("error", Some (JStr "Simulation not found"))])
     | Some workflow =>
         ret (200%nat,
              object_literal
                [("workflow_id", Some (JStr workflowId));
                 ("status", workflow !! "status");
                 ("progress", workflow !! "progress");
                 ("current_step", workflow !! "current_step");
                 ("metrics", workflow !! "metrics");
                 ("estimated_remaining_time",
                  Some (js_or (workflow !! "estimated_remaining_time") (JNum 0)));
                 ("created_at", workflow !! "created_at");
                 ("updated_at", workflow !! "updated_at")])
     end)
    (fun error =>
       ret (500%nat,
            object_literal [("error", Some (JStr "Failed to get status"));
                            ("details", Some (JStr error))])).

Definition export_formats : Json :=
  JArr [JStr "PNG"; JStr "STL"; JStr "VTK"; JStr "JSON"; JStr "CSV"].

(** [app.get('/api/v2/simulations/:id/results')], lines 796-824.  The use
    case is optional ([useCase?.python_code || '']); the status in the body
    is the constant ['completed']. *)
Definition get_results (workflowId : string) : M (nat * JsObject) :=
  try_catch
    (resultsData <- kv_get Results workflowId ;;
     match resultsData with
     | None =>
         ret (404%nat, object_literal [("error", Some (JStr "Results not found"))])
     | Some results =>
         useCase <- kv_get UseCases workflowId ;;
         ret (200%nat,
              object_literal
                [("workflow_id", Some (JStr workflowId));
                 ("status", Some (JStr "completed"));
                 ("results", results !! "simulation_results");
                 ("analysis", results !! "analysis");
                 ("visualization_data", results !! "visualization");
                 ("python_code",
                  Some (js_or (useCase ≫= (fun u => u !! "python_code")) (JStr "")));
                 ("engineering_insights",
                  Some (js_or (useCase ≫= (fun u => u !! "engineering_insights"))
                              (JArr [])));
                 ("performance_metrics", results !! "performance_metrics");
                 ("export_formats", Some export_formats)])
     end)
    (fun error =>
       ret (500%nat,
            object_literal [("error", Some (JStr "Failed to get results"));
                            ("details", Some (JStr error))])).



(** ** [class WebSocketManager] (websocket-manager.js) *)

Module WebSocketManager.

#[local] Open Scope Q_scope.

(** [Map.prototype.get], [set] and [delete] on the insertion-ordered
    registry: [set] on a present key replaces the value in place. *)
Fixpoint Map_get (key : string) (m : list (string * Session)) : option Session :=
  match m with
  | [] => None
  | (k, v) :: m => if String.eqb k key then Some v else Map_get key m
  end.

Fixpoint Map_set (key : string) (value : Session) (m : list (string * Session))
  : list (string * Session) :=
  match m with
  | [] => [(key, value)]
  | (k, v) :: m =>
      if String.eqb k key then (k, value) :: m else (k, v) :: Map_set key value m
  end.

Definition Map_delete (key : string) (m : list (string * Session))
  : list (string * Session) :=
  filter (fun kv => negb (String.eqb kv.1 key)) m.

Definition set_sessions (f : list (string * Session) → list (string * Session))
  : World → World :=
  with_hub (fun h => {| sessions := f (sessions h); timers := timers h;
                        next_timer := next_timer h; open_sockets := open_sockets h |}).

Definition get_session (sessionId : string) : M (option Session) :=
  fun w => (w, Normal (Map_get sessionId (sessions (hub w)))).

(** A [string | null] as a JSON value. *)
Definition nullable (s : option string) : Json :=
  match s with Some s => JStr s | None => JNull end.

(** [Math.random()] *)
Definition Math_random : M Q :=
  fun w => (called w, Normal (random (outside w) (calls w))).

Definition Math_floor (x : Q) : Q := inject_Z (Qfloor x).

(** [webSocket.accept()] *)
Definition ws_accept (socket : nat) : M unit :=
  fun w =>
    (with_hub (fun h => {| sessions := sessions h; timers := timers h;
                           next_timer := next_timer h;
                           open_sockets := {[socket]} ∪ open_sockets h |}) w,
     Normal tt).

(** [webSocket.send(JSON.stringify(message))]: it throws on a socket that is
    not open; the text of the runtime's exception only ever reaches the
    console. *)
Definition ws_send (socket : nat) (message : JsObject) : M unit :=
  fun w =>
    if bool_decide (socket ∈ open_sockets (hub w))
    then (emit (WsSend socket message) w, Normal tt)
    else (w, Thrown "WebSocket is not open").

(** Lines 103-112. *)
Definition sendMessage (socket : nat) (message : JsObject) : M unit :=
  try_catch
    (timestamp <- new_Date ;;
     ws_send socket (<["timestamp" := JStr timestamp]> message))
    (fun error => console_error "Failed to send WebSocket message:" error).

(** Lines 181-183. *)
Definition generateSessionId : M string :=
  r <- Math_random ;;
  fun w => (w, Normal ("session_" ++ radix36 (outside w) r)).

(** Lines 160-169. *)
Definition steps : list string :=
  ["problem_analysis"; "mesh_generation"; "pinn_training"; "model_validation";
   "results_generation"].

Definition getRandomStep : M (option Json) :=
  r <- Math_random ;;
  ret (JStr <$> steps !! Z.to_nat (Qfloor (r * inject_Z (Z.of_nat (length steps))))).

(** Lines 171-179. *)
Definition generateRandomMetrics : M Json :=
  r1 <- Math_random ;;
  r2 <- Math_random ;;
  r3 <- Math_random ;;
  r4 <- Math_random ;;
  r5 <- Math_random ;;
  ret (JObj [("accuracy", JNum ((8 # 10) + r1 * (19 # 100)));
             ("loss", JNum (r2 * (1 # 10)));
             ("convergence", JNum r3);
             ("training_time", JNum (Math_floor (r4 * 300)));
             ("epoch", JNum (Math_floor (r5 * 10000)))]).

(** Lines 114-135: the status sent on request is a mock, not the stored
    record. *)
Definition sendWorkflowStatus (socket : nat) (workflowId : option string) : M unit :=
  try_catch
    (r1 <- Math_random ;;
     r2 <- Math_random ;;
     r3 <- Math_random ;;
     r4 <- Math_random ;;
     sendMessage socket
       (object_literal
          [("type", Some (JStr "workflow_status"));
           ("workflowId", Some (nullable workflowId));
           ("payload",
            Some (JObj [("status", JStr "processing");
                        ("progress", JNum (r1 * 100));
                        ("currentStep", JStr "pinn_training");
                        ("metrics",
                         JObj [("accuracy", JNum ((85 # 100) + r2 * (1 # 10)));
                               ("loss", JNum ((1 # 100) * r3));
                               ("epoch", JNum (Math_floor (r4 * 5000)))])]))]))
    (fun error => console_error "Failed to send workflow status:" error).

(** Lines 137-158: [setInterval]; the handle is returned. *)
Definition startPeriodicUpdates (sessionId : string) (workflowId : option string) : M nat :=
  fun w =>
    let handle := next_timer (hub w) in
    (with_hub (fun h => {| sessions := sessions h;
                           timers := <[handle := (sessionId, workflowId)]> (timers h);
                           next_timer := S handle;
                           open_sockets := open_sockets h |}) w,
     Normal handle).

Definition clearInterval (handle : nat) : M unit :=
  fun w =>
    (with_hub (fun h => {| sessions := sessions h;
                           timers := delete handle (timers h);
                           next_timer := next_timer h;
                           open_sockets := open_sockets h |}) w,
     Normal tt).

(** Lines 138-157: the callback of the interval, run every 5 seconds. *)
Definition periodic_update (handle : nat) (sessionId : string)
    (workflowId : option string) : M unit :=
  session <- get_session sessionId ;;
  match session with
  | None => clearInterval handle
  | Some session =>
      r <- Math_random ;;
      step <- getRandomStep ;;
      metrics <- generateRandomMetrics ;;
      timestamp <- new_Date ;;
      sendMessage (webSocket session)
        (object_literal
           [("type", Some (JStr "workflow_progress"));
            ("workflowId", Some (nullable workflowId));
            ("payload",
             Some (JObj ([("progress", JNum (Qmin 100 (r * 100)))]
                         ++ match step with Some s => [("step", s)] | None => [] end
                         ++ [("metrics", metrics); ("timestamp", JStr timestamp)])))])
  end.

(** Lines 36-73.  The three listeners registered here are [handleMessage],
    [on_close] and [on_error] below, for this [sessionId]. *)
Definition handleSession (socket : nat) (workflowId : option string) : M unit :=
  ws_accept socket ;;
  sessionId <- generateSessionId ;;
  connectedAt <- new_Date ;;
  lastActivity <- new_Date ;;
  (fun w => (set_sessions (Map_set sessionId
                             {| webSocket := socket; workflowId := workflowId;
                                connectedAt := connectedAt;
                                lastActivity := lastActivity;
                                subscriptions := None |}) w, Normal tt)) ;;
  timestamp <- new_Date ;;
  sendMessage socket
    (object_literal [("type", Some (JStr "connection_established"));
                     ("sessionId", Some (JStr sessionId));
                     ("workflowId", Some (nullable workflowId));
                     ("timestamp", Some (JStr timestamp))]) ;;
  startPeriodicUpdates sessionId workflowId ;;
  ret tt.


(** Lines 75-101.  [session] is the object held by the registry, so the
    assignments to its properties are written back to the registry. *)
Definition handleMessage (sessionId : string) (message : JsObject) : M unit :=
  session <- get_session sessionId ;;
  match session with
  | None => ret tt
  | Some session =>
      now <- new_Date ;;
      let session := {| webSocket := webSocket session; workflowId := workflowId session;
                        connectedAt := connectedAt session; lastActivity := now;
                        subscriptions := subscriptions session |} in
      (fun w => (set_sessions (Map_set sessionId session) w, Normal tt)) ;;
      match message !! "type" with
      | Some (JStr "ping") =>
          timestamp <- new_Date ;;
          sendMessage (webSocket session)
            (object_literal [("type", Some (JStr "pong"));
                             ("timestamp", Some (JStr timestamp))])
      | Some (JStr "subscribe_metrics") =>
          let session := {| webSocket := webSocket session; workflowId := workflowId session;
                            connectedAt := connectedAt session;
                            lastActivity := lastActivity session;
                            subscriptions := Some (js_or (message !! "metrics") (JArr [])) |} in
          fun w => (set_sessions (Map_set sessionId session) w, Normal tt)
      | Some (JStr "request_status") =>
          sendWorkflowStatus (webSocket session) (workflowId session)
      | _ => ret tt
      end
  end.

(** Lines 62-64 and 66-69: the [close] and [error] listeners. *)
Definition on_close (sessionId : string) : M unit :=
  fun w => (set_sessions (Map_delete sessionId) w, Normal tt).

Definition on_error (sessionId : string) (error : string) : M unit :=
  console_error "WebSocket error:" error ;;
  fun w => (set_sessions (Map_delete sessionId) w, Normal tt).

(** Lines 186-196.  [sendMessage] has no [await] inside, so every call pushed
    to [promises] has already run when the loop goes on. *)
Fixpoint broadcast_loop (entries : list (string * Session))
    (workflowId' : option string) (message : JsObject) : M unit :=
  match entries with
  | [] => ret tt
  | (sessionId, session) :: entries =>
      (if bool_decide (workflowId session = workflowId')
       then sendMessage (webSocket session) message
       else ret tt) ;;
      broadcast_loop entries workflowId' message
  end.

Definition broadcastToWorkflow (workflowId : option string) (message : JsObject) : M unit :=
  fun w => broadcast_loop (sessions (hub w)) workflowId message w.

(** What can happen to the Durable Object, one event-loop turn each: a
    handler runs to completion before the next event is taken.  [Upgrade] is
    a [/websocket] request reaching [handleSession]; [OnMessage], [OnClose]
    and [OnError] are the three listeners of a session; [Interval] is one
    firing of a [setInterval] callback; [Publish] is a call of
    [broadcastToWorkflow]; [Drop] is the transport of a socket going away,
    which runs no code of the class. *)
Inductive Event :=
| Upgrade (socket : nat) (workflowId : option string)
| OnMessage (sessionId : string) (message : JsObject)
| OnClose (sessionId : string)
| OnError (sessionId : string) (error : string)
| Interval (handle : nat)
| Publish (workflowId : option string) (message : JsObject)
| Drop (socket : nat).

Definition turn (e : Event) : M unit :=
  match e with
  | Upgrade socket workflowId => handleSession socket workflowId
  | OnMessage sessionId message => handleMessage sessionId message
  | OnClose sessionId => on_close sessionId
  | OnError sessionId error => on_error sessionId error
  | Interval handle =>
      fun w =>
        match timers (hub w) !! handle with
        | Some (sessionId, workflowId) => periodic_update handle sessionId workflowId w
        | None => (w, Normal tt)
        end
  | Publish workflowId message => broadcastToWorkflow workflowId message
  | Drop socket =>
      fun w =>
        (with_hub (fun h => {| sessions := sessions h; timers := timers h;
                               next_timer := next_timer h;
                               open_sockets := open_sockets h ∖ {[socket]} |}) w,
         Normal tt)
  end.

Fixpoint run (events : list Event) : M unit :=
  match events with
  | [] => ret tt
  | e :: events => turn e ;; run events
  end.

(** The messages the client of a socket has received, oldest first. *)
Definition received (socket : nat) (l : list Effect) : list JsObject :=
  omap (fun e => match e with
                 | WsSend s m => if Nat.eqb s socket then Some m else None
                 | _ => None
                 end) l.

(** Lines 207-216.  [workflowCounts] is a plain object: the key of a
    session is [String(workflowId)], so a session without workflow id counts
    under ["null"].  A key that names a property of [Object.prototype] would
    read that inherited property instead of a count; a registry with such a
    workflow id is outside the model ([None]). *)
Definition Object_prototype : list string :=
  ["constructor"; "toString"; "toLocaleString"; "valueOf"; "hasOwnProperty";
   "isPrototypeOf"; "propertyIsEnumerable"; "__proto__"; "__defineGetter__";
   "__defineSetter__"; "__lookupGetter__"; "__lookupSetter__"].

Definition property_key (workflowId : option string) : string :=
  default "null" workflowId.

Fixpoint count_loop (entries : list (string * Session))
    (workflowCounts : gmap string nat) : gmap string nat :=
  match entries with
  | [] => workflowCounts
  | (_, session) :: entries =>
      let key := property_key (workflowId session) in
      count_loop entries
                 (<[key := (default 0 (workflowCounts !! key) + 1)%nat]> workflowCounts)
  end.

Definition getSessionsByWorkflow (entries : list (string * Session))
  : option (gmap string nat) :=
  if bool_decide (Forall (fun entry => property_key (workflowId entry.2)
                                       ∉ Object_prototype) entries)
  then Some (count_loop entries ∅)
  else None.

(** Lines 218-228.  [!oldest] holds for [null] and for the empty string;
    [<] on strings is the lexicographic order of the code units. *)
Fixpoint oldest_loop (entries : list (string * Session)) (oldest : option string)
  : option string :=
  match entries with
  | [] => oldest
  | (_, session) :: entries =>
      oldest_loop entries
        (match oldest with
         | None | Some "" => Some (connectedAt session)
         | Some t => if String.ltb (connectedAt session) t
                     then Some (connectedAt session) else Some t
         end)
  end.

Definition getOldestConnection (entries : list (string * Session)) : option string :=
  oldest_loop entries None.

(** Lines 199-205. *)
Record Stats := {
  totalSessions : nat;
  sessionsByWorkflow : option (gmap string nat);
  oldestConnection : option string
}.

Definition getStats (w : World) : Stats :=
  {| totalSessions := length (sessions (hub w));
     sessionsByWorkflow := getSessionsByWorkflow (sessions (hub w));
     oldestConnection := getOldestConnection (sessions (hub w)) |}.

End WebSocketManager.

(** ** [class Visualization3D] (3d-visualization.js)

    The index arithmetic of [prepareWebGLData] and the normalization of
    [processFieldData]; the trigonometric sample data and the HTML template
    are not modelled. *)

Module Visualization3D.

#[local] Open Scope Q_scope.

(** [grid[i][j]] on an array of rows of numbers: reading in a row that does
    not exist throws a [TypeError] ([None]); reading past the end of a row
    gives [undefined] ([Some None]). *)
Definition at2 (grid : list (list Q)) (i j : nat) : option (option Q) :=
  row ← grid !! i; Some (row !! j).

(** [prepareWebGLData], the vertex loop (lines 96-104): three coordinates
    are pushed per grid point, row by row.  (The texture coordinates
    [j / (cols - 1)] pushed to [uvs] are not part of the model: they are
    [NaN] on a grid of one column or one row.) *)
Definition vertex_loop (xGrid yGrid zGrid : list (list Q)) (rows cols : nat)
  : option (list (option Q)) :=
  @concat _ <$> mapM (fun i =>
    @concat _ <$> mapM (fun j =>
      x ← at2 xGrid i j; y ← at2 yGrid i j; z ← at2 zGrid i j; Some [x; y; z])
      (seq 0 cols))
    (seq 0 rows).

(** The face loop (lines 107-117): two triangles per cell, as indices into
    the list of vertices.  For [rows = 0] or [cols = 0] the bound is
    negative and the loop does not run. *)
Definition face_loop (rows cols : nat) : list nat :=
  flat_map (fun i =>
    flat_map (fun j =>
      let v1 := (i * cols + j)%nat in
      let v2 := (i * cols + (j + 1))%nat in
      let v3 := ((i + 1) * cols + j)%nat in
      let v4 := ((i + 1) * cols + (j + 1))%nat in
      [v1; v2; v3; v2; v4; v3])
      (seq 0 (cols - 1)))
    (seq 0 (rows - 1)).

Record Geometry := {
  vertices : list (option Q);
  faces : list nat
}.

(** [prepareWebGLData], lines 90-117, for a grid with [x] and [y] given:
    [gridData.z || xGrid.map(row => row.map(() => 0))], then
    [cols = xGrid[0].length], which throws on an empty [x] grid. *)
Definition geometry (xGrid yGrid : list (list Q)) (z : option (list (list Q)))
  : option Geometry :=
  let zGrid := default (map (map (fun _ => 0)) xGrid) z in
  let rows := length xGrid in
  first ← head xGrid;
  let cols := length first in
  vs ← vertex_loop xGrid yGrid zGrid rows cols;
  Some {| vertices := vs; faces := face_loop rows cols |}.

(** [Math.min(...flatValues)] and [Math.max(...flatValues)] on a list that
    is not empty. *)
Definition Math_min (x : Q) (xs : list Q) : Q := foldl Qmin x xs.
Definition Math_max (x : Q) (xs : list Q) : Q := foldl Qmax x xs.

(** [processFieldData], lines 191-201, for one field with the flat values
    [x :: xs]: [(v - min) / (max - min || 1)]. *)
Record Field := {
  values : list Q;
  original_values : list Q;
  min : Q;
  max : Q
}.

Definition processField (x : Q) (xs : list Q) : Field :=
  let min := Math_min x xs in
  let max := Math_max x xs in
  let span := if Qeq_bool (max - min) 0 then 1 else max - min in
  {| values := map (fun v => (v - min) / span) (x :: xs);
     original_values := x :: xs;
     min := min;
     max := max |}.

End Visualization3D.

(** ** Reading the log and the records *)

(** The records written under [workflowId] in [WORKFLOWS_KV], oldest
    first. *)
Definition persisted (workflowId : string) (l : list Effect) : list JsObject :=
  omap (fun e => match e with
                 | KvPut Workflows key value =>
                     if String.eqb key workflowId then Some value else None
                 | _ => None
                 end) l.

Definition progress_of (workflow : JsObject) : option Q :=
  match workflow !! "progress" with
  | Some (JNum p) => Some p
  | _ => None
  end.

Definition status_of (workflow : JsObject) : option string :=
  match workflow !! "status" with
  | Some (JStr s) => Some s
  | _ => None
  end.

Definition terminal (workflow : JsObject) : Prop :=
  status_of workflow = Some "completed" ∨ status_of workflow = Some "failed".

Definition is_WsSend (e : Effect) : bool :=
  match e with WsSend _ _ => true | _ => false end.

(** The record stored under [workflowId], and one property of it. *)
Definition stored (w : World) (workflowId : string) : option JsObject :=
  WORKFLOWS_KV (kv w) !! workflowId.

Definition stored_field (w : World) (workflowId field : string) : option Json :=
  stored w workflowId ≫= (fun workflow => workflow !! field).

(** ** Vocabulary of the properties *)

(** A Hoare logic for [M].

    [hoare P m Q]: from a world satisfying [P], [m] ends (every model
    computation does) with an outcome and a world satisfying [Q]. *)

Definition hoare {A} (P : World → Prop) (m : M A) (Q : Outcome A → World → Prop) : Prop :=
  ∀ w, P w → Q (m w).2 (m w).1.

(** The postcondition of a computation that cannot throw. *)
Definition returns {A} (R : World → Prop) : Outcome A → World → Prop :=
  fun r w => (∃ a, r = Normal a) ∧ R w.

(** The progress values of a sequence of records, oldest first. *)
Definition progress_values (workflows : list JsObject) : list Q :=
  omap progress_of workflows.

(** A step fault with message [e] is possible in the outside [o]: the
    visualization service or the write of the results throws it. *)
Definition step_fault (o : Outside) (e : string) : Prop :=
  ∃ n, visualization o n = inl e ∨ kv_fault o Results n = Some e.

Definition has_progress (workflow : JsObject) : Prop := is_Some (progress_of workflow).

(** The invariant of a run of the pipeline for [workflowId] that started
    with Durable Object [h] and outside [o]: nothing was sent to a socket,
    no record written so far is terminal, the progress values written so far
    are non-decreasing and at most [b], and the store holds the last record
    written.  [N] stands for "the run started on a record with a numeric
    progress": then every record written has one. *)
Record running (workflowId : string) (h : Hub) (o : Outside) (N : Prop) (b : Q)
    (w : World) : Prop := {
  running_hub : hub w = h;
  running_outside : outside w = o;
  running_silent : Forall (fun e => is_WsSend e = false) (log w);
  running_status : Forall (fun workflow => ¬ terminal workflow)
                          (persisted workflowId (log w));
  running_sorted : StronglySorted Qle (progress_values (persisted workflowId (log w)));
  running_below : Forall (fun q => (q <= b)%Q)
                         (progress_values (persisted workflowId (log w)));
  running_stored : persisted workflowId (log w) ≠ [] →
                   stored w workflowId = last (persisted workflowId (log w));
  running_numeric : N →
                    Forall has_progress (persisted workflowId (log w))
                    ∧ ∀ workflow, stored w workflowId = Some workflow →
                                  has_progress workflow
}.

(** What holds when the run is over: only the last record written can be
    terminal. *)
Record finished (workflowId : string) (h : Hub) (o : Outside) (N : Prop)
    (w : World) : Prop := {
  finished_hub : hub w = h;
  finished_outside : outside w = o;
  finished_silent : Forall (fun e => is_WsSend e = false) (log w);
  finished_status : Forall (fun workflow => ¬ terminal workflow)
                           (removelast (persisted workflowId (log w)));
  finished_sorted : StronglySorted Qle (progress_values (persisted workflowId (log w)));
  finished_numeric : N → Forall has_progress (persisted workflowId (log w))
}.

(** The postcondition of a step that may throw: the invariant either way,
    and a step fault of the outside behind every exception. *)
Definition may_throw (workflowId : string) (h : Hub) (o : Outside) (N : Prop) (b : Q)
  : Outcome unit → World → Prop :=
  fun r w =>
    match r with
    | Normal _ => running workflowId h o N b w
    | Thrown e => running workflowId h o N 100 w ∧ step_fault o e
    end.

(** A run for [workflowId] that has not written its record yet. *)
Definition idle (workflowId : string) (h : Hub) (o : Outside) (w : World) : Prop :=
  hub w = h ∧ outside w = o
  ∧ Forall (fun e => is_WsSend e = false) (log w)
  ∧ persisted workflowId (log w) = [].

Definition never_failed (workflowId : string) (w : World) : Prop :=
  Forall (fun workflow => status_of workflow ≠ Some "failed")
         (persisted workflowId (log w)).

(** The world left by a computation that changed nothing but the number of
    outside calls and the log. *)
Definition logged (n : nat) (es : list Effect) (w : World) : World :=
  {| kv := kv w; hub := hub w; calls := n + calls w; log := log w ++ es;
     outside := outside w |}.

(** The world left by an update that read the record and wrote [workflow']
    back: three outside calls ([get], [Date], [put]) and one write. *)
Definition written (workflowId : string) (workflow' : JsObject) (w : World) : World :=
  emit (KvPut Workflows workflowId workflow')
       (store Workflows workflowId workflow' (called (called (called w)))).

Definition is_ConsoleError (e : Effect) : bool :=
  match e with ConsoleError _ _ => true | _ => false end.

(** The sockets of the sessions registered for [workflowId'], in registry
    order. *)
Definition subscribers (workflowId' : option string)
    (entries : list (string * Session)) : list nat :=
  omap (fun entry => if bool_decide (workflowId entry.2 = workflowId')
                     then Some (webSocket entry.2) else None) entries.

(** [message] as [sendMessage] puts it on the wire. *)
Definition stamp (timestamp : string) (message : JsObject) : JsObject :=
  <["timestamp" := JStr timestamp]> message.

(** What one [sendMessage] of [message] to [socket] leaves in the log: the
    stamped message when the socket is open, else a console error. *)
Definition attempt (open : gset nat) (message : JsObject) (socket : nat)
    (e : Effect) : Prop :=
  if bool_decide (socket ∈ open)
  then ∃ timestamp, e = WsSend socket (stamp timestamp message)
  else is_ConsoleError e = true.

(** [message] without the timestamp put on it by [sendMessage]. *)
Definition unstamped (message : JsObject) : JsObject := delete "timestamp" message.

(** The messages published for [workflowId'], in publication order. *)
Definition published_for (workflowId' : option string)
    (publications : list (option string * JsObject)) : list JsObject :=
  omap (fun p => if bool_decide (p.1 = workflowId') then Some p.2 else None)
       publications.

(** The sockets of all registered sessions; each connection has its own
    socket, so the list has no duplicates in a registry built by
    [handleSession]. *)
Definition registered_sockets (entries : list (string * Session)) : list nat :=
  map (fun entry => webSocket entry.2) entries.

(** A sequence of publishes, as events of the Durable Object. *)
Definition publish_all (publications : list (option string * JsObject))
  : list WebSocketManager.Event :=
  map (fun p => WebSocketManager.Publish p.1 p.2) publications.

(** The message [handleSession] sends, and the world it leaves: the socket
    accepted, the session registered, one message on the socket, the interval
    started; five outside calls were made ([Math.random] and four dates). *)
Definition connection_established (sessionId : string) (workflowId' : option string)
    (timestamp : string) : JsObject :=
  object_literal [("type", Some (JStr "connection_established"));
                  ("sessionId", Some (JStr sessionId));
                  ("workflowId", Some (WebSocketManager.nullable workflowId'));
                  ("timestamp", Some (JStr timestamp))].

Definition new_session_id (w : World) : string :=
  "session_" ++ radix36 (outside w) (random (outside w) (calls w)).

Definition connected (socket : nat) (workflowId' : option string) (w : World) : World :=
  {| kv := kv w;
     hub := {| sessions :=
                 WebSocketManager.Map_set
                   (new_session_id w)
                   {| webSocket := socket; workflowId := workflowId';
                      connectedAt := toISOString (outside w) (1 + calls w);
                      lastActivity := toISOString (outside w) (2 + calls w);
                      subscriptions := None |}
                   (sessions (hub w));
               timers := <[next_timer (hub w) := (new_session_id w, workflowId')]>
                           (timers (hub w));
               next_timer := S (next_timer (hub w));
               open_sockets := {[socket]} ∪ open_sockets (hub w) |};
     calls := 5 + calls w;
     log := log w ++ [WsSend socket
                        (stamp (toISOString (outside w) (4 + calls w))
                               (connection_established
                                  (new_session_id w) workflowId'
                                  (toISOString (outside w) (3 + calls w))))];
     outside := outside w |}.

(** A property of the [payload] object of a message. *)
Fixpoint assoc (field : string) (fields : list (string * Json)) : option Json :=
  match fields with
  | [] => None
  | (k, v) :: fields => if String.eqb k field then Some v else assoc field fields
  end.

Definition payload_field (field : string) (message : JsObject) : option Json :=
  match message !! "payload" with
  | Some (JObj fields) => assoc field fields
  | _ => None
  end.

(** The [progress] of the payload, in lowest terms. *)
Definition payload_progress (message : JsObject) : option Q :=
  match payload_field "progress" message with
  | Some (JNum q) => Some (Qred q)
  | _ => None
  end.

(** Everything a run for [workflowId] has no business with is in [w] as it
    was in [w0]: the records and the results of the other workflows, all use
    cases, the Durable Object and the outside. *)
Definition untouched (workflowId : string) (w0 w : World) : Prop :=
  (∀ other, other ≠ workflowId →
            WORKFLOWS_KV (kv w) !! other = WORKFLOWS_KV (kv w0) !! other
            ∧ RESULTS_KV (kv w) !! other = RESULTS_KV (kv w0) !! other)
  ∧ USECASES_KV (kv w) = USECASES_KV (kv w0)
  ∧ hub w = hub w0
  ∧ outside w = outside w0.

(** The object [generateResultsAndVisualization] writes to [RESULTS_KV]. *)
Definition results_object (simulationResults analysis visualization : Json) : JsObject :=
  object_literal [("simulation_results", Some simulationResults);
                  ("analysis", Some analysis);
                  ("visualization", Some visualization);
                  ("performance_metrics", Some WorkflowManager.performance_metrics)].

(** The properties [updateWorkflowStatus] assigns. *)
Definition assigned : list string :=
  ["status"; "updated_at"; "progress"; "current_step"; "metrics";
   "estimated_remaining_time"].

(** An outside whose workflow store always answers, and one where no step
    can fail. *)
Definition workflow_store_up (o : Outside) : Prop :=
  ∀ n, kv_fault o Workflows n = None.

Definition steps_succeed (o : Outside) : Prop :=
  (∀ n, ∃ v, visualization o n = inr v) ∧ ∀ n, kv_fault o Results n = None.

(** A world with outside [o] in which [workflowId] has a record. *)
Definition recorded (workflowId : string) (o : Outside) (w : World) : Prop :=
  outside w = o ∧ is_Some (stored w workflowId).

(** One numeric property of a metrics object. *)
Definition metric (name : string) (metrics : Json) : option Q :=
  match metrics with
  | JObj fields =>
      match assoc name fields with
      | Some (JNum q) => Some q
      | _ => None
      end
  | _ => None
  end.

(** The results store holds the results of the workflow, as
    [generateResultsAndVisualization] writes them. *)
Definition has_results (workflowId : string) (w : World) : Prop :=
  ∃ simulationResults analysis visualization,
    RESULTS_KV (kv w) !! workflowId
    = Some (results_object simulationResults analysis visualization).

(** The HTTP status of the answer of a handler. *)
Definition status_code {A} (r : Outcome (nat * A)) : option nat :=
  match r with Normal (status, _) => Some status | Thrown _ => None end.

(** The value an object literal gives to [key], when no key is written
    twice. *)
Fixpoint property (key : string) (props : list (string * option Json)) : option Json :=
  match props with
  | [] => None
  | (k, v) :: props => if String.eqb k key then v else property key props
  end.

(** ** Vocabulary for the handlers of the Durable Object *)

(** The session object after [session.lastActivity = now], and after
    [session.subscriptions = metrics]. *)
Definition touched (session : Session) (now : string) : Session :=
  {| webSocket := webSocket session; workflowId := workflowId session;
     connectedAt := connectedAt session; lastActivity := now;
     subscriptions := subscriptions session |}.

Definition subscribed (session : Session) (metrics : Json) : Session :=
  {| webSocket := webSocket session; workflowId := workflowId session;
     connectedAt := connectedAt session; lastActivity := lastActivity session;
     subscriptions := Some metrics |}.

(** [message.type === name] *)
Definition has_type (name : string) (message : JsObject) : bool :=
  match message !! "type" with Some (JStr s) => String.eqb s name | _ => false end.

(** What identifies a session: its id, its socket, its workflow id and the
    time it connected. *)
Definition identity (entry : string * Session) : string * nat * option string * string :=
  (entry.1, webSocket entry.2, workflowId entry.2, connectedAt entry.2).


(** [Math.random()] stays in its range. *)
Definition random_in_range (o : Outside) : Prop :=
  ∀ n, (0 <= random o n)%Q ∧ (random o n < 1)%Q.

(** The number of registered sessions counted under [key], and the sum of
    all counts. *)
Definition sessions_for (key : string) (entries : list (string * Session)) : nat :=
  length (filter (fun entry => WebSocketManager.property_key (workflowId entry.2) = key)
                 entries).

Definition total (counts : gmap string nat) : nat :=
  map_fold (fun _ n acc => (n + acc)%nat) 0%nat counts.

(** ** Vocabulary for the transitions of a run *)

(** The values the loop variable of [for_upto] takes. *)
Fixpoint loop_values (fuel : nat) (progress hi step : Q) : list Q :=
  match fuel with
  | O => []
  | S fuel =>
      if Qle_bool progress hi
      then progress :: loop_values fuel (progress + step)%Q hi step
      else []
  end.

(** The transition a stored record shows: its status, progress and step. *)
Definition transition (workflow : JsObject) : option (string * Q * string) :=
  match status_of workflow, progress_of workflow, workflow !! "current_step" with
  | Some status, Some progress, Some (JStr step) => Some (status, progress, step)
  | _, _, _ => None
  end.

(** A world with outside [o] in which the workflow has a record and the
    records written for it so far show the transitions [trace]. *)
Definition traced (workflowId : string) (o : Outside)
    (trace : list (string * Q * string)) (w : World) : Prop :=
  recorded workflowId o w
  ∧ omap transition (persisted workflowId (log w)) = trace.

(** The transitions of one simulated step. *)
Definition processing (step : string) (values : list Q) : list (string * Q * string) :=
  map (fun progress => ("processing", progress, step)) values.

(** ** Concrete worlds for the examples *)

(** An outside where nothing fails; [Math.random()] gives 0.8, 0.2, 0.8, ... *)
Definition calm : Outside :=
  {| kv_fault := fun _ _ => None;
     toISOString := fun _ => "2024-01-15T10:30:00.000Z";
     random := fun n => if Nat.even n then 8 # 10 else 2 # 10;
     radix36 := fun _ => "k3x9q2m1a";
     visualization := fun _ => inr (JObj []);
     generateSampleResults := fun _ => JNull;
     generateAnalysis := fun _ _ => JNull |}.

(** The same, with a visualization service that throws. *)
Definition broken_visualization : Outside :=
  {| kv_fault := fun _ _ => None;
     toISOString := fun _ => "2024-01-15T10:30:00.000Z";
     random := fun n => if Nat.even n then 8 # 10 else 2 # 10;
     radix36 := fun _ => "k3x9q2m1a";
     visualization := fun _ => inl "WebGL data missing";
     generateSampleResults := fun _ => JNull;
     generateAnalysis := fun _ _ => JNull |}.

Definition no_sessions : Hub :=
  {| sessions := []; timers := ∅; next_timer := 0; open_sockets := ∅ |}.

Definition heat_request : JsObject :=
  object_literal [("name", Some (JStr "plate"));
                  ("domain_type", Some (JStr "heat_transfer"));
                  ("application", Some (JStr "cooling"))].

(** The record of workflow [wf-1] as the handler creates it. *)
Definition wf1_initiated : JsObject :=
  initial_workflow "wf-1" heat_request ∅
                   "2024-01-15T10:29:00.000Z" "2024-01-15T10:29:00.000Z".

(** The record of [wf-1] after a complete run. *)
Definition wf1_completed : JsObject :=
  WorkflowManager.updated wf1_initiated "completed" "2024-01-15T10:29:30.000Z"
                          (Some 100%Q) (Some "finished") None.

Definition world_of (o : Outside) (h : Hub) (workflows : gmap string JsObject) : World :=
  {| kv := {| WORKFLOWS_KV := workflows; RESULTS_KV := ∅; USECASES_KV := ∅ |};
     hub := h; calls := 0; log := []; outside := o |}.

(** A Durable Object with one session, on socket 7, connected for [wf-1]. *)
Definition one_subscriber : Hub :=
  {| sessions := [("session_a",
                   {| webSocket := 7; workflowId := Some "wf-1";
                      connectedAt := "2024-01-15T10:28:00.000Z";
                      lastActivity := "2024-01-15T10:28:00.000Z";
                      subscriptions := None |})];
     timers := {[0%nat := ("session_a", Some "wf-1")]};
     next_timer := 1;
     open_sockets := {[7%nat]} |}.

(** An outside whose workflow store fails on every even outside call. *)
Definition flaky_store : Outside :=
  {| kv_fault := fun ns n =>
       match ns with
       | Workflows => if Nat.even n then Some "KV unavailable" else None
       | _ => None
       end;
     toISOString := fun _ => "2024-01-15T10:30:00.000Z";
     random := fun n => if Nat.even n then 8 # 10 else 2 # 10;
     radix36 := fun _ => "k3x9q2m1a";
     visualization := fun _ => inr (JObj []);
     generateSampleResults := fun _ => JNull;
     generateAnalysis := fun _ _ => JNull |}.

(** [wf-1] freshly created, one session connected for it, and a
    visualization service that throws; and the world in which the [try]
    block of the run has just thrown. *)
Definition faulty_world : World :=
  world_of broken_visualization one_subscriber {["wf-1" := wf1_initiated]}.

Definition faulty_world_at_fault : World :=
  (WorkflowManager.pipeline "wf-1" heat_request ∅ (clear_log faulty_world)).1.

(** A Durable Object with two sessions connected for [wf-1], on sockets 7
    and 8, each with its interval; and the same with socket 7 closed. *)
Definition two_subscribers : Hub :=
  {| sessions := [("session_a",
                   {| webSocket := 7; workflowId := Some "wf-1";
                      connectedAt := "2024-01-15T10:28:00.000Z";
                      lastActivity := "2024-01-15T10:28:00.000Z";
                      subscriptions := None |});
                  ("session_b",
                   {| webSocket := 8; workflowId := Some "wf-1";
                      connectedAt := "2024-01-15T10:28:30.000Z";
                      lastActivity := "2024-01-15T10:28:30.000Z";
                      subscriptions := None |})];
     timers := {[0%nat := ("session_a", Some "wf-1");
                 1%nat := ("session_b", Some "wf-1")]};
     next_timer := 2;
     open_sockets := {[7%nat; 8%nat]} |}.


Definition progress_message : JsObject :=
  object_literal [("type", Some (JStr "workflow_progress"));
                  ("workflowId", Some (JStr "wf-1"));
                  ("payload", Some (JObj [("step", JStr "pinn_training");
                                          ("progress", JNum 65)]))].

Definition second_message : JsObject :=
  object_literal [("type", Some (JStr "workflow_progress"));
                  ("workflowId", Some (JStr "wf-1"));
                  ("payload", Some (JObj [("step", JStr "pinn_training");
                                          ("progress", JNum 70)]))].

Definition other_message : JsObject :=
  object_literal [("type", Some (JStr "workflow_progress"));
                  ("workflowId", Some (JStr "wf-2"));
                  ("payload", Some (JObj [("step", JStr "mesh_generation");
                                          ("progress", JNum 35)]))].

(** [wf-1] is completed and stored; nobody is connected yet. *)
Definition completed_world : World :=
  world_of calm no_sessions {["wf-1" := wf1_completed]}.

(** The world left by the creation of [wf-1] on a calm platform. *)
Definition created_world : World :=
  (post_simulations heat_request "wf-1" ∅ (world_of calm no_sessions ∅)).1.

(** A grid of two rows and three columns, without heights, and what
    [prepareWebGLData] makes of it. *)
Definition small_grid_x : list (list Q) := [[0; 1; 2]; [0; 1; 2]]%Q.
Definition small_grid_y : list (list Q) := [[0; 0; 0]; [1; 1; 1]]%Q.

Definition small_geometry : Visualization3D.Geometry :=
  {| Visualization3D.vertices :=
       [Some 0; Some 0; Some 0; Some 1; Some 0; Some 0; Some 2; Some 0; Some 0;
        Some 0; Some 1; Some 0; Some 1; Some 1; Some 0; Some 2; Some 1; Some 0]%Q;
     Visualization3D.faces := [0; 1; 3; 1; 4; 3; 1; 2; 4; 2; 5; 4]%nat |}.

Definition request_status : JsObject :=
  object_literal [("type", Some (JStr "request_status"))].

(** * Properties *)

(** Closed facts about concrete worlds are settled by evaluation, one
    conjunct at a time. *)
Ltac evaluate :=
  repeat match goal with |- _ ∧ _ => split end; vm_compute; reflexivity.

(** ** Rational arithmetic and the progress loops *)

Section Rationals.
#[local] Open Scope Q_scope.

Lemma Qfloor_unique (x : Q) (z : Z) :
  inject_Z z <= x → x < inject_Z (z + 1) → Qfloor x = z.
Proof.
  intros Hlo Hhi.
  pose proof (Qfloor_le x) as Hf. pose proof (Qlt_floor x) as Hc.
  assert (inject_Z z < inject_Z (Qfloor x + 1)) as H1
    by (eapply Qle_lt_trans; eassumption).
  assert (inject_Z (Qfloor x) < inject_Z (z + 1)) as H2
    by (eapply Qle_lt_trans; eassumption).
  rewrite <- Zlt_Qlt in H1, H2. lia.
Qed.

Lemma Qfloor_shift (x : Q) : Qfloor (x - 1) = (Qfloor x - 1)%Z.
Proof.
  apply Qfloor_unique.
  - pose proof (Qfloor_le x) as H. unfold Z.sub.
    rewrite inject_Z_plus, inject_Z_opp.
    change (inject_Z 1) with 1. set (q := inject_Z (Qfloor x)) in *. lra.
  - pose proof (Qlt_floor x) as H. unfold Z.sub.
    rewrite inject_Z_plus in H. rewrite !inject_Z_plus, inject_Z_opp.
    change (inject_Z 1) with 1 in *. set (q := inject_Z (Qfloor x)) in *. lra.
Qed.

Lemma Qle_bool_false (x y : Q) : Qle_bool x y = false ↔ y < x.
Proof.
  pose proof (Qle_bool_iff x y) as H. destruct (Qle_bool x y).
  - split; [done | intros Hlt]. apply Qlt_not_le in Hlt. destruct Hlt. by apply H.
  - split; [intros _ | done]. apply Qnot_le_lt. intros Hle. apply H in Hle. done.
Qed.

End Rationals.

Lemma for_upto_done fuel lo hi step body :
  Qle_bool lo hi = false → for_upto fuel lo hi step body = ret tt.
Proof. intros H. destruct fuel; simpl; [done | by rewrite H]. Qed.

Lemma trip_count_step (lo hi step : Q) :
  (0 < step)%Q → (lo <= hi)%Q →
  trip_count lo hi step = S (trip_count (lo + step) hi step).
Proof.
  intros Hs Hle. unfold trip_count.
  assert (Qfloor ((hi - (lo + step)) / step) = (Qfloor ((hi - lo) / step) - 1)%Z) as ->.
  { rewrite <- Qfloor_shift. apply Qfloor_comp. field.
    intros Hz. rewrite Hz in Hs. by apply Qlt_irrefl in Hs. }
  assert (0 <= Qfloor ((hi - lo) / step))%Z.
  { rewrite <- (Qfloor_Z 0). apply Qfloor_resp_le.
    apply Qle_shift_div_l; [done | change (inject_Z 0) with 0%Q; lra]. }
  lia.
Qed.

Lemma for_progress_unfold lo hi step body :
  (0 < step)%Q →
  for_progress lo hi step body =
  if Qle_bool lo hi
  then body lo ;; for_progress (lo + step) hi step body
  else ret tt.
Proof.
  intros Hs. unfold for_progress. destruct (Qle_bool lo hi) eqn:Hc.
  - apply Qle_bool_iff in Hc. rewrite (trip_count_step lo hi step) by done.
    simpl. apply Qle_bool_iff in Hc. by rewrite Hc.
  - by apply for_upto_done.
Qed.

(** ** The rules of the Hoare logic *)

Lemma hoare_conseq {A} (P P' : World → Prop) (m : M A) (Q Q' : Outcome A → World → Prop) :
  hoare P' m Q' → (∀ w, P w → P' w) → (∀ r w, Q' r w → Q r w) → hoare P m Q.
Proof. intros H HP HQ w Hw. apply HQ, H, HP, Hw. Qed.

Lemma hoare_ret {A} (P : World → Prop) (a : A) : hoare P (ret a) (returns P).
Proof. intros w Hw. split; [by exists a | done]. Qed.

Lemma hoare_bind {A B} (P : World → Prop) (R : A → World → Prop)
    (m : M A) (k : A → M B) (Q : Outcome B → World → Prop) :
  hoare P m (fun r w => match r with
                        | Normal a => R a w
                        | Thrown e => Q (Thrown e) w
                        end) →
  (∀ a, hoare (R a) (k a) Q) →
  hoare P (bind m k) Q.
Proof.
  intros Hm Hk w Hw. specialize (Hm w Hw). unfold bind.
  destruct (m w) as [w1 [a | e]]; simpl in *; [by apply Hk | done].
Qed.

Lemma hoare_try_catch {A} (P : World → Prop) (R : string → World → Prop)
    (body : M A) (handler : string → M A) (Q : Outcome A → World → Prop) :
  hoare P body (fun r w => match r with
                           | Normal a => Q (Normal a) w
                           | Thrown e => R e w
                           end) →
  (∀ e, hoare (R e) (handler e) Q) →
  hoare P (try_catch body handler) Q.
Proof.
  intros Hb Hh w Hw. specialize (Hb w Hw). unfold try_catch.
  destruct (body w) as [w1 [a | e]]; simpl in *; [done | by apply Hh].
Qed.

(** Sequencing after a computation that cannot throw. *)
Lemma hoare_seq {A B} (P R : World → Prop) (m : M A) (k : A → M B)
    (Q : Outcome B → World → Prop) :
  hoare P m (returns R) → (∀ a, hoare R (k a) Q) → hoare P (bind m k) Q.
Proof.
  intros Hm Hk. apply hoare_bind with (R := fun _ => R); [| done].
  intros w Hw. destruct (Hm w Hw) as [[a Ha] HR]. by rewrite Ha.
Qed.

(** The loop rule: an invariant indexed by a bound that the loop variable
    only raises. *)
Lemma hoare_for_upto (I : Q → World → Prop) (hi step : Q) (body : Q → M unit) :
  (0 <= step)%Q →
  (∀ b b' w, (b <= b')%Q → I b w → I b' w) →
  (∀ b p, (b <= p)%Q → (p <= hi)%Q → hoare (I b) (body p) (returns (I p))) →
  ∀ fuel lo b, (b <= lo)%Q → (b <= hi)%Q →
    hoare (I b) (for_upto fuel lo hi step body) (returns (I hi)).
Proof.
  intros Hstep Hmono Hbody. induction fuel as [| fuel IH]; intros lo b Hlo Hhi; simpl.
  - eapply hoare_conseq; [apply hoare_ret | done |].
    intros r w [Hr Hw]. split; [done | by apply (Hmono b)].
  - destruct (Qle_bool lo hi) eqn:Hc.
    + apply Qle_bool_iff in Hc.
      eapply hoare_seq; [by apply Hbody |]. intros _.
      apply IH; [lra | done].
    + eapply hoare_conseq; [apply hoare_ret | done |].
      intros r w [Hr Hw]. split; [done | by apply (Hmono b)].
Qed.

(** ** [updateWorkflowStatus] *)

Section UpdateWorkflowStatus.

Import WorkflowManager.

Variables (workflowId status : string) (progress : option Q)
          (step : option string) (metrics : option Json).

(** The two ways the call can go: the record is read, changed and written
    back, or nothing is written and at most the console is used. *)
Lemma updateWorkflowStatus_cases (w : World) :
  let r := updateWorkflowStatus workflowId status progress step metrics w in
  r.2 = Normal tt ∧
  ((∃ workflow,
       stored w workflowId = Some workflow ∧
       kv_fault (outside w) Workflows (calls w) = None ∧
       kv_fault (outside w) Workflows (S (S (calls w))) = None ∧
       let workflow' := updated workflow status (toISOString (outside w) (S (calls w)))
                                progress step metrics in
       r.1 = emit (KvPut Workflows workflowId workflow')
                  (store Workflows workflowId workflow' (called (called (called w)))))
   ∨ ((stored w workflowId = None
       ∨ is_Some (kv_fault (outside w) Workflows (calls w))
       ∨ is_Some (kv_fault (outside w) Workflows (S (S (calls w)))))
      ∧ ∃ n es, r.1 = logged n es w ∧ Forall (fun e => is_ConsoleError e = true) es)).
Proof.
  unfold updateWorkflowStatus, try_catch, bind, kv_get, kv_put, new_Date,
    console_error, stored; simpl.
  destruct (kv_fault (outside w) Workflows (calls w)) as [e |] eqn:Hget; simpl.
  { split; [done |]. right. split; [eauto |].
    exists 1%nat, [ConsoleError "Failed to update workflow status:" e].
    split; [done | by repeat constructor]. }
  destruct (WORKFLOWS_KV (kv w) !! workflowId) as [workflow |] eqn:Hrec; simpl.
  2: { split; [done |]. right. split; [eauto |].
       exists 1%nat, []. split; [| done].
       unfold logged, called. simpl. by rewrite app_nil_r. }
  destruct (kv_fault (outside w) Workflows (S (S (calls w)))) as [e |] eqn:Hput; simpl.
  { split; [done |]. right. split; [eauto |].
    exists 3%nat, [ConsoleError "Failed to update workflow status:" e].
    split; [done | by repeat constructor]. }
  split; [done |]. left. exists workflow. done.
Qed.

Lemma updateWorkflowStatus_never_throws (w : World) :
  (updateWorkflowStatus workflowId status progress step metrics w).2 = Normal tt.
Proof. apply updateWorkflowStatus_cases. Qed.

End UpdateWorkflowStatus.

(** ** The remaining-time estimate *)

Section RemainingTime.

Import WorkflowManager.
#[local] Open Scope Q_scope.





Lemma updated_estimate workflow st ts p step metrics :
  updated workflow st ts p step metrics !! "estimated_remaining_time"
  = Some (JNum (estimated_remaining_time p)).
Proof. unfold updated. by rewrite lookup_insert_eq. Qed.

End RemainingTime.

Lemma persisted_app workflowId (l1 l2 : list Effect) :
  persisted workflowId (l1 ++ l2) = (persisted workflowId l1 ++ persisted workflowId l2)%list.
Proof. apply omap_app. Qed.

Lemma persisted_put workflowId value :
  persisted workflowId [KvPut Workflows workflowId value] = [value].
Proof. unfold persisted. simpl. by rewrite String.eqb_refl. Qed.

Lemma persisted_console workflowId (es : list Effect) :
  Forall (fun e => is_ConsoleError e = true) es → persisted workflowId es = [].
Proof.
  induction 1 as [| e es He _ IH]; [done |].
  by destruct e.
Qed.




(** ** Sequences of progress values *)

Section Sequences.

#[local] Open Scope Q_scope.

Lemma sorted_snoc (l : list Q) (q : Q) :
  StronglySorted Qle l → Forall (fun x => x <= q) l → StronglySorted Qle (l ++ [q]).
Proof.
  intros Hs Hb. apply StronglySorted_app. split; [| split; [done | repeat constructor]].
  intros x1 x2 H1 H2. apply list_elem_of_singleton in H2 as ->.
  by eapply Forall_forall in Hb.
Qed.

Lemma sorted_snoc_again (l : list Q) (q : Q) :
  StronglySorted Qle (l ++ [q]) → StronglySorted Qle ((l ++ [q]) ++ [q]).
Proof.
  intros Hs. apply sorted_snoc; [done |].
  apply Forall_app. split; [| by repeat constructor; apply Qle_refl].
  apply Forall_forall. intros x Hx.
  eapply StronglySorted_app_1_elem_of; [done | done | by apply list_elem_of_singleton].
Qed.

Lemma below_mono (l : list Q) (b b' : Q) :
  b <= b' → Forall (fun x => x <= b) l → Forall (fun x => x <= b') l.
Proof. intros Hb Hl. eapply Forall_impl; [exact Hl |]. intros x Hx. simpl in Hx. lra. Qed.

Lemma progress_values_app (l1 l2 : list JsObject) :
  progress_values (l1 ++ l2) = (progress_values l1 ++ progress_values l2)%list.
Proof. apply omap_app. Qed.

Lemma Forall_removelast {A} (P : A → Prop) (l : list A) :
  Forall P l → Forall P (removelast l).
Proof.
  induction 1 as [| x l Hx Hl IH]; [done |].
  simpl. destruct l; [done | by constructor].
Qed.

End Sequences.

(** ** What an update does to a record *)

Section Updated.

Import WorkflowManager.

Variables (workflow : JsObject) (status timestamp : string)
          (step : option string) (metrics : option Json).

Lemma updated_status progress :
  status_of (updated workflow status timestamp progress step metrics) = Some status.
Proof.
  unfold status_of, updated.
  rewrite lookup_insert_ne by done.
  destruct metrics; [rewrite lookup_insert_ne by done |];
    (destruct step; [rewrite lookup_insert_ne by done |]);
    (destruct progress; [rewrite lookup_insert_ne by done |]);
    rewrite lookup_insert_ne by done; by rewrite lookup_insert_eq.
Qed.

Lemma updated_progress_Some p :
  progress_of (updated workflow status timestamp (Some p) step metrics) = Some p.
Proof.
  unfold progress_of, updated.
  rewrite lookup_insert_ne by done.
  destruct metrics; [rewrite lookup_insert_ne by done |];
    (destruct step; [rewrite lookup_insert_ne by done |]);
    by rewrite lookup_insert_eq.
Qed.

Lemma updated_progress_None :
  updated workflow status timestamp None step metrics !! "progress"
  = workflow !! "progress".
Proof.
  unfold updated.
  rewrite lookup_insert_ne by done.
  destruct metrics; [rewrite lookup_insert_ne by done |];
    (destruct step; [rewrite lookup_insert_ne by done |]);
    by rewrite !lookup_insert_ne by done.
Qed.

End Updated.

(** ** The invariant of the pipeline *)

Section Invariant.

Import WorkflowManager.
#[local] Open Scope Q_scope.

Variables (workflowId : string) (h : Hub) (o : Outside) (N : Prop).

Lemma running_mono (b b' : Q) (w : World) :
  b <= b' → running workflowId h o N b w → running workflowId h o N b' w.
Proof.
  intros Hb [? ? ? ? ? Hbelow ? ?]. split; try done. by eapply below_mono.
Qed.

Lemma running_finished (b : Q) (w : World) :
  running workflowId h o N b w → finished workflowId h o N w ∧ never_failed workflowId w.
Proof.
  intros [? ? ? Hst ? ? ? Hn]. split.
  - split; try done; [by apply Forall_removelast | by intros HN; apply Hn].
  - eapply Forall_impl; [exact Hst |]. intros workflow Hnt Hf. apply Hnt. by right.
Qed.

(** A computation that only logs console errors keeps the invariant. *)
Lemma running_logged (b : Q) (n : nat) (es : list Effect) (w : World) :
  Forall (fun e => is_ConsoleError e = true) es →
  running workflowId h o N b w → running workflowId h o N b (logged n es w).
Proof.
  intros Hes [? ? Hq ? ? ? Hst ?].
  assert (persisted workflowId (log (logged n es w)) = persisted workflowId (log w)) as Hp.
  { cbn [log logged]. by rewrite persisted_app, (persisted_console _ _ Hes), app_nil_r. }
  split; rewrite ?Hp; try done.
  simpl. apply Forall_app. split; [done |].
  eapply Forall_impl; [exact Hes |]. by intros [].
Qed.

Lemma persisted_written workflow' w :
  persisted workflowId (log (written workflowId workflow' w))
  = (persisted workflowId (log w) ++ [workflow'])%list.
Proof. simpl. by rewrite persisted_app, persisted_put. Qed.

Lemma stored_written workflow' w :
  stored (written workflowId workflow' w) workflowId = Some workflow'.
Proof. unfold stored. simpl. apply lookup_insert_eq. Qed.

Lemma running_written (b p : Q) (workflow' : JsObject) (w : World) :
  b <= p → progress_of workflow' = Some p → ¬ terminal workflow' →
  running workflowId h o N b w → running workflowId h o N p (written workflowId workflow' w).
Proof.
  intros Hb Hp Hnt [? ? Hq Hst Hso Hbe Hsto Hn].
  split; rewrite ?persisted_written, ?progress_values_app; try done.
  - simpl. apply Forall_app. split; [done | by repeat constructor].
  - apply Forall_app. split; [done | by repeat constructor].
  - unfold progress_values at 2. simpl. rewrite Hp. simpl.
    apply sorted_snoc; [done | by eapply below_mono].
  - unfold progress_values at 2. simpl. rewrite Hp. simpl.
    apply Forall_app. split; [by eapply below_mono | repeat constructor; lra].
  - intros _. by rewrite stored_written, last_snoc.
  - intros HN. split.
    + apply Forall_app. split; [by apply Hn |].
      repeat constructor. unfold has_progress. by rewrite Hp.
    + intros workflow. rewrite stored_written. intros [= <-].
      unfold has_progress. by rewrite Hp.
Qed.

(** An update that carries a progress value at least the bound and a
    status that is not terminal keeps the invariant, whatever the store
    does. *)
Lemma update_keeps_running (b p : Q) (status : string) step metrics :
  status ≠ "completed" → status ≠ "failed" → b <= p →
  hoare (running workflowId h o N b)
        (updateWorkflowStatus workflowId status (Some p) step metrics)
        (returns (running workflowId h o N p)).
Proof.
  intros Hc Hf Hb w Hw.
  destruct (updateWorkflowStatus_cases workflowId status (Some p) step metrics w)
    as [Hr [(workflow & _ & _ & _ & Hs) | (_ & n & es & Hs & Hes)]];
    (split; [eauto |]); simpl in Hs; rewrite Hs.
  - apply (running_written b); [done | apply updated_progress_Some | | done].
    unfold terminal. rewrite updated_status. intros [[=] | [=]]; done.
  - apply (running_mono b); [done |]. by apply running_logged.
Qed.

(** The last update of a run, with a terminal status. *)
Lemma update_finishes (b : Q) (status : string) (progress : option Q) step metrics :
  (∀ p, progress = Some p → b <= p) →
  hoare (running workflowId h o N b)
        (updateWorkflowStatus workflowId status progress step metrics)
        (returns (fun w => finished workflowId h o N w
                           ∧ (status ≠ "failed" → never_failed workflowId w))).
Proof.
  intros Hb w Hw.
  destruct (updateWorkflowStatus_cases workflowId status progress step metrics w)
    as [Hr [(workflow & Hget & _ & _ & Hs) | (_ & n & es & Hs & Hes)]];
    (split; [eauto |]); simpl in Hs; rewrite Hs.
  2: { destruct (running_finished b (logged n es w)) as [? ?];
       [by apply running_logged | done]. }
  set (workflow' := updated workflow status _ progress step metrics).
  change (emit _ _) with (written workflowId workflow' w).
  destruct Hw as [? ? Hq Hst Hso Hbe Hsto Hn]. split.
  - split; rewrite ?persisted_written; try done.
    + simpl. apply Forall_app. split; [done | by repeat constructor].
    + by rewrite removelast_last.
    + rewrite progress_values_app. unfold progress_values at 2. simpl.
      destruct progress as [p |].
      * unfold workflow'. rewrite updated_progress_Some. simpl.
        apply sorted_snoc; [done |]. eapply below_mono; [by apply Hb | done].
      * assert (progress_of workflow' = progress_of workflow) as ->.
        { unfold progress_of, workflow'. by rewrite updated_progress_None. }
        destruct (progress_of workflow) as [q |] eqn:Hq'; simpl;
          [| by rewrite app_nil_r].
        destruct (decide (persisted workflowId (log w) = [])) as [-> | Hne];
          [repeat constructor |].
        rewrite (Hsto Hne) in Hget. apply last_Some in Hget as [rs Hrs].
        rewrite Hrs, progress_values_app in Hso |- *.
        unfold progress_values at 2 in Hso. unfold progress_values at 2.
        simpl in *. rewrite Hq' in *. simpl in *.
        by apply sorted_snoc_again.
    + intros HN. apply Forall_app. split; [by apply Hn |].
      repeat constructor. unfold has_progress, workflow'.
      destruct progress as [p |]; [by rewrite updated_progress_Some |].
      unfold progress_of. rewrite updated_progress_None.
      by apply (proj2 (Hn HN)).
  - intros Hnf. unfold never_failed. rewrite persisted_written.
    apply Forall_app. split.
    + eapply Forall_impl; [exact Hst |]. intros r Hnt Hfail. apply Hnt. by right.
    + repeat constructor. unfold workflow'. rewrite updated_status. congruence.
Qed.

End Invariant.

(** ** The pipeline keeps the invariant *)

Section Pipeline.

Import WorkflowManager.
#[local] Open Scope Q_scope.

Variables (workflowId : string) (h : Hub) (o : Outside) (N : Prop).

#[local] Abbreviation running' := (running workflowId h o N).
#[local] Abbreviation step_post := (may_throw workflowId h o N).

Lemma running_emit (b : Q) (e : Effect) (w : World) :
  is_WsSend e = false → persisted workflowId [e] = [] →
  running' b w → running' b (emit e w).
Proof.
  intros He Hp [? ? Hq ? ? ? Hst ?].
  assert (persisted workflowId (log (emit e w)) = persisted workflowId (log w)) as Hl.
  { cbn [log emit]. by rewrite persisted_app, Hp, app_nil_r. }
  split; rewrite ?Hl; try done.
  cbn [log emit]. apply Forall_app. split; [done | by repeat constructor].
Qed.

Lemma running_called (b : Q) (w : World) : running' b w → running' b (called w).
Proof. by intros []. Qed.

Lemma sleep_keeps_running (b : Q) (ms : nat) :
  hoare (running' b) (sleep ms) (returns (running' b)).
Proof. intros w Hw. split; [by exists () |]. by apply running_emit. Qed.

Lemma progress_step (b p : Q) (name : string) (metrics : Q → option Json) (ms : nat) :
  b <= p →
  hoare (running' b)
        (updateWorkflowStatus workflowId "processing" (Some p) (Some name) (metrics p) ;;
         sleep ms)
        (returns (running' p)).
Proof.
  intros Hb. eapply hoare_seq; [by apply update_keeps_running |].
  intros _. apply sleep_keeps_running.
Qed.

Lemma progress_loop (b lo hi step : Q) (name : string) (metrics : Q → option Json)
    (ms : nat) :
  0 <= step → b <= lo → b <= hi →
  hoare (running' b)
        (for_progress lo hi step (fun progress =>
           updateWorkflowStatus workflowId "processing" (Some progress) (Some name)
                                (metrics progress) ;;
           sleep ms))
        (returns (running' hi)).
Proof.
  intros Hs Hlo Hhi. unfold for_progress.
  apply (hoare_for_upto running'); try done.
  - intros ? ? ?. apply running_mono.
  - intros b' p Hb' _. by apply progress_step.
Qed.

Lemma createVisualization_step (b : Q) (simulationResults : Json) :
  b <= 100 →
  hoare (running' b) (createVisualization simulationResults)
        (fun r w => match r with
                    | Normal _ => running' b w
                    | Thrown e => step_post b (Thrown e) w
                    end).
Proof.
  intros Hb w Hw. unfold createVisualization.
  destruct (visualization (outside w) (calls w)) as [e | v] eqn:Hv; simpl.
  - split; [by apply (running_mono _ _ _ _ b), running_called |].
    exists (calls w). left. by rewrite <- (running_outside _ _ _ _ _ _ Hw).
  - by apply running_called.
Qed.

Lemma put_results_step (b : Q) (results : JsObject) :
  b <= 100 →
  hoare (running' b) (kv_put Results workflowId results)
        (fun r w => match r with
                    | Normal _ => running' b w
                    | Thrown e => step_post b (Thrown e) w
                    end).
Proof.
  intros Hb w Hw. unfold kv_put.
  destruct (kv_fault (outside w) Results (calls w)) as [e |] eqn:Hf; simpl.
  - split; [by apply (running_mono _ _ _ _ b), running_called |].
    exists (calls w). right. by rewrite <- (running_outside _ _ _ _ _ _ Hw).
  - apply running_emit; [done | done |].
    destruct Hw as [? ? ? ? ? ? Hst ?]. by split.
Qed.

Lemma generateResultsAndVisualization_step (b : Q) request useCase :
  b <= 90 →
  hoare (running' b) (generateResultsAndVisualization workflowId request useCase)
        (step_post 100).
Proof.
  intros Hb. unfold generateResultsAndVisualization.
  eapply hoare_seq; [by apply update_keeps_running |]. intros _.
  eapply hoare_seq with (R := running' 90); [by intros w Hw; split; [eexists |] |].
  intros simulationResults.
  eapply hoare_seq; [apply (update_keeps_running _ _ _ _ 90 95); done |]. intros _.
  eapply hoare_bind; [apply (createVisualization_step 95); lra |].
  intros visualization.
  eapply hoare_seq with (R := running' 95); [by intros w Hw; split; [eexists |] |].
  intros analysis.
  eapply hoare_bind; [apply (put_results_step 95); lra |]. intros ?.
  eapply hoare_conseq;
    [apply (update_keeps_running workflowId h o N 95 100); (done || lra) | |].
  - intros w Hw. exact Hw.
  - intros r w [[u Hr] Hw]. by rewrite Hr.
Qed.

(** The [try] block: it ends with the record completed, or throws a step
    fault with the invariant intact. *)
Lemma pipeline_spec (b : Q) request useCase :
  b <= 10 →
  hoare (running' b) (pipeline workflowId request useCase)
        (fun r w =>
           match r with
           | Normal _ => finished workflowId h o N w ∧ never_failed workflowId w
           | Thrown e => running' 100 w ∧ step_fault o e
           end).
Proof.
  intros Hb. unfold pipeline.
  eapply hoare_seq; [by apply update_keeps_running |]. intros _.
  eapply hoare_seq;
    [apply (progress_loop 10 10 30 5 "problem_analysis" (fun _ => None)); lra |].
  intros _.
  eapply hoare_seq;
    [apply (progress_loop 30 30 50 5 "mesh_generation" (fun _ => None)); lra |].
  intros _.
  eapply hoare_seq;
    [apply (progress_loop 50 50 80 2 "pinn_training"
                          (fun p => Some (training_metrics p))); lra |].
  intros _.
  eapply hoare_seq;
    [apply (progress_loop 80 80 90 2 "model_validation" (fun _ => None)); lra |].
  intros _.
  eapply hoare_bind; [apply (generateResultsAndVisualization_step 90); lra |].
  intros ?.
  eapply hoare_conseq; [apply (update_finishes workflowId h o N 100) | |].
  - intros p [= <-]. lra.
  - intros w Hw. exact Hw.
  - intros r w [[u Hr] [Hf Hn]]. rewrite Hr. split; [done | by apply Hn].
Qed.

(** [processWorkflow]: whatever the store and the steps do, the run is
    [finished]; it comes back normally without ever writing a failed record,
    or it rethrows a step fault. *)
Lemma processWorkflow_spec (b : Q) request useCase :
  b <= 10 →
  hoare (running' b) (processWorkflow workflowId request useCase)
        (fun r w =>
           finished workflowId h o N w
           ∧ match r with
             | Normal _ => never_failed workflowId w
             | Thrown e => step_fault o e
             end).
Proof.
  intros Hb. unfold processWorkflow.
  eapply hoare_try_catch with (R := fun e w => running' 100 w ∧ step_fault o e).
  - eapply hoare_conseq; [by apply (pipeline_spec b) | done |].
    by intros [a | e] w.
  - intros e.
    eapply hoare_bind with (R := fun _ w => finished workflowId h o N w ∧ step_fault o e).
    + intros w [Hw Hsf].
      destruct (update_finishes workflowId h o N 100 "failed" None
                  (Some ("error: " ++ e)) None ltac:(done) w Hw) as [[a Hr] [Hfin _]].
      by rewrite Hr.
    + intros _ w [Hfin Hsf]. by split.
Qed.

End Pipeline.

(** ** Runs observed from their start *)

Section Runs.

Import WorkflowManager.
#[local] Open Scope Q_scope.

Variable workflowId : string.

(** Before the first write of a run the invariant holds for any bound. *)
Lemma running_start (N : Prop) (b : Q) (w : World) :
  log w = [] →
  (N → ∀ workflow, stored w workflowId = Some workflow → has_progress workflow) →
  running workflowId (hub w) (outside w) N b w.
Proof.
  intros Hl HN. split; rewrite ?Hl; try done; try by constructor.
  intros HN'. split; [by constructor | by apply HN].
Qed.

Lemma finished_start (N : Prop) (w : World) :
  log w = [] → finished workflowId (hub w) (outside w) N w.
Proof. intros Hl. split; rewrite ?Hl; try done; by constructor. Qed.

Lemma finished_called h o N (w : World) :
  finished workflowId h o N w → finished workflowId h o N (called w).
Proof. by intros []. Qed.

Lemma initial_workflow_progress request useCase created_at updated_at :
  progress_of (initial_workflow workflowId request useCase created_at updated_at)
  = Some 0.
Proof.
  unfold progress_of, initial_workflow, object_literal. simpl.
  repeat first
    [ rewrite lookup_insert_ne by done
    | match goal with
      | |- context [match ?x with Some _ => _ | None => _ end !! "progress"] => destruct x
      end ].
  all: by rewrite lookup_insert_eq.
Qed.

Lemma initial_workflow_status request useCase created_at updated_at :
  status_of (initial_workflow workflowId request useCase created_at updated_at)
  = Some "initiated".
Proof.
  unfold status_of, initial_workflow, object_literal. simpl.
  repeat first
    [ rewrite lookup_insert_ne by done
    | match goal with
      | |- context [match ?x with Some _ => _ | None => _ end !! "status"] => destruct x
      end ].
  all: by rewrite lookup_insert_eq.
Qed.

End Runs.

(** ** The handler that creates a workflow *)

Section Handler.

Import WorkflowManager.
#[local] Open Scope Q_scope.

Variables (workflowId : string) (h : Hub) (o : Outside).

Lemma idle_finished (w : World) :
  idle workflowId h o w → finished workflowId h o True w.
Proof.
  intros (? & ? & ? & Hp). split; rewrite ?Hp; try done; by constructor.
Qed.

Lemma idle_called (w : World) : idle workflowId h o w → idle workflowId h o (called w).
Proof. by intros (? & ? & ? & ?). Qed.

Lemma put_use_case_idle (useCase : JsObject) :
  hoare (idle workflowId h o) (kv_put UseCases workflowId useCase)
        (fun _ w => idle workflowId h o w).
Proof.
  intros w Hw. unfold kv_put.
  destruct (kv_fault (outside w) UseCases (calls w)); simpl; [by apply idle_called |].
  destruct Hw as (? & ? & Hq & Hp). repeat split; try done.
  - cbn [log emit store with_kv called]. apply Forall_app. split; [done | by repeat constructor].
  - cbn [log emit store with_kv called]. by rewrite persisted_app, Hp.
Qed.

Lemma put_initial_running (workflow : JsObject) :
  progress_of workflow = Some 0 → status_of workflow = Some "initiated" →
  hoare (idle workflowId h o) (kv_put Workflows workflowId workflow)
        (fun r w => match r with
                    | Normal _ => running workflowId h o True 0 w
                    | Thrown _ => idle workflowId h o w
                    end).
Proof.
  intros Hp Hs w Hw. unfold kv_put.
  destruct (kv_fault (outside w) Workflows (calls w)); simpl; [by apply idle_called |].
  destruct Hw as (? & ? & Hq & Hr).
  assert (persisted workflowId
            (log (emit (KvPut Workflows workflowId workflow)
                       (store Workflows workflowId workflow (called w)))) = [workflow])
    as Hl.
  { cbn [log emit store with_kv called]. by rewrite persisted_app, Hr, persisted_put. }
  split; rewrite ?Hl; try done.
  - cbn [log emit store with_kv called]. apply Forall_app. split; [done | by repeat constructor].
  - repeat constructor. unfold terminal. rewrite Hs. intros [[=] | [=]].
  - unfold progress_values. simpl. rewrite Hp. repeat constructor.
  - unfold progress_values. simpl. rewrite Hp. repeat constructor. lra.
  - intros _. unfold stored. simpl. apply lookup_insert_eq.
  - intros _. split.
    + repeat constructor. unfold has_progress. by rewrite Hp.
    + intros workflow'. unfold stored. simpl. rewrite lookup_insert_eq.
      intros [= <-]. unfold has_progress. by rewrite Hp.
Qed.

Lemma post_simulations_spec request useCase :
  hoare (idle workflowId h o) (post_simulations request workflowId useCase)
        (fun _ w => finished workflowId h o True w).
Proof.
  unfold post_simulations.
  apply hoare_try_catch with (R := fun _ w => finished workflowId h o True w).
  2: { intros e w Hw. exact Hw. }
  eapply hoare_bind with (R := fun _ => idle workflowId h o).
  { eapply hoare_conseq; [apply put_use_case_idle | done |].
    intros [a | e] w Hw; [done | by apply idle_finished]. }
  intros _.
  eapply hoare_seq with (R := idle workflowId h o).
  { intros w Hw. split; [by eexists | by apply idle_called]. }
  intros created_at.
  eapply hoare_seq with (R := idle workflowId h o).
  { intros w Hw. split; [by eexists | by apply idle_called]. }
  intros updated_at.
  eapply hoare_bind with (R := fun _ => running workflowId h o True 0).
  { eapply hoare_conseq;
      [apply put_initial_running;
       [apply initial_workflow_progress | apply initial_workflow_status] | done |].
    intros [a | e] w Hw; [done | by apply idle_finished]. }
  intros _.
  eapply hoare_bind with (R := fun _ => finished workflowId h o True).
  { eapply hoare_conseq;
      [apply (processWorkflow_spec workflowId h o True 0); lra | |].
    - intros w Hw. exact Hw.
    - intros [a | e] w [Hw _]; done. }
  intros _.
  eapply hoare_seq with (R := finished workflowId h o True).
  { intros w Hw. split; [by eexists | by apply finished_called]. }
  intros now w Hw. exact Hw.
Qed.

End Handler.

(** C4: in a run of the handler, the progress values of the records written
    for the workflow, from the initial record to the terminal one, are all
    present and non-decreasing, whatever the store and the steps do. *)
Theorem C4_progress_non_decreasing (w : World) (request useCase : JsObject)
    (workflowId : string) :
  Forall has_progress
         (persisted workflowId (effects (post_simulations request workflowId useCase) w))
  ∧ StronglySorted Qle
      (progress_values
         (persisted workflowId
            (effects (post_simulations request workflowId useCase) w))).
Proof.
  pose proof (post_simulations_spec workflowId (hub w) (outside w) request useCase
                (clear_log w)) as H.
  destruct H as [_ _ _ _ Hs Hn]; [repeat split; by constructor |].
  split; [by apply Hn | exact Hs].
Qed.

(** ** Terminal records *)

(** C7, as the code has it: in a run of [processWorkflow], whatever the
    store and the steps do, no record written before the last one is
    terminal: the update that marks the workflow completed or failed is the
    last write of the run. *)
Theorem C7_terminal_write_is_last (w : World) (workflowId : string)
    (request useCase : JsObject) :
  Forall (fun workflow => ¬ terminal workflow)
         (removelast
            (persisted workflowId
               (effects (WorkflowManager.processWorkflow workflowId request useCase) w))).
Proof.
  pose proof (processWorkflow_spec workflowId (hub w) (outside w) False 0
                request useCase ltac:(done) (clear_log w)) as H.
  destruct H as [[_ _ _ Hs _ _] _];
    [by apply (running_start workflowId False 0 (clear_log w)) | exact Hs].
Qed.

(** C7, as stated, fails: [updateWorkflowStatus] has no guard on the stored
    status, and an update of a completed record overwrites it. *)
Lemma C7_counterexample_completed_overwritten :
  stored_field (world_of calm no_sessions {["wf-1" := wf1_completed]})
               "wf-1" "status" = Some (JStr "completed")
  ∧ stored_field
      (WorkflowManager.updateWorkflowStatus
         "wf-1" "processing" (Some 10%Q) (Some "initializing") None
         (world_of calm no_sessions {["wf-1" := wf1_completed]})).1
      "wf-1" "status" = Some (JStr "processing")
  ∧ stored_field
      (WorkflowManager.updateWorkflowStatus
         "wf-1" "processing" (Some 10%Q) (Some "initializing") None
         (world_of calm no_sessions {["wf-1" := wf1_completed]})).1
      "wf-1" "progress" = Some (JNum 10).
Proof. evaluate. Qed.

(** ** Store faults *)

(** C10: [updateWorkflowStatus] never throws; without a record for the id it
    leaves the three namespaces as they are and at most logs to the console;
    and when no step fault is possible, [processWorkflow] returns normally
    and never writes a failed record, whatever the workflow store does. *)
Theorem C10_store_faults_are_contained (w : World) (workflowId status : string)
    (progress : option Q) (step : option string) (metrics : option Json)
    (request useCase : JsObject) :
  (WorkflowManager.updateWorkflowStatus workflowId status progress step metrics w).2
  = Normal tt
  ∧ (stored w workflowId = None →
     kv (WorkflowManager.updateWorkflowStatus
           workflowId status progress step metrics w).1 = kv w
     ∧ ∃ es, log (WorkflowManager.updateWorkflowStatus
                     workflowId status progress step metrics w).1 = (log w ++ es)%list
             ∧ Forall (fun e => is_ConsoleError e = true) es)
  ∧ ((∀ e, ¬ step_fault (outside w) e) →
     (WorkflowManager.processWorkflow workflowId request useCase (clear_log w)).2
     = Normal tt
     ∧ Forall (fun workflow => status_of workflow ≠ Some "failed")
              (persisted workflowId
                 (effects (WorkflowManager.processWorkflow
                             workflowId request useCase) w))).
Proof.
  split; [apply updateWorkflowStatus_never_throws |]. split.
  - intros Hnone.
    destruct (updateWorkflowStatus_cases workflowId status progress step metrics w)
      as [_ [(workflow & Hget & _) | (_ & n & es & Hs & Hes)]]; [congruence |].
    simpl in Hs. rewrite Hs. split; [done | by exists es].
  - intros Hno.
    pose proof (processWorkflow_spec workflowId (hub w) (outside w) False 0
                  request useCase ltac:(done) (clear_log w)
                  (running_start workflowId False 0 (clear_log w)
                                 eq_refl ltac:(done))) as H.
    unfold effects.
    destruct (WorkflowManager.processWorkflow workflowId request useCase (clear_log w))
      as [w' [[] | e]]; simpl in *.
    + by destruct H as [_ Hn].
    + destruct H as [_ Hn]. by apply Hno in Hn.
Qed.

Lemma C10_store_faults_are_contained_witness :
  (kv (WorkflowManager.updateWorkflowStatus
         "wf-9" "processing" (Some 10%Q) (Some "initializing") None
         (world_of calm no_sessions ∅)).1 = kv (world_of calm no_sessions ∅)
   ∧ ∃ es, log (WorkflowManager.updateWorkflowStatus
                  "wf-9" "processing" (Some 10%Q) (Some "initializing") None
                  (world_of calm no_sessions ∅)).1
           = (log (world_of calm no_sessions ∅) ++ es)%list
           ∧ Forall (fun e => is_ConsoleError e = true) es)
  ∧ ((WorkflowManager.processWorkflow
        "wf-1" heat_request ∅
        (clear_log (world_of flaky_store no_sessions {["wf-1" := wf1_initiated]}))).2
     = Normal tt
     ∧ Forall (fun workflow => status_of workflow ≠ Some "failed")
              (persisted "wf-1"
                 (effects (WorkflowManager.processWorkflow "wf-1" heat_request ∅)
                          (world_of flaky_store no_sessions
                                    {["wf-1" := wf1_initiated]})))).
Proof.
  split.
  - exact (proj1 (proj2 (C10_store_faults_are_contained
                           (world_of calm no_sessions ∅) "wf-9" "processing"
                           (Some 10%Q) (Some "initializing") None ∅ ∅))
                 eq_refl).
  - refine (proj2 (proj2 (C10_store_faults_are_contained
                            (world_of flaky_store no_sessions
                                      {["wf-1" := wf1_initiated]})
                            "wf-1" "processing" None None None heat_request ∅))
                  _).
    intros e [n [H | H]]; discriminate H.
Defined.

(** ** Nothing is handed to the sockets *)

Section Silence.

Import WorkflowManager WebSocketManager.

Lemma received_app socket (l1 l2 : list Effect) :
  received socket (l1 ++ l2) = (received socket l1 ++ received socket l2)%list.
Proof. apply omap_app. Qed.

Lemma received_silent socket (l : list Effect) :
  Forall (fun e => is_WsSend e = false) l → received socket l = [].
Proof.
  induction 1 as [| e l He _ IH]; [done |]. by destruct e.
Qed.

Lemma console_silent (es : list Effect) :
  Forall (fun e => is_ConsoleError e = true) es →
  Forall (fun e => is_WsSend e = false) es.
Proof. intros H. eapply Forall_impl; [exact H |]. by intros []. Qed.

End Silence.

(** C1, as the code has it: [updateWorkflowStatus] computes the new record
    and writes it with [put] when the read succeeded; it leaves the Durable
    Object as it is and hands no message to any socket, whether the write
    succeeds or fails; and a whole run of the handler sends nothing
    either. *)
Theorem C1_transitions_are_stored_not_broadcast (w : World)
    (workflowId status : string) (progress : option Q) (step : option string)
    (metrics : option Json) (request useCase : JsObject) :
  hub (WorkflowManager.updateWorkflowStatus
         workflowId status progress step metrics w).1 = hub w
  ∧ (∀ socket,
       WebSocketManager.received socket
         (log (WorkflowManager.updateWorkflowStatus
                 workflowId status progress step metrics w).1)
       = WebSocketManager.received socket (log w))
  ∧ (∀ workflow,
       stored w workflowId = Some workflow →
       kv_fault (outside w) Workflows (calls w) = None →
       kv_fault (outside w) Workflows (S (S (calls w))) = None →
       (WorkflowManager.updateWorkflowStatus
          workflowId status progress step metrics w).1
       = written workflowId
                 (WorkflowManager.updated workflow status
                    (toISOString (outside w) (S (calls w))) progress step metrics)
                 w)
  ∧ Forall (fun e => is_WsSend e = false)
           (effects (post_simulations request workflowId useCase) w).
Proof.
  destruct (updateWorkflowStatus_cases workflowId status progress step metrics w)
    as [_ [(workflow & Hget & Hf1 & Hf2 & Hs) | (Hwhy & n & es & Hs & Hes)]];
    simpl in Hs; rewrite Hs.
  - split; [done |]. split.
    { intros socket. cbn [log emit store with_kv called].
      by rewrite received_app, app_nil_r. }
    split.
    { intros workflow' Hget' _ _. rewrite Hget in Hget'. by injection Hget' as <-. }
    apply (post_simulations_spec workflowId (hub w) (outside w) request useCase
             (clear_log w)).
    repeat split; by constructor.
  - split; [done |]. split.
    { intros socket. cbn [log logged].
      by rewrite received_app, (received_silent _ es (console_silent es Hes)), app_nil_r. }
    split.
    { intros workflow Hget Hf1 Hf2. destruct Hwhy as [Hn | [[e He] | [e He]]]; congruence. }
    apply (post_simulations_spec workflowId (hub w) (outside w) request useCase
             (clear_log w)).
    repeat split; by constructor.
Qed.

Lemma C1_transitions_are_stored_not_broadcast_witness :
  (WorkflowManager.updateWorkflowStatus
     "wf-1" "processing" (Some 10%Q) (Some "initializing") None
     (world_of calm one_subscriber {["wf-1" := wf1_initiated]})).1
  = written "wf-1"
            (WorkflowManager.updated wf1_initiated "processing"
               "2024-01-15T10:30:00.000Z" (Some 10%Q) (Some "initializing") None)
            (world_of calm one_subscriber {["wf-1" := wf1_initiated]}).
Proof.
  exact (proj1 (proj2 (proj2 (C1_transitions_are_stored_not_broadcast
                                (world_of calm one_subscriber
                                          {["wf-1" := wf1_initiated]})
                                "wf-1" "processing" (Some 10%Q)
                                (Some "initializing") None ∅ ∅)))
               wf1_initiated eq_refl eq_refl eq_refl).
Defined.

(** C1, as stated, fails in its "if" direction: with a session connected
    for the workflow on an open socket, an update whose write succeeds
    reaches the store and the session receives nothing. *)
Lemma C1_counterexample_stored_but_silent :
  stored_field
    (WorkflowManager.updateWorkflowStatus
       "wf-1" "processing" (Some 10%Q) (Some "initializing") None
       (world_of calm one_subscriber {["wf-1" := wf1_initiated]})).1
    "wf-1" "progress" = Some (JNum 10)
  ∧ length (persisted "wf-1"
              (log (WorkflowManager.updateWorkflowStatus
                      "wf-1" "processing" (Some 10%Q) (Some "initializing") None
                      (world_of calm one_subscriber {["wf-1" := wf1_initiated]})).1))
    = 1%nat
  ∧ WebSocketManager.received 7
      (log (WorkflowManager.updateWorkflowStatus
              "wf-1" "processing" (Some 10%Q) (Some "initializing") None
              (world_of calm one_subscriber {["wf-1" := wf1_initiated]})).1)
    = [].
Proof. evaluate. Qed.

(** ** A step fault *)

Section Faults.

Import WorkflowManager.

Variables (workflow : JsObject) (status timestamp : string) (progress : option Q)
          (metrics : option Json).

Lemma updated_current_step (s : string) :
  updated workflow status timestamp progress (Some s) metrics !! "current_step"
  = Some (JStr s).
Proof.
  unfold updated. rewrite lookup_insert_ne by done.
  destruct metrics; [rewrite lookup_insert_ne by done |]; by rewrite lookup_insert_eq.
Qed.

Lemma updated_other (step : option string) (field : string) :
  field ≠ "status" → field ≠ "updated_at" → field ≠ "progress" →
  field ≠ "current_step" → field ≠ "metrics" → field ≠ "estimated_remaining_time" →
  updated workflow status timestamp progress step metrics !! field = workflow !! field.
Proof.
  intros. unfold updated. rewrite lookup_insert_ne by done.
  destruct metrics; [rewrite lookup_insert_ne by done |];
    (destruct step; [rewrite lookup_insert_ne by done |]);
    (destruct progress; [rewrite lookup_insert_ne by done |]);
    by rewrite !lookup_insert_ne by done.
Qed.

End Faults.

(** C3, as the code has it: when the [try] block of [processWorkflow]
    throws [msg], the run makes one more update,
    [updateWorkflowStatus(id, 'failed', null, 'error: ' + msg)], and rethrows
    [msg]; nothing is sent to any socket and the Durable Object is
    untouched; and when that update reads and writes the store, the stored
    record gets status [failed], the text ['error: ' + msg] in
    [current_step] (its [errorMessage] property is left as it was), remaining
    time 0, and keeps the progress it had. *)
Theorem C3_fault_marks_failed (w w1 : World) (workflowId msg : string)
    (request useCase : JsObject) :
  WorkflowManager.pipeline workflowId request useCase (clear_log w)
  = (w1, Thrown msg) →
  (WorkflowManager.processWorkflow workflowId request useCase (clear_log w)).2
  = Thrown msg
  ∧ (WorkflowManager.processWorkflow workflowId request useCase (clear_log w)).1
    = (WorkflowManager.updateWorkflowStatus
         workflowId "failed" None (Some ("error: " ++ msg)) None w1).1
  ∧ hub (WorkflowManager.processWorkflow workflowId request useCase (clear_log w)).1
    = hub w
  ∧ Forall (fun e => is_WsSend e = false)
           (effects (WorkflowManager.processWorkflow workflowId request useCase) w)
  ∧ (∀ workflow,
       stored w1 workflowId = Some workflow →
       kv_fault (outside w1) Workflows (calls w1) = None →
       kv_fault (outside w1) Workflows (S (S (calls w1))) = None →
       ∃ workflow',
         stored (WorkflowManager.processWorkflow
                   workflowId request useCase (clear_log w)).1 workflowId
         = Some workflow'
         ∧ workflow' !! "status" = Some (JStr "failed")
         ∧ workflow' !! "current_step" = Some (JStr ("error: " ++ msg))
         ∧ workflow' !! "progress" = workflow !! "progress"
         ∧ workflow' !! "estimated_remaining_time" = Some (JNum 0)
         ∧ workflow' !! "errorMessage" = workflow !! "errorMessage").
Proof.
  intros Hp.
  pose proof (processWorkflow_spec workflowId (hub w) (outside w) False 0
                request useCase ltac:(done) (clear_log w)
                (running_start workflowId False 0 (clear_log w)
                               eq_refl ltac:(done))) as [Hfin _].
  assert (WorkflowManager.processWorkflow workflowId request useCase (clear_log w)
          = ((WorkflowManager.updateWorkflowStatus
                workflowId "failed" None (Some ("error: " ++ msg)) None w1).1,
             Thrown msg)) as Hrun.
  { unfold WorkflowManager.processWorkflow, try_catch. rewrite Hp.
    unfold bind, throw.
    pose proof (updateWorkflowStatus_never_throws
                  workflowId "failed" None (Some ("error: " ++ msg)) None w1) as Hn.
    destruct (WorkflowManager.updateWorkflowStatus _ _ _ _ _ w1) as [w2 r].
    simpl in *. by rewrite Hn. }
  unfold effects. rewrite Hrun in *. simpl.
  split; [done |]. split; [done |].
  split; [exact (finished_hub _ _ _ _ _ Hfin) |].
  split; [exact (finished_silent _ _ _ _ _ Hfin) |].
  intros workflow Hget Hf1 Hf2.
  destruct (updateWorkflowStatus_cases
              workflowId "failed" None (Some ("error: " ++ msg)) None w1)
    as [_ [(workflow0 & Hget0 & _ & _ & Hs) | (Hwhy & _)]].
  2: { destruct Hwhy as [Hn | [[e He] | [e He]]]; congruence. }
  simpl in Hs. rewrite Hs. rewrite Hget in Hget0. injection Hget0 as <-.
  eexists. split; [apply (stored_written workflowId) |].
  split.
  { pose proof (updated_status workflow "failed"
                  (toISOString (outside w1) (S (calls w1)))
                  (Some ("error: " ++ msg)) None None) as Hst.
    unfold status_of in Hst.
    destruct (WorkflowManager.updated _ _ _ _ _ _ !! "status") as [[] |];
      congruence. }
  split; [apply updated_current_step |].
  split; [apply updated_progress_None |].
  split; [apply updated_estimate |].
  by apply updated_other.
Qed.

Lemma C3_fault_marks_failed_witness :
  ∃ workflow',
    stored (WorkflowManager.processWorkflow
              "wf-1" heat_request ∅ (clear_log faulty_world)).1 "wf-1"
    = Some workflow'
    ∧ workflow' !! "status" = Some (JStr "failed")
    ∧ workflow' !! "current_step" = Some (JStr ("error: " ++ "WebGL data missing"))
    ∧ workflow' !! "progress"
      = default ∅ (stored faulty_world_at_fault "wf-1") !! "progress"
    ∧ workflow' !! "estimated_remaining_time" = Some (JNum 0)
    ∧ workflow' !! "errorMessage"
      = default ∅ (stored faulty_world_at_fault "wf-1") !! "errorMessage".
Proof.
  assert ((WorkflowManager.pipeline "wf-1" heat_request ∅ (clear_log faulty_world)).2
          = Thrown "WebGL data missing") as Hthrown by (vm_compute; reflexivity).
  assert (is_Some (stored faulty_world_at_fault "wf-1")) as Hstored.
  { apply (bool_decide_unpack _). vm_compute. reflexivity. }
  refine (proj2 (proj2 (proj2 (proj2
            (C3_fault_marks_failed faulty_world faulty_world_at_fault
               "wf-1" "WebGL data missing" heat_request ∅ _))))
            (default ∅ (stored faulty_world_at_fault "wf-1")) _ eq_refl eq_refl).
  - unfold faulty_world_at_fault.
    destruct (WorkflowManager.pipeline "wf-1" heat_request ∅ (clear_log faulty_world))
      as [w1 r]. simpl in Hthrown |- *. by rewrite Hthrown.
  - destruct Hstored as [workflow Hworkflow]. by rewrite Hworkflow.
Defined.

(** C3, as stated, fails: after the fault the record is failed with its
    progress kept at 95, but it has no [errorMessage] property (the text is
    in [current_step]) and the session connected for the workflow on its
    open socket has received no message at all. *)
Lemma C3_counterexample_no_terminal_message :
  (WorkflowManager.processWorkflow "wf-1" heat_request ∅ faulty_world).2
  = Thrown "WebGL data missing"
  ∧ stored_field (WorkflowManager.processWorkflow "wf-1" heat_request ∅ faulty_world).1
                 "wf-1" "status" = Some (JStr "failed")
  ∧ stored_field (WorkflowManager.processWorkflow "wf-1" heat_request ∅ faulty_world).1
                 "wf-1" "progress" = Some (JNum 95)
  ∧ stored_field (WorkflowManager.processWorkflow "wf-1" heat_request ∅ faulty_world).1
                 "wf-1" "current_step" = Some (JStr "error: WebGL data missing")
  ∧ stored_field (WorkflowManager.processWorkflow "wf-1" heat_request ∅ faulty_world).1
                 "wf-1" "errorMessage" = None
  ∧ WebSocketManager.received 7
      (log (WorkflowManager.processWorkflow "wf-1" heat_request ∅ faulty_world).1)
    = [].
Proof. evaluate. Qed.

(** ** [sendMessage] and [broadcastToWorkflow] *)

Section Sending.

Import WebSocketManager.

Lemma sendMessage_open (socket : nat) (message : JsObject) (w : World) :
  socket ∈ open_sockets (hub w) →
  sendMessage socket message w
  = (emit (WsSend socket (stamp (toISOString (outside w) (calls w)) message))
          (called w), Normal tt).
Proof.
  intros Hopen. unfold sendMessage, try_catch, bind, new_Date, ws_send. simpl.
  by rewrite bool_decide_true.
Qed.

Lemma sendMessage_closed (socket : nat) (message : JsObject) (w : World) :
  socket ∉ open_sockets (hub w) →
  sendMessage socket message w
  = (emit (ConsoleError "Failed to send WebSocket message:" "WebSocket is not open")
          (called w), Normal tt).
Proof.
  intros Hclosed. unfold sendMessage, try_catch, bind, new_Date, ws_send. simpl.
  by rewrite bool_decide_false.
Qed.

(** One [sendMessage]: it never throws, touches neither the Durable Object
    nor the store, and leaves one entry in the log. *)
Lemma sendMessage_spec (socket : nat) (message : JsObject) (w : World) :
  ∃ e, sendMessage socket message w = (emit e (called w), Normal tt)
       ∧ attempt (open_sockets (hub w)) message socket e.
Proof.
  unfold attempt. destruct (decide (socket ∈ open_sockets (hub w))) as [Hin | Hout].
  - rewrite bool_decide_true by done. eexists. split; [by apply sendMessage_open |].
    by eexists.
  - rewrite bool_decide_false by done. eexists.
    split; [by apply sendMessage_closed | done].
Qed.

Lemma subscribers_cons (workflowId' : option string) (sessionId : string)
    (session : Session) (entries : list (string * Session)) :
  subscribers workflowId' ((sessionId, session) :: entries)
  = if bool_decide (workflowId session = workflowId')
    then webSocket session :: subscribers workflowId' entries
    else subscribers workflowId' entries.
Proof.
  unfold subscribers. simpl.
  by destruct (bool_decide (workflowId session = workflowId')).
Qed.

(** The loop of [broadcastToWorkflow]: one attempt per session registered
    for the id, in registry order, and nothing else. *)
Lemma broadcast_loop_spec (workflowId' : option string) (message : JsObject)
    (entries : list (string * Session)) (w : World) :
  ∃ es,
    broadcast_loop entries workflowId' message w
    = (logged (length es) es w, Normal tt)
    ∧ Forall2 (attempt (open_sockets (hub w)) message)
              (subscribers workflowId' entries) es.
Proof.
  revert w. induction entries as [| [sessionId session] entries IH]; intros w.
  - exists []. split; [| constructor].
    unfold logged. simpl. rewrite app_nil_r. by destruct w.
  - cbn [broadcast_loop]. unfold bind. rewrite subscribers_cons.
    destruct (bool_decide (workflowId session = workflowId')) eqn:Hm.
    + destruct (sendMessage_spec (webSocket session) message w) as (e & -> & He).
      destruct (IH (emit e (called w))) as (es & -> & Hes).
      exists (e :: es). split.
      * unfold logged. cbn [length emit called kv hub calls log outside].
        rewrite <- app_assoc. simpl. by rewrite Nat.add_succ_r.
      * by constructor.
    + destruct (IH w) as (es & Hrun & Hes). unfold ret at 1. rewrite Hrun.
      by exists es.
Qed.

Lemma broadcastToWorkflow_spec (workflowId' : option string) (message : JsObject)
    (w : World) :
  ∃ es,
    broadcastToWorkflow workflowId' message w = (logged (length es) es w, Normal tt)
    ∧ Forall2 (attempt (open_sockets (hub w)) message)
              (subscribers workflowId' (sessions (hub w))) es.
Proof. apply broadcast_loop_spec. Qed.

(** A registered session with an open socket finds its message in the
    log of the attempts. *)
Lemma attempt_delivers (open : gset nat) (message : JsObject)
    (workflowId' : option string) (entries : list (string * Session))
    (es : list Effect) (sessionId : string) (session : Session) :
  Forall2 (attempt open message) (subscribers workflowId' entries) es →
  (sessionId, session) ∈ entries →
  workflowId session = workflowId' →
  webSocket session ∈ open →
  ∃ timestamp, WsSend (webSocket session) (stamp timestamp message) ∈ es.
Proof.
  intros Hes Hin Hwf Hopen.
  assert (webSocket session ∈ subscribers workflowId' entries) as Hsub.
  { unfold subscribers. apply list_elem_of_omap. exists (sessionId, session).
    split; [done |]. simpl. by rewrite bool_decide_true. }
  apply list_elem_of_lookup in Hsub as [i Hi].
  destruct (Forall2_lookup_l _ _ _ _ _ Hes Hi) as (e & He & Ha).
  unfold attempt in Ha. rewrite bool_decide_true in Ha by done.
  destruct Ha as [timestamp ->]. exists timestamp.
  apply list_elem_of_lookup. by exists i.
Qed.

End Sending.

(** ** The registry *)

Section Registry.

Import WebSocketManager.

Lemma Map_get_set (key : string) (value : Session) (m : list (string * Session)) :
  Map_get key (Map_set key value m) = Some value.
Proof.
  induction m as [| [k v] m IH]; simpl.
  - by rewrite String.eqb_refl.
  - destruct (String.eqb k key) eqn:Hk; simpl; by rewrite Hk.
Qed.

Lemma Map_get_delete (key : string) (m : list (string * Session)) :
  Map_get key (Map_delete key m) = None.
Proof.
  unfold Map_delete. induction m as [| [k v] m IH]; [done |].
  destruct (String.eqb k key) eqn:Hk.
  - rewrite filter_cons_False; [exact IH |]. simpl. rewrite Hk. simpl. tauto.
  - rewrite filter_cons_True; [| simpl; rewrite Hk; exact I]. simpl. by rewrite Hk.
Qed.

Lemma Map_delete_other (key sessionId : string) (session : Session)
    (m : list (string * Session)) :
  sessionId ≠ key → (sessionId, session) ∈ m → (sessionId, session) ∈ Map_delete key m.
Proof.
  intros Hne Hin. unfold Map_delete. apply list_elem_of_filter. split; [| done].
  simpl. destruct (String.eqb sessionId key) eqn:Hk; [| done].
  by apply String.eqb_eq in Hk.
Qed.

End Registry.

Lemma broadcast_effects (w : World) (workflowId' : option string)
    (message : JsObject) :
  Forall2 (attempt (open_sockets (hub w)) message)
          (subscribers workflowId' (sessions (hub w)))
          (effects (WebSocketManager.broadcastToWorkflow workflowId' message) w).
Proof.
  unfold effects.
  destruct (broadcastToWorkflow_spec workflowId' message (clear_log w))
    as (es & -> & Hes). done.
Qed.

(** C6: a publish makes one send attempt per session registered for
    exactly that workflow id, in registry order, and nothing else; the attempt
    puts the message (with the timestamp of the send) on the socket when the
    socket is open.  After any other session was removed from the registry,
    or any other socket was lost, a registered session with an open socket
    still gets the message. *)
Theorem C6_publish_reaches_its_group (w : World) (workflowId' : option string)
    (message : JsObject) :
  Forall2 (attempt (open_sockets (hub w)) message)
          (subscribers workflowId' (sessions (hub w)))
          (effects (WebSocketManager.broadcastToWorkflow workflowId' message) w)
  ∧ ∀ (sessionId : string) (session : Session),
      (sessionId, session) ∈ sessions (hub w) →
      workflowId session = workflowId' →
      webSocket session ∈ open_sockets (hub w) →
      (∀ gone, gone ≠ sessionId →
         ∃ timestamp,
           WsSend (webSocket session) (stamp timestamp message)
           ∈ effects (WebSocketManager.run
                        [WebSocketManager.OnClose gone;
                         WebSocketManager.Publish workflowId' message]) w)
      ∧ (∀ lost, lost ≠ webSocket session →
           ∃ timestamp,
             WsSend (webSocket session) (stamp timestamp message)
             ∈ effects (WebSocketManager.run
                          [WebSocketManager.Drop lost;
                           WebSocketManager.Publish workflowId' message]) w).
Proof.
  split; [apply broadcast_effects |].
  { intros sessionId session Hin Hwf Hopen. split.
    + intros gone Hne. unfold effects, WebSocketManager.run, bind. simpl.
      match goal with
      | |- context [WebSocketManager.broadcastToWorkflow _ _ ?w'] =>
          destruct (broadcastToWorkflow_spec workflowId' message w')
            as (es & -> & Hes)
      end.
      simpl in *.
      eapply attempt_delivers; [exact Hes | | done | done].
      by apply Map_delete_other.
    + intros lost Hne. unfold effects, WebSocketManager.run, bind. simpl.
      match goal with
      | |- context [WebSocketManager.broadcastToWorkflow _ _ ?w'] =>
          destruct (broadcastToWorkflow_spec workflowId' message w')
            as (es & -> & Hes)
      end.
      simpl in *.
      eapply attempt_delivers; [exact Hes | done | done |].
      set_solver. }
Qed.

Lemma C6_publish_reaches_its_group_witness :
  (∃ timestamp,
     WsSend 8 (stamp timestamp progress_message)
     ∈ effects (WebSocketManager.run
                  [WebSocketManager.OnClose "session_a";
                   WebSocketManager.Publish (Some "wf-1") progress_message])
               (world_of calm two_subscribers ∅))
  ∧ (∃ timestamp,
       WsSend 8 (stamp timestamp progress_message)
       ∈ effects (WebSocketManager.run
                    [WebSocketManager.Drop 7;
                     WebSocketManager.Publish (Some "wf-1") progress_message])
                 (world_of calm two_subscribers ∅)).
Proof.
  destruct (C6_publish_reaches_its_group
              (world_of calm two_subscribers ∅) (Some "wf-1") progress_message)
    as [_ H].
  destruct (H "session_b"
              {| webSocket := 8; workflowId := Some "wf-1";
                 connectedAt := "2024-01-15T10:28:30.000Z";
                 lastActivity := "2024-01-15T10:28:30.000Z";
                 subscriptions := None |}) as [Hclose Hdrop].
  - right. left.
  - reflexivity.
  - by vm_compute.
  - split; [by apply Hclose | by apply Hdrop].
Defined.




(** ** The order of the published messages *)

Section Ordering.

Import WebSocketManager.

Lemma unstamped_stamp (timestamp : string) (message : JsObject) :
  unstamped (stamp timestamp message) = unstamped message.
Proof. unfold unstamped, stamp. apply delete_insert_eq. Qed.

Lemma omap_head {A B} (f : A → option B) (x : A) (l : list A) :
  omap f (x :: l) = match f x with Some y => y :: omap f l | None => omap f l end.
Proof. done. Qed.

Lemma received_head (socket : nat) (e : Effect) (l : list Effect) :
  received socket (e :: l)
  = match e with
    | WsSend s m => if Nat.eqb s socket then m :: received socket l
                    else received socket l
    | _ => received socket l
    end.
Proof. unfold received. rewrite omap_head. destruct e; try done. by destruct (Nat.eqb _ _). Qed.

(** What one socket receives from the attempts of one publish. *)
Lemma attempts_received (open : gset nat) (message : JsObject) (socket : nat)
    (subs : list nat) (es : list Effect) :
  Forall2 (attempt open message) subs es → socket ∈ open →
  unstamped <$> received socket es
  = omap (fun s => if Nat.eqb s socket then Some (unstamped message) else None) subs.
Proof.
  intros Hes Hopen. induction Hes as [| s e subs es Ha _ IH]; [done |].
  unfold attempt in Ha. rewrite omap_head, received_head.
  destruct (decide (s ∈ open)) as [Hs | Hs].
  - rewrite bool_decide_true in Ha by done. destruct Ha as [timestamp ->].
    destruct (Nat.eqb s socket); [| exact IH].
    rewrite fmap_cons, unstamped_stamp. by f_equal.
  - rewrite bool_decide_false in Ha by done.
    assert (Nat.eqb s socket = false) as ->.
    { apply Nat.eqb_neq. intros ->. done. }
    by destruct e.
Qed.

Lemma subscribers_other (workflowId' : option string) (message : JsObject)
    (socket : nat) (entries : list (string * Session)) :
  socket ∉ registered_sockets entries →
  omap (fun s => if Nat.eqb s socket then Some message else None)
       (subscribers workflowId' entries) = [].
Proof.
  induction entries as [| [k v] entries IH]; [done |]. simpl.
  intros Hout. apply not_elem_of_cons in Hout as [Hne Hout].
  destruct (bool_decide (workflowId v = workflowId')); simpl; [| by apply IH].
  assert (Nat.eqb (webSocket v) socket = false) as ->.
  { apply Nat.eqb_neq. congruence. }
  by apply IH.
Qed.

Lemma subscribers_one (workflowId' : option string) (message : JsObject)
    (entries : list (string * Session)) (sessionId : string) (session : Session) :
  NoDup (registered_sockets entries) →
  (sessionId, session) ∈ entries →
  omap (fun s => if Nat.eqb s (webSocket session) then Some message else None)
       (subscribers workflowId' entries)
  = if bool_decide (workflowId session = workflowId') then [message] else [].
Proof.
  induction entries as [| [k v] entries IH]; intros Hnd Hin.
  { by apply elem_of_nil in Hin. }
  simpl in Hnd. apply NoDup_cons in Hnd as [Hfresh Hnd].
  apply elem_of_cons in Hin as [[= <- <-] | Hin]; simpl.
  - destruct (bool_decide (workflowId session = workflowId')); simpl.
    + rewrite Nat.eqb_refl. f_equal. by apply subscribers_other.
    + by apply subscribers_other.
  - assert (webSocket v ≠ webSocket session) as Hne.
    { intros Heq. apply Hfresh. rewrite Heq.
      unfold registered_sockets. apply list_elem_of_fmap.
      by exists (sessionId, session). }
    destruct (bool_decide (workflowId v = workflowId')); simpl; [| by apply IH].
    apply Nat.eqb_neq in Hne. rewrite Hne. by apply IH.
Qed.

(** A sequence of publishes, seen from one registered session with an open
    socket. *)
Lemma publishes_received (publications : list (option string * JsObject))
    (sessionId : string) (session : Session) :
  ∀ w,
    NoDup (registered_sockets (sessions (hub w))) →
    (sessionId, session) ∈ sessions (hub w) →
    webSocket session ∈ open_sockets (hub w) →
    unstamped <$> received (webSocket session) (log (run (publish_all publications) w).1)
    = ((unstamped <$> received (webSocket session) (log w))
       ++ (unstamped <$> published_for (workflowId session) publications))%list.
Proof.
  induction publications as [| [workflowId' message] publications IH];
    intros w Hnd Hin Hopen.
  { simpl. by rewrite app_nil_r. }
  simpl. unfold bind.
  destruct (broadcastToWorkflow_spec workflowId' message w) as (es & -> & Hes).
  rewrite IH by done. cbn [log logged].
  rewrite received_app, fmap_app, <- app_assoc. f_equal.
  rewrite (attempts_received _ _ _ _ _ Hes Hopen).
  rewrite (subscribers_one _ _ _ sessionId session Hnd Hin).
  destruct (decide (workflowId session = workflowId')) as [Heq | Hne].
  - rewrite !bool_decide_true by done. done.
  - rewrite !bool_decide_false by congruence. done.
Qed.

End Ordering.

(** C9, as the code has it: for every sequence of publishes, a registered
    session with an open socket receives exactly the messages published for
    its workflow id, in publication order (each with the timestamp of its
    send); so two such sessions of one workflow id receive the same
    sequence. *)
Theorem C9_published_order_is_kept (w : World)
    (publications : list (option string * JsObject))
    (sessionId : string) (session : Session) :
  NoDup (registered_sockets (sessions (hub w))) →
  (sessionId, session) ∈ sessions (hub w) →
  webSocket session ∈ open_sockets (hub w) →
  unstamped <$> WebSocketManager.received
                  (webSocket session)
                  (effects (WebSocketManager.run (publish_all publications)) w)
  = unstamped <$> published_for (workflowId session) publications
  ∧ ∀ (sessionId' : string) (session' : Session),
      (sessionId', session') ∈ sessions (hub w) →
      webSocket session' ∈ open_sockets (hub w) →
      workflowId session' = workflowId session →
      unstamped <$> WebSocketManager.received
                      (webSocket session')
                      (effects (WebSocketManager.run (publish_all publications)) w)
      = unstamped <$> WebSocketManager.received
                        (webSocket session)
                        (effects (WebSocketManager.run (publish_all publications)) w).
Proof.
  intros Hnd Hin Hopen.
  assert (∀ sid s, (sid, s) ∈ sessions (hub w) → webSocket s ∈ open_sockets (hub w) →
            unstamped <$> WebSocketManager.received
                            (webSocket s)
                            (effects (WebSocketManager.run (publish_all publications)) w)
            = unstamped <$> published_for (workflowId s) publications) as Hone.
  { intros sid s Hs Ho. unfold effects.
    by rewrite (publishes_received publications sid s (clear_log w)). }
  split; [by apply (Hone sessionId) |].
  intros sessionId' session' Hin' Hopen' Hwf.
  rewrite (Hone sessionId' session' Hin' Hopen'), (Hone sessionId session Hin Hopen).
  by rewrite Hwf.
Qed.

Lemma C9_published_order_is_kept_witness :
  unstamped <$> WebSocketManager.received
                  7 (effects (WebSocketManager.run
                                (publish_all [(Some "wf-1", progress_message);
                                              (Some "wf-2", other_message);
                                              (Some "wf-1", second_message)]))
                             (world_of calm two_subscribers ∅))
  = unstamped <$> published_for (Some "wf-1")
                    [(Some "wf-1", progress_message);
                     (Some "wf-2", other_message);
                     (Some "wf-1", second_message)].
Proof.
  apply (C9_published_order_is_kept
           (world_of calm two_subscribers ∅)
           [(Some "wf-1", progress_message); (Some "wf-2", other_message);
            (Some "wf-1", second_message)]
           "session_a"
           {| webSocket := 7; workflowId := Some "wf-1";
              connectedAt := "2024-01-15T10:28:00.000Z";
              lastActivity := "2024-01-15T10:28:00.000Z";
              subscriptions := None |}).
  - apply (bool_decide_unpack _). by vm_compute.
  - left.
  - by vm_compute.
Defined.

(** C9, as stated, fails: the [workflow_progress] messages a session
    receives come from its own interval and from [Math.random], not from the
    transitions of the orchestrator.  With no transition published at all,
    the session on socket 7 receives progress 80 and the session on socket 8,
    connected for the same workflow, receives progress 20; and one session
    alone receives 80 and then 20. *)
Lemma C9_counterexample_random_progress :
  omap payload_progress
       (WebSocketManager.received
          7 (effects (WebSocketManager.run
                        [WebSocketManager.Interval 0; WebSocketManager.Interval 1])
                     (world_of calm two_subscribers ∅)))
  = [80%Q]
  ∧ omap payload_progress
         (WebSocketManager.received
            8 (effects (WebSocketManager.run
                          [WebSocketManager.Interval 0; WebSocketManager.Interval 1])
                       (world_of calm two_subscribers ∅)))
    = [20%Q]
  ∧ omap payload_progress
         (WebSocketManager.received
            7 (effects (WebSocketManager.run
                          [WebSocketManager.Interval 0; WebSocketManager.Interval 0])
                       (world_of calm two_subscribers ∅)))
    = [80%Q; 20%Q].
Proof. evaluate. Qed.

(** ** A session that connects *)

Section Connecting.

Import WebSocketManager.

Lemma sendWorkflowStatus_is_a_mock (socket : nat) (workflowId' : option string)
    (w : World) :
  Forall (fun message => payload_field "status" message = Some (JStr "processing"))
         (received socket (effects (sendWorkflowStatus socket workflowId') w)).
Proof.
  unfold effects, sendWorkflowStatus, try_catch, bind, Math_random. simpl.
  match goal with
  | |- context [sendMessage socket ?m ?w'] =>
      destruct (sendMessage_spec socket m w') as (e & -> & He)
  end.
  cbn [log emit called clear_log app fst]. rewrite received_head.
  unfold attempt in He. cbn [hub called clear_log] in He.
  destruct (bool_decide (socket ∈ open_sockets (hub w))).
  - destruct He as [timestamp ->]. rewrite Nat.eqb_refl.
    by repeat constructor.
  - by destruct e.
Qed.

#[local] Arguments sendMessage : simpl never.

Lemma handleSession_connected (socket : nat) (workflowId' : option string)
    (w : World) :
  handleSession socket workflowId' w = (connected socket workflowId' w, Normal tt).
Proof.
  unfold handleSession, bind, ws_accept, generateSessionId, bind, Math_random,
    new_Date, startPeriodicUpdates, ret. simpl.
  rewrite sendMessage_open by (simpl; set_solver).
  reflexivity.
Qed.

End Connecting.

(** C2, as the code has it: [handleSession] registers the session under
    the workflow id, with its socket; it sends that socket one message,
    [connection_established] with the session id and the workflow id, and
    starts the interval of the session; it neither reads nor writes the
    store, so no snapshot of the stored record is sent; and the status a
    session gets on request is a mock whose status is always
    [processing]. *)
Theorem C2_connection_is_confirmed_without_snapshot (w : World) (socket : nat)
    (workflowId' : option string) :
  (WebSocketManager.handleSession socket workflowId' w).2 = Normal tt
  ∧ (∃ session,
       WebSocketManager.Map_get
         (new_session_id w)
         (sessions (hub (WebSocketManager.handleSession socket workflowId' w).1))
       = Some session
       ∧ webSocket session = socket ∧ workflowId session = workflowId')
  ∧ (∃ message,
       effects (WebSocketManager.handleSession socket workflowId') w
       = [WsSend socket message]
       ∧ message !! "type" = Some (JStr "connection_established")
       ∧ message !! "sessionId"
         = Some (JStr (new_session_id w))
       ∧ message !! "workflowId" = Some (WebSocketManager.nullable workflowId'))
  ∧ timers (hub (WebSocketManager.handleSession socket workflowId' w).1)
    !! next_timer (hub w)
    = Some (new_session_id w, workflowId')
  ∧ (∀ f, WebSocketManager.handleSession socket workflowId' (with_kv f w)
          = (with_kv f (WebSocketManager.handleSession socket workflowId' w).1,
             Normal tt))
  ∧ (∀ socket' workflowId'',
       Forall (fun message =>
                 payload_field "status" message = Some (JStr "processing"))
              (WebSocketManager.received
                 socket'
                 (effects (WebSocketManager.sendWorkflowStatus socket' workflowId'')
                          w))).
Proof.
  unfold effects. rewrite !handleSession_connected.
  split; [done |]. split.
  { eexists. split; [apply Map_get_set | done]. }
  split.
  { eexists. split; [reflexivity |].
    unfold stamp, connection_established, object_literal; simpl.
    split; [| split]; rewrite !lookup_insert_ne by done; apply lookup_insert_eq. }
  split; [apply lookup_insert_eq |].
  split; [| intros socket' workflowId''; apply sendWorkflowStatus_is_a_mock].
  intros f. by rewrite handleSession_connected.
Qed.

(** C2, as stated, fails: a session that connects for the completed [wf-1]
    receives [connection_established] and no snapshot, and when it asks for
    the status it is told [processing], while the stored record says
    [completed]. *)
Lemma C2_counterexample_late_joiner_sees_processing :
  stored_field completed_world "wf-1" "status" = Some (JStr "completed")
  ∧ omap (fun message => message !! "type")
         (WebSocketManager.received
            7 (effects (WebSocketManager.run
                          [WebSocketManager.Upgrade 7 (Some "wf-1")])
                       completed_world))
    = [JStr "connection_established"]
  ∧ omap (fun message => message !! "type")
         (WebSocketManager.received
            7 (effects (WebSocketManager.run
                          [WebSocketManager.Upgrade 7 (Some "wf-1");
                           WebSocketManager.OnMessage "session_k3x9q2m1a"
                                                      request_status])
                       completed_world))
    = [JStr "connection_established"; JStr "workflow_status"]
  ∧ omap (payload_field "status")
         (WebSocketManager.received
            7 (effects (WebSocketManager.run
                          [WebSocketManager.Upgrade 7 (Some "wf-1");
                           WebSocketManager.OnMessage "session_k3x9q2m1a"
                                                      request_status])
                       completed_world))
    = [JStr "processing"].
Proof. evaluate. Qed.

(** ** The pipeline runs to completion *)

(** Scenario A of the specification, on the model: with an outside where
    nothing fails, the handler answers 200, the stored record is completed
    with progress 100 and remaining time 0, and 38 records were written. *)
Example scenario_A_completed :
  match (post_simulations heat_request "wf-1" ∅ (world_of calm no_sessions ∅)).2 with
  | Normal (code, _) => code = 200%nat
  | Thrown _ => False
  end
  ∧ stored_field (post_simulations heat_request "wf-1" ∅
                                   (world_of calm no_sessions ∅)).1
                 "wf-1" "status" = Some (JStr "completed")
  ∧ stored_field (post_simulations heat_request "wf-1" ∅
                                   (world_of calm no_sessions ∅)).1
                 "wf-1" "progress" = Some (JNum 100)
  ∧ stored_field (post_simulations heat_request "wf-1" ∅
                                   (world_of calm no_sessions ∅)).1
                 "wf-1" "estimated_remaining_time" = Some (JNum 0)
  ∧ length (persisted "wf-1"
              (effects (post_simulations heat_request "wf-1" ∅)
                       (world_of calm no_sessions ∅))) = 38%nat.
Proof. evaluate. Qed.

(** * Further properties of the code *)

(** ** A rule for the pipeline

    One pass over [pipeline] and [processWorkflow] for any invariant [I] of
    the steps before the results are written, [J] after, [T] when a step has
    thrown, [F] after the final update and [X] after the update of the
    [catch] block. *)

Section PipelineRule.

Import WorkflowManager.

Variables (workflowId : string) (request useCase : JsObject).
Variables (I J F : World → Prop) (T X : string → World → Prop).

Hypothesis update_I : ∀ p s m,
  hoare I (updateWorkflowStatus workflowId "processing" (Some p) (Some s) m)
        (returns I).
Hypothesis sleep_I : ∀ ms w, I w → I (emit (SetTimeout ms) w).
Hypothesis visualization_I : ∀ simulationResults,
  hoare I (createVisualization simulationResults)
        (fun r w => match r with Normal _ => I w | Thrown e => T e w end).
Hypothesis put_I : ∀ simulationResults analysis visualization,
  hoare I (kv_put Results workflowId
                  (results_object simulationResults analysis visualization))
        (fun r w => match r with Normal _ => J w | Thrown e => T e w end).
Hypothesis update_J :
  hoare J (updateWorkflowStatus workflowId "processing" (Some 100%Q)
                                (Some "completed") None)
        (returns J).
Hypothesis update_F :
  hoare J (updateWorkflowStatus workflowId "completed" (Some 100%Q)
                                (Some "finished") None)
        (returns F).
Hypothesis update_X : ∀ e,
  hoare (T e) (updateWorkflowStatus workflowId "failed" None
                                    (Some ("error: " ++ e)) None)
        (returns (X e)).

Lemma loop_rule (lo hi step : Q) (name : string) (metrics : Q → option Json)
    (ms : nat) :
  (0 <= step)%Q →
  hoare I
        (for_progress lo hi step (fun progress =>
           updateWorkflowStatus workflowId "processing" (Some progress) (Some name)
                                (metrics progress) ;;
           sleep ms))
        (returns I).
Proof.
  intros Hs. unfold for_progress.
  apply (hoare_for_upto (fun _ => I) hi step _ Hs) with (b := Qmin lo hi).
  - done.
  - intros b p _ _. eapply hoare_seq; [apply update_I |].
    intros _ w Hw. split; [by exists () | by apply sleep_I].
  - apply Q.le_min_l.
  - apply Q.le_min_r.
Qed.

Lemma pipeline_rule :
  hoare I (pipeline workflowId request useCase)
        (fun r w => match r with Normal _ => F w | Thrown e => T e w end).
Proof.
  unfold pipeline.
  eapply hoare_seq; [apply update_I |]. intros _.
  eapply hoare_seq; [apply (loop_rule _ _ _ _ (fun _ => None)); done |]. intros _.
  eapply hoare_seq; [apply (loop_rule _ _ _ _ (fun _ => None)); done |]. intros _.
  eapply hoare_seq;
    [apply (loop_rule _ _ _ _ (fun p => Some (training_metrics p))); done |].
  intros _.
  eapply hoare_seq; [apply (loop_rule _ _ _ _ (fun _ => None)); done |]. intros _.
  eapply hoare_bind with (R := fun _ => J).
  - unfold generateResultsAndVisualization.
    eapply hoare_seq; [apply update_I |]. intros _.
    eapply hoare_seq with (R := I); [by intros w Hw; split; [eexists |] |].
    intros simulationResults.
    eapply hoare_seq; [apply update_I |]. intros _.
    eapply hoare_bind with (R := fun _ => I); [apply visualization_I |].
    intros visualization.
    eapply hoare_seq with (R := I); [by intros w Hw; split; [eexists |] |].
    intros analysis.
    eapply hoare_bind with (R := fun _ => J); [apply put_I |]. intros ?.
    eapply hoare_conseq; [apply update_J | done |].
    intros r w [[u Hr] Hw]. by rewrite Hr.
  - intros ?. eapply hoare_conseq; [apply update_F | done |].
    intros r w [[u Hr] Hw]. by rewrite Hr.
Qed.

Lemma processWorkflow_rule :
  hoare I (processWorkflow workflowId request useCase)
        (fun r w => match r with Normal _ => F w | Thrown e => X e w end).
Proof.
  unfold processWorkflow. eapply hoare_try_catch with (R := T).
  - eapply hoare_conseq; [apply pipeline_rule | done |]. by intros [a | e] w.
  - intros e. eapply hoare_bind with (R := fun _ => X e).
    + intros w Hw. destruct (update_X e w Hw) as [[a Hr] Hx]. by rewrite Hr.
    + intros _ w Hw. exact Hw.
Qed.

End PipelineRule.

(** ** What a run leaves alone *)

Section Isolation.

Import WorkflowManager.

Variable workflowId : string.

Lemma untouched_refl (w : World) : untouched workflowId w w.
Proof. by repeat split. Qed.

Lemma untouched_logged (w0 w : World) n es :
  untouched workflowId w0 w → untouched workflowId w0 (logged n es w).
Proof. by intros (? & ? & ? & ?). Qed.

Lemma untouched_called (w0 w : World) :
  untouched workflowId w0 w → untouched workflowId w0 (called w).
Proof. by intros (? & ? & ? & ?). Qed.

Lemma untouched_emit (w0 w : World) e :
  untouched workflowId w0 w → untouched workflowId w0 (emit e w).
Proof. by intros (? & ? & ? & ?). Qed.

Lemma untouched_written (w0 w : World) workflow' :
  untouched workflowId w0 w → untouched workflowId w0 (written workflowId workflow' w).
Proof.
  intros (Hother & ? & ? & ?). repeat split; try done.
  - simpl. rewrite lookup_insert_ne by done. by apply Hother.
  - by apply Hother.
Qed.

Lemma untouched_results (w0 w : World) results :
  untouched workflowId w0 w →
  untouched workflowId w0 (store Results workflowId results w).
Proof.
  intros (Hother & ? & ? & ?). repeat split; try done.
  - by apply Hother.
  - simpl. rewrite lookup_insert_ne by done. by apply Hother.
Qed.

Lemma update_untouched (w0 : World) status progress step metrics :
  hoare (untouched workflowId w0)
        (updateWorkflowStatus workflowId status progress step metrics)
        (returns (untouched workflowId w0)).
Proof.
  intros w Hw.
  destruct (updateWorkflowStatus_cases workflowId status progress step metrics w)
    as [Hr [(workflow & _ & _ & _ & Hs) | (_ & n & es & Hs & _)]];
    (split; [eauto |]); simpl in Hs; rewrite Hs.
  - by apply untouched_written.
  - by apply untouched_logged.
Qed.

(** Any property of the results namespace survives an update. *)
Lemma update_keeps_results (P : gmap string JsObject → Prop)
    status progress step metrics :
  hoare (fun w => P (RESULTS_KV (kv w)))
        (updateWorkflowStatus workflowId status progress step metrics)
        (returns (fun w => P (RESULTS_KV (kv w)))).
Proof.
  intros w Hw.
  destruct (updateWorkflowStatus_cases workflowId status progress step metrics w)
    as [Hr [(workflow & _ & _ & _ & Hs) | (_ & n & es & Hs & _)]];
    (split; [eauto |]); simpl in Hs; by rewrite Hs.
Qed.

End Isolation.

(** X1: an update for one workflow changes nothing but the record of that
    workflow: the records of all other workflows, the results and the use
    cases of every workflow, the Durable Object and the outside are as
    before, whether the write happens or not. *)
Theorem updateWorkflowStatus_touches_one_record (w : World)
    (workflowId status : string) (progress : option Q) (step : option string)
    (metrics : option Json) :
  untouched workflowId w
            (WorkflowManager.updateWorkflowStatus
               workflowId status progress step metrics w).1
  ∧ RESULTS_KV (kv (WorkflowManager.updateWorkflowStatus
                      workflowId status progress step metrics w).1)
    = RESULTS_KV (kv w).
Proof.
  split.
  - apply (update_untouched workflowId w status progress step metrics w).
    apply untouched_refl.
  - apply (update_keeps_results workflowId (fun m => m = RESULTS_KV (kv w))
             status progress step metrics w). done.
Qed.

Lemma run_untouched (w0 : World) (workflowId : string) (request useCase : JsObject) :
  hoare (untouched workflowId w0)
        (WorkflowManager.processWorkflow workflowId request useCase)
        (fun _ w' => untouched workflowId w0 w').
Proof.
  pose proof (processWorkflow_rule workflowId request useCase
                (untouched workflowId w0) (untouched workflowId w0)
                (untouched workflowId w0)
                (fun _ => untouched workflowId w0) (fun _ => untouched workflowId w0))
    as H.
  specialize (H ltac:(intros; apply update_untouched)
                ltac:(intros; by apply untouched_emit)).
  eapply hoare_conseq; [apply H | done | by intros [a | e] w'].
  - intros sr w1 H1. unfold WorkflowManager.createVisualization.
    destruct (visualization (outside w1) (calls w1)); simpl;
      by apply untouched_called.
  - intros sr an viz w1 H1. unfold kv_put.
    destruct (kv_fault (outside w1) Results (calls w1)); simpl.
    + by apply untouched_called.
    + by apply untouched_emit, untouched_results, untouched_called.
  - apply update_untouched.
  - apply update_untouched.
  - intros e. apply update_untouched.
Qed.

(** X2: a whole run of [processWorkflow] for one workflow leaves the
    records and the results of every other workflow, all use cases and the
    Durable Object as they were, whatever the store and the steps do. *)
Theorem processWorkflow_touches_one_workflow (w : World) (workflowId : string)
    (request useCase : JsObject) :
  untouched workflowId w
            (WorkflowManager.processWorkflow workflowId request useCase w).1.
Proof. apply (run_untouched w), untouched_refl. Qed.

(** ** The results of a run *)

Lemma run_results (workflowId : string) (request useCase : JsObject)
    (before : gmap string JsObject → Prop) :
  hoare (fun w' => before (RESULTS_KV (kv w')))
        (WorkflowManager.processWorkflow workflowId request useCase)
        (fun r w' => match r with
                     | Normal _ => has_results workflowId w'
                     | Thrown _ => before (RESULTS_KV (kv w'))
                     end).
Proof.
  set (after := fun m : gmap string JsObject =>
                  ∃ sr an viz, m !! workflowId = Some (results_object sr an viz)).
  pose proof (processWorkflow_rule workflowId request useCase
                (fun w' => before (RESULTS_KV (kv w')))
                (fun w' => after (RESULTS_KV (kv w')))
                (fun w' => after (RESULTS_KV (kv w')))
                (fun _ w' => before (RESULTS_KV (kv w')))
                (fun _ w' => before (RESULTS_KV (kv w')))) as H.
  apply H.
  - intros. apply (update_keeps_results workflowId before).
  - by intros.
  - intros sr w1 H1. unfold WorkflowManager.createVisualization.
    by destruct (visualization (outside w1) (calls w1)).
  - intros sr an viz w1 H1. unfold kv_put.
    destruct (kv_fault (outside w1) Results (calls w1)); simpl; [done |].
    exists sr, an, viz. apply lookup_insert_eq.
  - apply (update_keeps_results workflowId after).
  - apply (update_keeps_results workflowId after).
  - intros e. apply (update_keeps_results workflowId before).
Qed.

(** X3: when [processWorkflow] returns normally the results of the
    workflow are in the results store, as the object with the simulation
    results, the analysis, the visualization and the performance metrics;
    when it throws, the entry of the workflow in the results store is what it
    was before the run. *)
Theorem processWorkflow_stores_results_iff_normal (w : World) (workflowId : string)
    (request useCase : JsObject) :
  match (WorkflowManager.processWorkflow workflowId request useCase w).2 with
  | Normal _ =>
      ∃ simulationResults analysis visualization,
        RESULTS_KV (kv (WorkflowManager.processWorkflow
                          workflowId request useCase w).1) !! workflowId
        = Some (results_object simulationResults analysis visualization)
  | Thrown _ =>
      RESULTS_KV (kv (WorkflowManager.processWorkflow
                        workflowId request useCase w).1) !! workflowId
      = RESULTS_KV (kv w) !! workflowId
  end.
Proof.
  pose proof (run_results workflowId request useCase
                (fun m => m !! workflowId = RESULTS_KV (kv w) !! workflowId)
                w eq_refl) as Hrun.
  by destruct (WorkflowManager.processWorkflow workflowId request useCase w) as [w' []].
Qed.

(** ** A run on a store that answers *)

Section Healthy.

Import WorkflowManager.

Variables (workflowId : string) (o : Outside).
Hypothesis store_up : workflow_store_up o.

#[local] Abbreviation recorded := (recorded workflowId o).

(** On a store that answers, an update of an existing record writes it. *)
Lemma update_writes (status : string) progress step metrics (w : World) :
  recorded w →
  ∃ workflow,
    stored w workflowId = Some workflow
    ∧ updateWorkflowStatus workflowId status progress step metrics w
      = (written workflowId
                 (updated workflow status (toISOString (outside w) (S (calls w)))
                          progress step metrics) w,
         Normal tt).
Proof.
  intros [Ho [workflow Hw]].
  destruct (updateWorkflowStatus_cases workflowId status progress step metrics w)
    as [Hr [(workflow0 & Hget & _ & _ & Hs) | (Hwhy & _)]].
  - exists workflow0. split; [done |]. simpl in Hs.
    destruct (updateWorkflowStatus _ _ _ _ _ w) as [w' r]. simpl in *. by subst.
  - rewrite Ho in Hwhy. rewrite !store_up in Hwhy.
    destruct Hwhy as [Hn | [[e He] | [e He]]]; congruence.
Qed.

Lemma update_recorded (status : string) progress step metrics :
  hoare recorded (updateWorkflowStatus workflowId status progress step metrics)
        (returns recorded).
Proof.
  intros w Hw. destruct (update_writes status progress step metrics w Hw)
    as (workflow & _ & ->).
  cbn [fst snd]. split; [by exists () |]. destruct Hw as [Ho _]. split; [done |].
  rewrite stored_written. by eexists.
Qed.

End Healthy.

Lemma updated_status_lookup workflow status timestamp progress step metrics :
  WorkflowManager.updated workflow status timestamp progress step metrics !! "status"
  = Some (JStr status).
Proof.
  unfold WorkflowManager.updated.
  rewrite lookup_insert_ne by done.
  destruct metrics; [rewrite lookup_insert_ne by done |];
    (destruct step; [rewrite lookup_insert_ne by done |]);
    (destruct progress; [rewrite lookup_insert_ne by done |]);
    rewrite lookup_insert_ne by done; by rewrite lookup_insert_eq.
Qed.

Lemma updated_progress_lookup workflow status timestamp p step metrics :
  WorkflowManager.updated workflow status timestamp (Some p) step metrics !! "progress"
  = Some (JNum p).
Proof.
  unfold WorkflowManager.updated.
  rewrite lookup_insert_ne by done.
  destruct metrics; [rewrite lookup_insert_ne by done |];
    (destruct step; [rewrite lookup_insert_ne by done |]);
    by rewrite lookup_insert_eq.
Qed.

(** X4: when the workflow store answers every call, no step can fail and
    the workflow has a record, [processWorkflow] returns normally and leaves
    the record completed: status [completed], progress 100, step [finished],
    remaining time 0. *)
Theorem healthy_run_completes (w : World) (workflowId : string)
    (request useCase : JsObject) :
  workflow_store_up (outside w) →
  steps_succeed (outside w) →
  is_Some (stored w workflowId) →
  (WorkflowManager.processWorkflow workflowId request useCase w).2 = Normal tt
  ∧ stored_field (WorkflowManager.processWorkflow workflowId request useCase w).1
                 workflowId "status" = Some (JStr "completed")
  ∧ stored_field (WorkflowManager.processWorkflow workflowId request useCase w).1
                 workflowId "progress" = Some (JNum 100)
  ∧ stored_field (WorkflowManager.processWorkflow workflowId request useCase w).1
                 workflowId "current_step" = Some (JStr "finished")
  ∧ stored_field (WorkflowManager.processWorkflow workflowId request useCase w).1
                 workflowId "estimated_remaining_time" = Some (JNum 0).
Proof.
  intros Hup [Hviz Hres] Hrec.
  set (o := outside w) in *.
  set (done_ := fun w' : World =>
         stored_field w' workflowId "status" = Some (JStr "completed")
         ∧ stored_field w' workflowId "progress" = Some (JNum 100)
         ∧ stored_field w' workflowId "current_step" = Some (JStr "finished")
         ∧ stored_field w' workflowId "estimated_remaining_time" = Some (JNum 0)).
  assert (hoare (recorded workflowId o)
                (WorkflowManager.processWorkflow workflowId request useCase)
                (fun r w' => match r with
                             | Normal _ => done_ w'
                             | Thrown _ => False
                             end)) as Hrun.
  { apply (processWorkflow_rule workflowId request useCase
             (recorded workflowId o) (recorded workflowId o) done_
             (fun _ _ => False) (fun _ _ => False)).
    - intros. by apply update_recorded.
    - by intros ms w1 [? ?].
    - intros sr w1 [Ho H1]. unfold WorkflowManager.createVisualization.
      rewrite Ho. destruct (Hviz (calls w1)) as [v ->]. by split.
    - intros sr an viz w1 [Ho H1]. unfold kv_put. rewrite Ho, Hres. by split.
    - by apply update_recorded.
    - intros w1 H1.
      destruct (update_writes workflowId o Hup "completed" (Some 100%Q)
                  (Some "finished") None w1 H1) as (workflow & _ & ->).
      cbn [fst snd]. split; [by exists () |].
      unfold done_, stored_field. rewrite stored_written. simpl.
      split; [apply updated_status_lookup |].
      split; [apply updated_progress_lookup |].
      split; [apply updated_current_step | apply updated_estimate].
    - by intros e w1 []. }
  specialize (Hrun w (conj eq_refl Hrec)).
  destruct (WorkflowManager.processWorkflow workflowId request useCase w)
    as [w' [[] | e]]; [| done].
  by destruct Hrun as (? & ? & ? & ?).
Qed.

Lemma healthy_run_completes_witness :
  (WorkflowManager.processWorkflow
     "wf-1" heat_request ∅
     (world_of calm no_sessions {["wf-1" := wf1_initiated]})).2 = Normal tt
  ∧ stored_field (WorkflowManager.processWorkflow
                    "wf-1" heat_request ∅
                    (world_of calm no_sessions {["wf-1" := wf1_initiated]})).1
                 "wf-1" "status" = Some (JStr "completed")
  ∧ stored_field (WorkflowManager.processWorkflow
                    "wf-1" heat_request ∅
                    (world_of calm no_sessions {["wf-1" := wf1_initiated]})).1
                 "wf-1" "progress" = Some (JNum 100)
  ∧ stored_field (WorkflowManager.processWorkflow
                    "wf-1" heat_request ∅
                    (world_of calm no_sessions {["wf-1" := wf1_initiated]})).1
                 "wf-1" "current_step" = Some (JStr "finished")
  ∧ stored_field (WorkflowManager.processWorkflow
                    "wf-1" heat_request ∅
                    (world_of calm no_sessions {["wf-1" := wf1_initiated]})).1
                 "wf-1" "estimated_remaining_time" = Some (JNum 0).
Proof.
  refine (healthy_run_completes
            (world_of calm no_sessions {["wf-1" := wf1_initiated]})
            "wf-1" heat_request ∅ _ _ _).
  - intros n. reflexivity.
  - split; intros n; [by eexists | reflexivity].
  - exists wf1_initiated. apply lookup_singleton_eq.
Defined.

(** X5: [processWorkflow] never creates a record: started for a workflow
    id that has none, it leaves the workflow store exactly as it was,
    whatever the store and the steps do. *)
Theorem processWorkflow_never_creates (w : World) (workflowId : string)
    (request useCase : JsObject) :
  stored w workflowId = None →
  WORKFLOWS_KV (kv (WorkflowManager.processWorkflow workflowId request useCase w).1)
  = WORKFLOWS_KV (kv w).
Proof.
  intros Hnone.
  set (same := fun w' : World => WORKFLOWS_KV (kv w') = WORKFLOWS_KV (kv w)).
  assert (∀ status progress step metrics,
            hoare same
                  (WorkflowManager.updateWorkflowStatus
                     workflowId status progress step metrics)
                  (returns same)) as Hupd.
  { intros status progress step metrics w1 H1.
    destruct (updateWorkflowStatus_cases workflowId status progress step metrics w1)
      as [Hr [(workflow & Hget & _) | (_ & n & es & Hs & _)]].
    - unfold stored in Hget, Hnone. rewrite H1 in Hget. congruence.
    - split; [eauto |]. simpl in Hs. by rewrite Hs. }
  assert (hoare same
                (WorkflowManager.processWorkflow workflowId request useCase)
                (fun r w' => match r with
                             | Normal _ => same w'
                             | Thrown _ => same w'
                             end)) as Hrun.
  { apply (processWorkflow_rule workflowId request useCase same same same
             (fun _ => same) (fun _ => same)); try done.
    - intros sr w1 H1. unfold WorkflowManager.createVisualization.
      by destruct (visualization (outside w1) (calls w1)).
    - intros sr an viz w1 H1. unfold kv_put.
      by destruct (kv_fault (outside w1) Results (calls w1)). }
  specialize (Hrun w eq_refl).
  by destruct (WorkflowManager.processWorkflow workflowId request useCase w) as [w' []].
Qed.

Lemma processWorkflow_never_creates_witness :
  WORKFLOWS_KV (kv (WorkflowManager.processWorkflow
                      "wf-9" heat_request ∅
                      (world_of calm no_sessions {["wf-1" := wf1_initiated]})).1)
  = WORKFLOWS_KV (kv (world_of calm no_sessions {["wf-1" := wf1_initiated]})).
Proof.
  refine (processWorkflow_never_creates
            (world_of calm no_sessions {["wf-1" := wf1_initiated]})
            "wf-9" heat_request ∅ _).
  by apply lookup_singleton_ne.
Defined.

(** X6: a run of [processWorkflow] changes no property of the record other
    than the six that [updateWorkflowStatus] assigns: the id, the name, the
    request data, the creation time and every other property are at the end
    what they were at the start. *)
Theorem processWorkflow_keeps_other_properties (w : World) (workflowId : string)
    (request useCase : JsObject) (field : string) :
  field ∉ assigned →
  stored_field (WorkflowManager.processWorkflow workflowId request useCase w).1
               workflowId field
  = stored_field w workflowId field.
Proof.
  intros Hfield.
  assert (field ≠ "status" ∧ field ≠ "updated_at" ∧ field ≠ "progress"
          ∧ field ≠ "current_step" ∧ field ≠ "metrics"
          ∧ field ≠ "estimated_remaining_time") as (? & ? & ? & ? & ? & ?).
  { unfold assigned in Hfield. rewrite !not_elem_of_cons in Hfield. tauto. }
  set (same := fun w' : World =>
         stored_field w' workflowId field = stored_field w workflowId field).
  assert (∀ status progress step metrics,
            hoare same
                  (WorkflowManager.updateWorkflowStatus
                     workflowId status progress step metrics)
                  (returns same)) as Hupd.
  { intros status progress step metrics w1 Hw1.
    destruct (updateWorkflowStatus_cases workflowId status progress step metrics w1)
      as [Hr [(workflow & Hget & _ & _ & Hs) | (_ & n & es & Hs & _)]];
      (split; [eauto |]); cbv zeta in Hs; rewrite Hs; [| done].
    match goal with
    | |- context [emit (KvPut Workflows workflowId ?v) _] =>
        change (emit (KvPut Workflows workflowId v) _) with (written workflowId v w1)
    end.
    unfold same, stored_field in *. rewrite stored_written. simpl.
    rewrite updated_other by done. rewrite <- Hw1. by rewrite Hget. }
  assert (hoare same
                (WorkflowManager.processWorkflow workflowId request useCase)
                (fun r w' => match r with
                             | Normal _ => same w'
                             | Thrown _ => same w'
                             end)) as Hrun.
  { apply (processWorkflow_rule workflowId request useCase same same same
             (fun _ => same) (fun _ => same)); try done.
    - intros sr w1 Hw1. unfold WorkflowManager.createVisualization.
      by destruct (visualization (outside w1) (calls w1)).
    - intros sr an viz w1 Hw1. unfold kv_put.
      by destruct (kv_fault (outside w1) Results (calls w1)). }
  specialize (Hrun w eq_refl).
  by destruct (WorkflowManager.processWorkflow workflowId request useCase w) as [w' []].
Qed.

Lemma processWorkflow_keeps_other_properties_witness :
  stored_field (WorkflowManager.processWorkflow
                  "wf-1" heat_request ∅
                  (world_of flaky_store no_sessions {["wf-1" := wf1_initiated]})).1
               "wf-1" "created_at"
  = stored_field (world_of flaky_store no_sessions {["wf-1" := wf1_initiated]})
                 "wf-1" "created_at".
Proof.
  refine (processWorkflow_keeps_other_properties
            (world_of flaky_store no_sessions {["wf-1" := wf1_initiated]})
            "wf-1" heat_request ∅ "created_at" _).
  unfold assigned. rewrite !not_elem_of_cons. repeat split; try done.
  apply not_elem_of_nil.
Defined.

(** ** Bounds of the simulated numbers *)

Section Bounds.

Import WorkflowManager.
#[local] Open Scope Q_scope.

Lemma Math_round_le (x y : Q) : x <= y → Math_round x <= Math_round y.
Proof.
  intros H. unfold Math_round. rewrite <- Zle_Qle. apply Qfloor_resp_le. lra.
Qed.

Lemma Math_round_0 : Math_round 0 = 0.
Proof. reflexivity. Qed.

Lemma Math_round_300 : Math_round 300 = 300.
Proof. reflexivity. Qed.

Lemma remaining_linear (p : Q) : 300 * (1 - p / 100) == 300 - 3 * p.
Proof. field. Qed.

Lemma estimated_remaining_time_cases (p : Q) :
  (estimated_remaining_time (Some p) = 0 ∧ (p == 0 ∨ 100 <= p))
  ∨ (estimated_remaining_time (Some p) = Math_round (300 * (1 - p / 100))
     ∧ ¬ p == 0 ∧ p < 100).
Proof.
  unfold estimated_remaining_time, Q_ltb.
  destruct (Qeq_bool p 0) eqn:Hz; simpl.
  { left. split; [done |]. left. by apply Qeq_bool_iff. }
  destruct (Qle_bool 100 p) eqn:Hc; simpl.
  { left. split; [done |]. right. by apply Qle_bool_iff. }
  right. split; [done |]. split.
  - intros H. apply Qeq_bool_iff in H. congruence.
  - by apply Qle_bool_false.
Qed.

Lemma accuracy_linear (p : Q) : (1 # 2) + (p - 50) / 60 == (1 # 2) + (p - 50) * (1 # 60).
Proof. field. Qed.

Lemma loss_linear (p : Q) : (1 # 10) * (81 - p) / 31 == (81 - p) * (1 # 310).
Proof. field. Qed.

End Bounds.

(** X7: for a progress that is not negative the remaining-time estimate is
    a whole number of seconds between 0 and 300, and from any positive
    progress on it never grows when the progress grows. *)
Theorem estimated_remaining_time_bounds (p p' : Q) :
  (0 <= p)%Q → (p <= p')%Q →
  (∃ seconds : Z,
     WorkflowManager.estimated_remaining_time (Some p) = inject_Z seconds
     ∧ (0 <= seconds <= 300)%Z)
  ∧ ((0 < p)%Q →
     (WorkflowManager.estimated_remaining_time (Some p')
      <= WorkflowManager.estimated_remaining_time (Some p))%Q).
Proof.
  intros Hp Hpp'.
  assert (∀ x, (0 <= x)%Q →
               (0 <= WorkflowManager.estimated_remaining_time (Some x) <= 300)%Q)
    as Hrange.
  { intros x Hx.
    destruct (estimated_remaining_time_cases x) as [[-> _] | (-> & Hnz & Hlt)].
    - split; lra.
    - split.
      + rewrite <- Math_round_0. apply Math_round_le.
        rewrite remaining_linear. lra.
      + rewrite <- Math_round_300. apply Math_round_le.
        rewrite remaining_linear. lra. }
  split.
  - destruct (Hrange p Hp) as [Hlo Hhi].
    destruct (estimated_remaining_time_cases p) as [[Hv _] | (Hv & _)].
    + exists 0%Z. by rewrite Hv.
    + rewrite Hv in *. unfold Math_round in *. eexists. split; [done |].
      rewrite (Zle_Qle 0), (Zle_Qle _ 300). by split.
  - intros Hpos.
    destruct (estimated_remaining_time_cases p') as [[-> _] | (-> & Hnz' & Hlt')].
    + apply Hrange. lra.
    + destruct (estimated_remaining_time_cases p) as [[_ Hwhy] | (-> & _ & _)].
      * destruct Hwhy; lra.
      * apply Math_round_le. rewrite !remaining_linear. lra.
Qed.

Lemma estimated_remaining_time_bounds_witness :
  (WorkflowManager.estimated_remaining_time (Some 52%Q)
   <= WorkflowManager.estimated_remaining_time (Some 50%Q))%Q.
Proof.
  refine (proj2 (estimated_remaining_time_bounds 50 52 _ _) _).
  - discriminate.
  - discriminate.
  - reflexivity.
Defined.

(** X8: the metrics the training step writes at a progress between 50 and
    80 have an accuracy between 0.5 and 0.99 and a loss between 0.001 and
    0.1; as the progress grows the accuracy never falls and the loss never
    rises. *)
Theorem training_metrics_bounds (p p' : Q) :
  (50 <= p)%Q → (p <= p')%Q → (p' <= 80)%Q →
  ∃ accuracy loss accuracy' loss',
    metric "accuracy" (WorkflowManager.training_metrics p) = Some accuracy
    ∧ metric "loss" (WorkflowManager.training_metrics p) = Some loss
    ∧ metric "accuracy" (WorkflowManager.training_metrics p') = Some accuracy'
    ∧ metric "loss" (WorkflowManager.training_metrics p') = Some loss'
    ∧ ((1 # 2) <= accuracy <= (99 # 100))%Q
    ∧ ((1 # 1000) <= loss <= (1 # 10))%Q
    ∧ (accuracy <= accuracy')%Q
    ∧ (loss' <= loss)%Q.
Proof.
  intros Hlo Hpp' Hhi. do 4 eexists.
  repeat (split; [reflexivity |]).
  split; [split |];
    [apply Q.min_glb; rewrite ?accuracy_linear; lra | apply Q.le_min_r |].
  split; [split |];
    [apply Q.le_max_r | apply Q.max_lub; rewrite ?loss_linear; lra |].
  split.
  - apply Q.min_le_compat_r. rewrite !accuracy_linear. lra.
  - apply Q.max_le_compat_r. rewrite !loss_linear. lra.
Qed.

Lemma training_metrics_bounds_witness :
  ∃ accuracy loss accuracy' loss',
    metric "accuracy" (WorkflowManager.training_metrics 50) = Some accuracy
    ∧ metric "loss" (WorkflowManager.training_metrics 50) = Some loss
    ∧ metric "accuracy" (WorkflowManager.training_metrics 80) = Some accuracy'
    ∧ metric "loss" (WorkflowManager.training_metrics 80) = Some loss'
    ∧ ((1 # 2) <= accuracy <= (99 # 100))%Q
    ∧ ((1 # 1000) <= loss <= (1 # 10))%Q
    ∧ (accuracy <= accuracy')%Q
    ∧ (loss' <= loss)%Q.
Proof.
  refine (training_metrics_bounds 50 80 _ _ _); discriminate.
Defined.

(** ** The read endpoints *)

Section ObjectLiterals.

Lemma foldl_property (key : string) (props : list (string * option Json)) :
  ∀ acc : JsObject,
    NoDup props.*1 →
    foldl (fun o kv => match kv.2 with Some v => <[kv.1 := v]> o | None => o end)
          acc props !! key
    = match property key props with Some v => Some v | None => acc !! key end.
Proof.
  induction props as [| [k v] props IH]; intros acc Hnd; [done |].
  apply NoDup_cons in Hnd as [Hk Hnd]. simpl. rewrite IH by done.
  destruct (String.eqb k key) eqn:Heq.
  - apply String.eqb_eq in Heq as ->.
    assert (property key props = None) as ->.
    { clear -Hk. induction props as [| [k' v'] props IH]; [done |].
      simpl in *. apply not_elem_of_cons in Hk as [Hne Hk].
      destruct (String.eqb k' key) eqn:Heq; [| by apply IH].
      apply String.eqb_eq in Heq. congruence. }
    destruct v; [by rewrite lookup_insert_eq | done].
  - apply String.eqb_neq in Heq.
    destruct (property key props); [done |].
    destruct v; [by rewrite lookup_insert_ne | done].
Qed.

Lemma object_literal_lookup (key : string) (props : list (string * option Json)) :
  NoDup props.*1 → object_literal props !! key = property key props.
Proof.
  intros Hnd. unfold object_literal. rewrite foldl_property by done.
  by destruct (property key props).
Qed.

End ObjectLiterals.

(** The keys of a literal are distinct: by evaluation. *)
Ltac distinct_keys := apply (bool_decide_unpack _); vm_compute; reflexivity.

Section Reads.

Lemma get_status_found (w : World) (workflowId : string) (workflow : JsObject) :
  kv_fault (outside w) Workflows (calls w) = None →
  stored w workflowId = Some workflow →
  ∃ body, (get_status workflowId w).2 = Normal (200%nat, body)
          ∧ body !! "workflow_id" = Some (JStr workflowId)
          ∧ body !! "status" = workflow !! "status"
          ∧ body !! "progress" = workflow !! "progress"
          ∧ body !! "current_step" = workflow !! "current_step"
          ∧ body !! "estimated_remaining_time"
            = Some (js_or (workflow !! "estimated_remaining_time") (JNum 0)).
Proof.
  intros Hf Hs. unfold get_status, try_catch, bind, kv_get, ret. unfold stored in Hs.
  simpl. rewrite Hf. simpl. rewrite Hs. simpl.
  eexists. split; [done |].
  rewrite !object_literal_lookup by distinct_keys. by simpl.
Qed.


Lemma get_results_found (w : World) (workflowId : string) (results : JsObject) :
  kv_fault (outside w) Results (calls w) = None →
  kv_fault (outside w) UseCases (S (calls w)) = None →
  RESULTS_KV (kv w) !! workflowId = Some results →
  ∃ body, (get_results workflowId w).2 = Normal (200%nat, body)
          ∧ body !! "workflow_id" = Some (JStr workflowId)
          ∧ body !! "status" = Some (JStr "completed")
          ∧ body !! "results" = results !! "simulation_results"
          ∧ body !! "analysis" = results !! "analysis"
          ∧ body !! "visualization_data" = results !! "visualization"
          ∧ body !! "performance_metrics" = results !! "performance_metrics"
          ∧ body !! "python_code"
            = Some (js_or (USECASES_KV (kv w) !! workflowId
                           ≫= (fun u => u !! "python_code")) (JStr ""))
          ∧ body !! "engineering_insights"
            = Some (js_or (USECASES_KV (kv w) !! workflowId
                           ≫= (fun u => u !! "engineering_insights")) (JArr [])).
Proof.
  intros Hf1 Hf2 Hr. unfold get_results, try_catch, bind, kv_get, ret.
  simpl. rewrite Hf1. simpl. rewrite Hr. simpl. rewrite Hf2. simpl.
  eexists. split; [done |].
  rewrite !object_literal_lookup by distinct_keys. by simpl.
Qed.



End Reads.

(** X9: the status endpoint never throws and changes nothing but the count
    of outside calls; it answers 500 with the message when the store fails,
    404 when the workflow has no record, and otherwise 200 with the status,
    progress and step of the stored record, and remaining time 0 when the
    record has none. *)
Theorem get_status_answers (w : World) (workflowId : string) :
  (get_status workflowId w).1 = called w
  ∧ match kv_fault (outside w) Workflows (calls w), stored w workflowId with
    | Some e, _ =>
        ∃ body, (get_status workflowId w).2 = Normal (500%nat, body)
                ∧ body !! "details" = Some (JStr e)
    | None, None =>
        ∃ body, (get_status workflowId w).2 = Normal (404%nat, body)
                ∧ body !! "error" = Some (JStr "Simulation not found")
    | None, Some workflow =>
        ∃ body, (get_status workflowId w).2 = Normal (200%nat, body)
                ∧ body !! "workflow_id" = Some (JStr workflowId)
                ∧ body !! "status" = workflow !! "status"
                ∧ body !! "progress" = workflow !! "progress"
                ∧ body !! "current_step" = workflow !! "current_step"
                ∧ body !! "estimated_remaining_time"
                  = Some (js_or (workflow !! "estimated_remaining_time") (JNum 0))
                ∧ (workflow !! "estimated_remaining_time" = None →
                   body !! "estimated_remaining_time" = Some (JNum 0))
    end.
Proof.
  unfold get_status, try_catch, bind, kv_get, ret, stored. simpl.
  destruct (kv_fault (outside w) Workflows (calls w)) as [e |]; simpl.
  { split; [done |]. eexists. split; [done |]. by vm_compute. }
  destruct (WORKFLOWS_KV (kv w) !! workflowId) as [workflow |]; simpl.
  2: { split; [done |]. eexists. split; [done |]. by vm_compute. }
  split; [done |]. eexists. split; [done |].
  rewrite !object_literal_lookup by distinct_keys. simpl.
  repeat (split; [done |]). by intros ->.
Qed.

(** X10: read your writes.  When the store answers, the status endpoint
    called after an update of an existing record reports the status, the
    progress and the step of that update, and the remaining time computed
    from its progress. *)
Theorem get_status_reads_the_update (w : World) (workflowId status step : string)
    (p : Q) (metrics : option Json) :
  is_Some (stored w workflowId) →
  kv_fault (outside w) Workflows (calls w) = None →
  kv_fault (outside w) Workflows (S (S (calls w))) = None →
  kv_fault (outside w) Workflows (S (S (S (calls w)))) = None →
  ∃ body remaining,
    (get_status workflowId
                (WorkflowManager.updateWorkflowStatus
                   workflowId status (Some p) (Some step) metrics w).1).2
    = Normal (200%nat, body)
    ∧ body !! "status" = Some (JStr status)
    ∧ body !! "progress" = Some (JNum p)
    ∧ body !! "current_step" = Some (JStr step)
    ∧ body !! "estimated_remaining_time" = Some (JNum remaining)
    ∧ (remaining == WorkflowManager.estimated_remaining_time (Some p))%Q.
Proof.
  intros [workflow Hget] Hf1 Hf2 Hf3.
  destruct (updateWorkflowStatus_cases workflowId status (Some p) (Some step) metrics w)
    as [_ [(workflow0 & Hget0 & _ & _ & Hs) | (Hwhy & _)]].
  2: { destruct Hwhy as [Hn | [[e He] | [e He]]]; congruence. }
  cbv zeta in Hs. rewrite Hs.
  match goal with
  | |- context [emit (KvPut Workflows workflowId ?v) _] =>
      change (emit (KvPut Workflows workflowId v) _) with (written workflowId v w);
      set (workflow' := v)
  end.
  destruct (get_status_found (written workflowId workflow' w) workflowId workflow'
              Hf3 (stored_written workflowId workflow' w))
    as (body & Hbody & _ & Hst & Hpr & Hcs & Hert).
  exists body.
  exists (if truthy (Some (JNum (WorkflowManager.estimated_remaining_time (Some p))))
          then WorkflowManager.estimated_remaining_time (Some p) else 0%Q).
  split; [done |].
  unfold workflow' in *.
  rewrite updated_status_lookup in Hst. rewrite updated_progress_lookup in Hpr.
  rewrite updated_current_step in Hcs. rewrite updated_estimate in Hert.
  repeat (split; [done |]). split.
  - rewrite Hert. unfold js_or.
    by destruct (truthy (Some (JNum (WorkflowManager.estimated_remaining_time (Some p))))).
  - generalize (WorkflowManager.estimated_remaining_time (Some p)). intros est.
    cbn [truthy]. destruct (Qeq_bool est 0) eqn:Hz; cbn [negb]; [| reflexivity].
    apply Qeq_bool_iff in Hz. symmetry. exact Hz.
Qed.

Lemma get_status_reads_the_update_witness :
  ∃ body remaining,
    (get_status "wf-1"
                (WorkflowManager.updateWorkflowStatus
                   "wf-1" "processing" (Some 65%Q) (Some "pinn_training") None
                   (world_of calm no_sessions {["wf-1" := wf1_initiated]})).1).2
    = Normal (200%nat, body)
    ∧ body !! "status" = Some (JStr "processing")
    ∧ body !! "progress" = Some (JNum 65)
    ∧ body !! "current_step" = Some (JStr "pinn_training")
    ∧ body !! "estimated_remaining_time" = Some (JNum remaining)
    ∧ (remaining == WorkflowManager.estimated_remaining_time (Some 65%Q))%Q.
Proof.
  refine (get_status_reads_the_update
            (world_of calm no_sessions {["wf-1" := wf1_initiated]})
            "wf-1" "processing" "pinn_training" 65%Q None _ eq_refl eq_refl eq_refl).
  exists wf1_initiated. apply lookup_singleton_eq.
Defined.

(** X11: the results endpoint never throws and changes no store, no
    session and no log; when its reads succeed it answers 404 exactly when
    the workflow has no results, and otherwise 200 with the constant status
    completed, the stored simulation results and visualization, and, for a
    workflow without use case, the empty string as code and the empty list
    as insights. *)
Theorem get_results_answers (w : World) (workflowId : string) :
  kv (get_results workflowId w).1 = kv w
  ∧ hub (get_results workflowId w).1 = hub w
  ∧ log (get_results workflowId w).1 = log w
  ∧ is_Some (status_code (get_results workflowId w).2)
  ∧ (kv_fault (outside w) Results (calls w) = None →
     kv_fault (outside w) UseCases (S (calls w)) = None →
     match RESULTS_KV (kv w) !! workflowId with
     | None => status_code (get_results workflowId w).2 = Some 404%nat
     | Some results =>
         ∃ body, (get_results workflowId w).2 = Normal (200%nat, body)
                 ∧ body !! "status" = Some (JStr "completed")
                 ∧ body !! "results" = results !! "simulation_results"
                 ∧ body !! "visualization_data" = results !! "visualization"
                 ∧ (USECASES_KV (kv w) !! workflowId = None →
                    body !! "python_code" = Some (JStr "")
                    ∧ body !! "engineering_insights" = Some (JArr []))
     end).
Proof.
  assert (kv (get_results workflowId w).1 = kv w
          ∧ hub (get_results workflowId w).1 = hub w
          ∧ log (get_results workflowId w).1 = log w
          ∧ is_Some (status_code (get_results workflowId w).2)) as Hread.
  { unfold get_results, try_catch, bind, kv_get, ret. simpl.
    destruct (kv_fault (outside w) Results (calls w)); simpl; [done |].
    destruct (RESULTS_KV (kv w) !! workflowId); simpl; [| done].
    by destruct (kv_fault (outside w) UseCases (S (calls w))). }
  destruct Hread as (? & ? & ? & ?). repeat (split; [done |]).
  intros Hf1 Hf2. destruct (RESULTS_KV (kv w) !! workflowId) as [results |] eqn:Hr.
  - destruct (get_results_found w workflowId results Hf1 Hf2 Hr)
      as (body & Hbody & _ & Hst & Hres & _ & Hviz & _ & Hcode & Hins).
    exists body. repeat (split; [done |]). intros Hu.
    rewrite Hu in Hcode, Hins. done.
  - unfold get_results, try_catch, bind, kv_get, ret. simpl.
    rewrite Hf1. simpl. by rewrite Hr.
Qed.

Lemma get_results_answers_witness :
  status_code (get_results "wf-2" created_world).2 = Some 404%nat.
Proof.
  exact (proj2 (proj2 (proj2 (proj2 (get_results_answers created_world "wf-2"))))
           ltac:(vm_compute; reflexivity) ltac:(vm_compute; reflexivity)).
Defined.

(** ** The handler that creates a simulation, seen from its answer *)

Section Created.

Variables (request : JsObject) (workflowId : string) (useCase : JsObject).


Lemma post_simulations_apart (w0 : World) :
  hoare (fun w => w = w0) (post_simulations request workflowId useCase)
        (fun _ w' =>
           hub w' = hub w0
           ∧ ∀ other, other ≠ workflowId →
                      WORKFLOWS_KV (kv w') !! other = WORKFLOWS_KV (kv w0) !! other
                      ∧ RESULTS_KV (kv w') !! other = RESULTS_KV (kv w0) !! other
                      ∧ USECASES_KV (kv w') !! other = USECASES_KV (kv w0) !! other).
Proof.
  set (A := fun w' : World =>
         hub w' = hub w0
         ∧ ∀ other, other ≠ workflowId →
                    WORKFLOWS_KV (kv w') !! other = WORKFLOWS_KV (kv w0) !! other
                    ∧ RESULTS_KV (kv w') !! other = RESULTS_KV (kv w0) !! other
                    ∧ USECASES_KV (kv w') !! other = USECASES_KV (kv w0) !! other).
  assert (∀ ns value, hoare A (kv_put ns workflowId value) (fun _ => A)) as Hput.
  { intros ns value w [Hh Hw]. unfold kv_put.
    destruct (kv_fault (outside w) ns (calls w)); simpl; [done |].
    split; [done |]. intros other Hne. specialize (Hw other Hne).
    destruct ns; simpl; rewrite ?lookup_insert_ne by done; done. }
  unfold post_simulations.
  apply hoare_try_catch with (R := fun _ => A); [| by intros e w Hw].
  eapply hoare_bind with (R := fun _ => A).
  { eapply hoare_conseq; [apply Hput | by intros w -> | by intros [? | ?] ?]. }
  intros ?.
  eapply hoare_seq with (R := A); [by intros w Hw; split; [eexists |] |].
  intros created_at.
  eapply hoare_seq with (R := A); [by intros w Hw; split; [eexists |] |].
  intros updated_at.
  eapply hoare_bind with (R := fun _ => A).
  { eapply hoare_conseq; [apply Hput | done | by intros [? | ?] ?]. }
  intros ?.
  eapply hoare_bind with (R := fun _ => A).
  { intros w [Hh Hw].
    pose proof (run_untouched w workflowId request useCase w (untouched_refl _ w))
      as (Hother & Hu & Hhub & _).
    assert (A (WorkflowManager.processWorkflow workflowId request useCase w).1) as HA.
    { split; [congruence |]. intros other Hne.
      destruct (Hother other Hne) as [-> ->]. rewrite Hu. by apply Hw. }
    by destruct (WorkflowManager.processWorkflow workflowId request useCase w)
      as [w' [? | ?]]. }
  intros ?.
  eapply hoare_seq with (R := A); [by intros w Hw; split; [eexists |] |].
  by intros now w Hw.
Qed.

End Created.


(** X13: the creation handler leaves the Durable Object and, in all three
    stores, the entries of every other workflow id as they were, whatever
    the stores and the steps do. *)
Theorem post_simulations_touches_one_workflow (w : World) (request : JsObject)
    (workflowId : string) (useCase : JsObject) (other : string) :
  other ≠ workflowId →
  hub (post_simulations request workflowId useCase w).1 = hub w
  ∧ WORKFLOWS_KV (kv (post_simulations request workflowId useCase w).1) !! other
    = WORKFLOWS_KV (kv w) !! other
  ∧ RESULTS_KV (kv (post_simulations request workflowId useCase w).1) !! other
    = RESULTS_KV (kv w) !! other
  ∧ USECASES_KV (kv (post_simulations request workflowId useCase w).1) !! other
    = USECASES_KV (kv w) !! other.
Proof.
  intros Hne.
  destruct (post_simulations_apart request workflowId useCase w w eq_refl) as [Hh Hw].
  split; [done |]. by apply Hw.
Qed.

Lemma post_simulations_touches_one_workflow_witness :
  hub (post_simulations heat_request "wf-2" ∅ completed_world).1 = hub completed_world
  ∧ WORKFLOWS_KV (kv (post_simulations heat_request "wf-2" ∅ completed_world).1) !! "wf-1"
    = WORKFLOWS_KV (kv completed_world) !! "wf-1"
  ∧ RESULTS_KV (kv (post_simulations heat_request "wf-2" ∅ completed_world).1) !! "wf-1"
    = RESULTS_KV (kv completed_world) !! "wf-1"
  ∧ USECASES_KV (kv (post_simulations heat_request "wf-2" ∅ completed_world).1) !! "wf-1"
    = USECASES_KV (kv completed_world) !! "wf-1".
Proof.
  refine (post_simulations_touches_one_workflow
            completed_world heat_request "wf-2" ∅ "wf-1" _).
  discriminate.
Defined.



(** ** The handlers of the Durable Object *)

Section Handlers.

Import WebSocketManager.
#[local] Arguments sendMessage : simpl never.
#[local] Arguments sendWorkflowStatus : simpl never.



Lemma Map_set_set (key : string) (v1 v2 : Session) (m : list (string * Session)) :
  Map_set key v2 (Map_set key v1 m) = Map_set key v2 m.
Proof.
  induction m as [| [k v] m IH]; simpl.
  - by rewrite String.eqb_refl.
  - destruct (String.eqb k key) eqn:Hk; simpl; rewrite Hk; [done | by rewrite IH].
Qed.

Lemma Map_set_identity (key : string) (session session' : Session)
    (m : list (string * Session)) :
  Map_get key m = Some session →
  identity (key, session') = identity (key, session) →
  identity <$> Map_set key session' m = identity <$> m.
Proof.
  intros Hget Hid. induction m as [| [k v] m IH]; [done |].
  cbn [Map_set Map_get] in *.
  destruct (String.eqb k key) eqn:Hk.
  - apply String.eqb_eq in Hk as ->. injection Hget as ->.
    by rewrite !fmap_cons, Hid.
  - by rewrite !fmap_cons, IH.
Qed.

Lemma sendMessage_frame (socket : nat) (message : JsObject) (w : World) :
  (sendMessage socket message w).2 = Normal tt
  ∧ kv (sendMessage socket message w).1 = kv w
  ∧ hub (sendMessage socket message w).1 = hub w
  ∧ outside (sendMessage socket message w).1 = outside w.
Proof. by destruct (sendMessage_spec socket message w) as (e & -> & _). Qed.

Lemma sendWorkflowStatus_frame (socket : nat) (workflowId' : option string) (w : World) :
  (sendWorkflowStatus socket workflowId' w).2 = Normal tt
  ∧ kv (sendWorkflowStatus socket workflowId' w).1 = kv w
  ∧ hub (sendWorkflowStatus socket workflowId' w).1 = hub w
  ∧ outside (sendWorkflowStatus socket workflowId' w).1 = outside w.
Proof.
  unfold sendWorkflowStatus, try_catch, bind, Math_random. simpl.
  match goal with
  | |- context [sendMessage socket ?m ?w'] =>
      destruct (sendMessage_spec socket m w') as (e & -> & _)
  end.
  done.
Qed.

Lemma dispatch {A} (s : string) (a b c d : A) :
  match s with
  | "ping" => a
  | "subscribe_metrics" => b
  | "request_status" => c
  | _ => d
  end
  = if String.eqb s "ping" then a
    else if String.eqb s "subscribe_metrics" then b
    else if String.eqb s "request_status" then c
    else d.
Proof.
  repeat match goal with
         | |- context [match ?x with _ => _ end] => is_var x; destruct x; try reflexivity
         end.
Qed.

Lemma handleMessage_unregistered (sessionId : string) (message : JsObject) (w : World) :
  Map_get sessionId (sessions (hub w)) = None →
  handleMessage sessionId message w = (w, Normal tt).
Proof.
  intros Hget. unfold handleMessage, bind, get_session. simpl. by rewrite Hget.
Qed.

Lemma handleMessage_registered (sessionId : string) (message : JsObject) (w : World)
    (session : Session) :
  Map_get sessionId (sessions (hub w)) = Some session →
  handleMessage sessionId message w
  = let now := touched session (toISOString (outside w) (calls w)) in
    let w1 := set_sessions (Map_set sessionId now) (called w) in
    if has_type "ping" message then
      sendMessage (webSocket session)
                  (object_literal
                     [("type", Some (JStr "pong"));
                      ("timestamp", Some (JStr (toISOString (outside w) (S (calls w)))))])
                  (called w1)
    else if has_type "subscribe_metrics" message then
      (set_sessions
         (Map_set sessionId (subscribed now (js_or (message !! "metrics") (JArr [])))) w1,
       Normal tt)
    else if has_type "request_status" message then
      sendWorkflowStatus (webSocket session) (workflowId session) w1
    else (w1, Normal tt).
Proof.
  intros Hget. unfold handleMessage, bind at 1, get_session. cbn [fst snd].
  rewrite Hget. unfold bind at 1, new_Date. cbn [fst snd]. unfold bind at 1. cbn [fst snd].
  unfold has_type. destruct (message !! "type") as [[| | | s | |] |]; try reflexivity.
  rewrite dispatch. by repeat case_match.
Qed.

(** What [handleMessage] does to the world of a registered session: the
    entry of the session is replaced by one with the same identity and the
    current time as last activity; nothing else of the Durable Object or of
    the stores changes. *)
Lemma handleMessage_hub (sessionId : string) (message : JsObject) (w : World)
    (session : Session) :
  Map_get sessionId (sessions (hub w)) = Some session →
  ∃ session',
    identity (sessionId, session') = identity (sessionId, session)
    ∧ lastActivity session' = toISOString (outside w) (calls w)
    ∧ (handleMessage sessionId message w).2 = Normal tt
    ∧ kv (handleMessage sessionId message w).1 = kv w
    ∧ outside (handleMessage sessionId message w).1 = outside w
    ∧ hub (handleMessage sessionId message w).1
      = {| sessions := Map_set sessionId session' (sessions (hub w));
           timers := timers (hub w); next_timer := next_timer (hub w);
           open_sockets := open_sockets (hub w) |}.
Proof.
  intros Hget. rewrite (handleMessage_registered _ _ _ _ Hget). cbv zeta.
  destruct (has_type "ping" message).
  { exists (touched session (toISOString (outside w) (calls w))).
    match goal with
    | |- context [sendMessage ?s ?m ?w'] =>
        destruct (sendMessage_frame s m w') as (-> & -> & -> & ->)
    end.
    done. }
  destruct (has_type "subscribe_metrics" message).
  { eexists (subscribed (touched session _) _). repeat (split; [done |]).
    simpl. by rewrite Map_set_set. }
  destruct (has_type "request_status" message).
  { exists (touched session (toISOString (outside w) (calls w))).
    match goal with
    | |- context [sendWorkflowStatus ?s ?i ?w'] =>
        destruct (sendWorkflowStatus_frame s i w') as (-> & -> & -> & ->)
    end.
    done. }
  by exists (touched session (toISOString (outside w) (calls w))).
Qed.

Lemma periodic_update_unregistered (handle : nat) (sessionId : string)
    (workflowId' : option string) (w : World) :
  Map_get sessionId (sessions (hub w)) = None →
  periodic_update handle sessionId workflowId' w = clearInterval handle w.
Proof.
  intros Hget. unfold periodic_update, bind, get_session. simpl. by rewrite Hget.
Qed.






End Handlers.




(** X17: a client message changes no session's identity.  Whatever the
    message and whoever sends it, after [handleMessage] the registry has the
    same session ids in the same order, each with the socket, the workflow id
    and the connection time it had; intervals and sockets are as they were,
    and a message for an id that is not registered changes nothing at all. *)
Theorem handleMessage_keeps_identities (sessionId : string) (message : JsObject)
    (w : World) :
  identity <$> sessions (hub (WebSocketManager.handleMessage sessionId message w).1)
  = identity <$> sessions (hub w)
  ∧ timers (hub (WebSocketManager.handleMessage sessionId message w).1)
    = timers (hub w)
  ∧ open_sockets (hub (WebSocketManager.handleMessage sessionId message w).1)
    = open_sockets (hub w)
  ∧ (WebSocketManager.Map_get sessionId (sessions (hub w)) = None →
     WebSocketManager.handleMessage sessionId message w = (w, Normal tt)).
Proof.
  destruct (WebSocketManager.Map_get sessionId (sessions (hub w)))
    as [session |] eqn:Hget.
  - destruct (handleMessage_hub sessionId message w session Hget)
      as (session' & Hid & _ & _ & _ & _ & ->).
    cbn [sessions timers open_sockets].
    by rewrite (Map_set_identity _ _ _ _ Hget Hid).
  - by rewrite handleMessage_unregistered.
Qed.

(** X18: a ping is answered.  A registered session with an open socket
    that sends a message of type ping receives exactly one message back, of
    type pong, stamped with the time of its sending, and its last activity in
    the registry is the time the ping was handled. *)
Theorem ping_is_answered (sessionId : string) (message : JsObject) (w : World)
    (session : Session) :
  WebSocketManager.Map_get sessionId (sessions (hub w)) = Some session →
  webSocket session ∈ open_sockets (hub w) →
  message !! "type" = Some (JStr "ping") →
  (∃ pong,
     WebSocketManager.received
       (webSocket session)
       (effects (WebSocketManager.handleMessage sessionId message) w) = [pong]
     ∧ pong !! "type" = Some (JStr "pong")
     ∧ pong !! "timestamp" = Some (JStr (toISOString (outside w) (2 + calls w))))
  ∧ lastActivity
      <$> WebSocketManager.Map_get
            sessionId
            (sessions (hub (WebSocketManager.handleMessage sessionId message w).1))
    = Some (toISOString (outside w) (calls w)).
Proof.
  intros Hget Hopen Hping.
  assert (has_type "ping" message = true) as Hty by (unfold has_type; by rewrite Hping).
  split.
  - unfold effects.
    rewrite (handleMessage_registered sessionId message (clear_log w) session Hget).
    cbv zeta. rewrite Hty. rewrite sendMessage_open by done.
    cbn [fst log emit called WebSocketManager.set_sessions with_hub clear_log app].
    rewrite received_head, Nat.eqb_refl.
    eexists. split; [done |]. unfold stamp. split.
    + rewrite lookup_insert_ne by done.
      rewrite object_literal_lookup by distinct_keys. done.
    + by rewrite lookup_insert_eq.
  - rewrite (handleMessage_registered sessionId message w session Hget).
    cbv zeta. rewrite Hty. rewrite sendMessage_open by done.
    cbn [fst hub emit called WebSocketManager.set_sessions with_hub sessions].
    by rewrite Map_get_set.
Qed.

Lemma ping_is_answered_witness :
  (∃ pong,
     WebSocketManager.received
       7 (effects (WebSocketManager.handleMessage
                     "session_a" (object_literal [("type", Some (JStr "ping"))]))
                  (world_of calm one_subscriber ∅)) = [pong]
     ∧ pong !! "type" = Some (JStr "pong")
     ∧ pong !! "timestamp" = Some (JStr "2024-01-15T10:30:00.000Z"))
  ∧ lastActivity
      <$> WebSocketManager.Map_get
            "session_a"
            (sessions (hub (WebSocketManager.handleMessage
                              "session_a" (object_literal [("type", Some (JStr "ping"))])
                              (world_of calm one_subscriber ∅)).1))
    = Some "2024-01-15T10:30:00.000Z".
Proof.
  refine (ping_is_answered "session_a" (object_literal [("type", Some (JStr "ping"))])
                           (world_of calm one_subscriber ∅)
                           {| webSocket := 7; workflowId := Some "wf-1";
                              connectedAt := "2024-01-15T10:28:00.000Z";
                              lastActivity := "2024-01-15T10:28:00.000Z";
                              subscriptions := None |} eq_refl _ _).
  - vm_compute. reflexivity.
  - vm_compute. reflexivity.
Defined.

(** X19: a closed session is silent.  After the close or the error
    listener of a session has run, a late message of that session changes
    nothing, and the next firing of its interval clears that interval and
    sends nothing. *)
Theorem closed_session_is_silent (closing : WebSocketManager.Event) (sessionId : string)
    (w : World) :
  closing = WebSocketManager.OnClose sessionId
  ∨ (∃ error, closing = WebSocketManager.OnError sessionId error) →
  (∀ message,
     WebSocketManager.handleMessage sessionId message (WebSocketManager.turn closing w).1
     = ((WebSocketManager.turn closing w).1, Normal tt))
  ∧ ∀ handle workflowId',
      timers (hub w) !! handle = Some (sessionId, workflowId') →
      (WebSocketManager.turn (WebSocketManager.Interval handle)
                             (WebSocketManager.turn closing w).1).1
      = (WebSocketManager.clearInterval handle (WebSocketManager.turn closing w).1).1.
Proof.
  intros Hclosing.
  assert (WebSocketManager.Map_get
            sessionId (sessions (hub (WebSocketManager.turn closing w).1)) = None
          ∧ timers (hub (WebSocketManager.turn closing w).1) = timers (hub w))
    as [Hgone Htimers].
  { destruct Hclosing as [-> | [error ->]]; simpl; by rewrite Map_get_delete. }
  split.
  - intros message. by apply handleMessage_unregistered.
  - intros handle workflowId' Ht. cbn [WebSocketManager.turn].
    rewrite Htimers, Ht. by rewrite periodic_update_unregistered.
Qed.

Lemma closed_session_is_silent_witness :
  (∀ message,
     WebSocketManager.handleMessage
       "session_a" message
       (WebSocketManager.turn (WebSocketManager.OnClose "session_a")
                              (world_of calm one_subscriber ∅)).1
     = ((WebSocketManager.turn (WebSocketManager.OnClose "session_a")
                               (world_of calm one_subscriber ∅)).1, Normal tt))
  ∧ ∀ handle workflowId',
      timers (hub (world_of calm one_subscriber ∅)) !! handle
      = Some ("session_a", workflowId') →
      (WebSocketManager.turn
         (WebSocketManager.Interval handle)
         (WebSocketManager.turn (WebSocketManager.OnClose "session_a")
                                (world_of calm one_subscriber ∅)).1).1
      = (WebSocketManager.clearInterval
           handle
           (WebSocketManager.turn (WebSocketManager.OnClose "session_a")
                                  (world_of calm one_subscriber ∅)).1).1.
Proof.
  apply closed_session_is_silent. by left.
Defined.

(** ** The periodic updates *)

Section Periodic.

Import WebSocketManager.
#[local] Open Scope Q_scope.
#[local] Arguments sendMessage : simpl never.

Lemma floor_index (r : Q) (n : nat) :
  0 <= r → r < 1 → (0 < n)%nat →
  (Z.to_nat (Qfloor (r * inject_Z (Z.of_nat n))) < n)%nat.
Proof.
  intros H0 H1 Hn.
  assert (0 < inject_Z (Z.of_nat n)) as HN.
  { change 0 with (inject_Z 0). rewrite <- Zlt_Qlt. lia. }
  assert (0 <= Qfloor (r * inject_Z (Z.of_nat n)))%Z as Hlo.
  { rewrite <- (Qfloor_Z 0). apply Qfloor_resp_le. by apply Qmult_le_0_compat; [| lra]. }
  assert (Qfloor (r * inject_Z (Z.of_nat n)) < Z.of_nat n)%Z as Hhi.
  { rewrite Zlt_Qlt. eapply Qle_lt_trans; [apply Qfloor_le |].
    rewrite <- (Qmult_1_l (inject_Z (Z.of_nat n))) at 2.
    by apply Qmult_lt_compat_r. }
  lia.
Qed.


Lemma random_step (r : Q) :
  0 <= r → r < 1 →
  ∃ s, steps !! Z.to_nat (Qfloor (r * inject_Z (Z.of_nat (length steps)))) = Some s.
Proof.
  intros H0 H1. apply lookup_lt_is_Some_2, floor_index; [done | done |].
  simpl. lia.
Qed.

(** The message of one firing of the interval of a registered session. *)
Lemma periodic_update_message (handle : nat) (sessionId : string)
    (workflowId' : option string) (w : World) (session : Session) :
  Map_get sessionId (sessions (hub w)) = Some session →
  ∃ metrics timestamp w',
    periodic_update handle sessionId workflowId' w
    = sendMessage
        (webSocket session)
        (object_literal
           [("type", Some (JStr "workflow_progress"));
            ("workflowId", Some (nullable workflowId'));
            ("payload",
             Some (JObj ([("progress", JNum (Qmin 100 (random (outside w) (calls w) * 100)))]
                         ++ match JStr <$> steps !! Z.to_nat
                                    (Qfloor (random (outside w) (S (calls w))
                                             * inject_Z (Z.of_nat (length steps))))
                            with
                            | Some s => [("step", s)]
                            | None => []
                            end
                         ++ [("metrics", metrics); ("timestamp", JStr timestamp)])))])
        w'
    ∧ hub w' = hub w ∧ log w' = log w.
Proof.
  intros Hget.
  unfold periodic_update, get_session, bind at 1. cbn [fst snd]. rewrite Hget.
  unfold bind, Math_random, getRandomStep, generateRandomMetrics, bind, Math_random,
    new_Date, ret. cbn [fst snd called outside calls].
  eexists _, _, _. split; [reflexivity | done].
Qed.

End Periodic.

(** X20: what a periodic update carries.  As long as [Math.random()]
    stays in its range, one firing of the interval of a registered session
    with an open socket sends that session exactly one message, of type
    workflow_progress, whose payload has a progress from 0 up to but not
    including 100 and a step that is one of the five step names. *)
Theorem periodic_update_payload (handle : nat) (sessionId : string)
    (workflowId' : option string) (w : World) (session : Session) :
  random_in_range (outside w) →
  WebSocketManager.Map_get sessionId (sessions (hub w)) = Some session →
  webSocket session ∈ open_sockets (hub w) →
  ∃ message p s,
    WebSocketManager.received
      (webSocket session)
      (effects (WebSocketManager.periodic_update handle sessionId workflowId') w)
    = [message]
    ∧ message !! "type" = Some (JStr "workflow_progress")
    ∧ payload_field "progress" message = Some (JNum p)
    ∧ (0 <= p)%Q ∧ (p < 100)%Q
    ∧ payload_field "step" message = Some (JStr s)
    ∧ s ∈ WebSocketManager.steps.
Proof.
  intros Hrandom Hget Hopen. unfold effects.
  destruct (periodic_update_message handle sessionId workflowId' (clear_log w)
                                    session Hget)
    as (metrics & timestamp & w' & -> & Hhub & Hlog).
  rewrite sendMessage_open by (by rewrite Hhub).
  cbn [fst log emit called]. rewrite Hlog. cbn [clear_log log app].
  rewrite received_head, Nat.eqb_refl.
  cbn [clear_log outside calls].
  destruct (Hrandom (calls w)) as [H0 H1].
  destruct (Hrandom (S (calls w))) as [H0' H1'].
  destruct (random_step _ H0' H1') as [s Hs]. rewrite Hs.
  eexists _, _, s. split; [reflexivity |].
  unfold payload_field, stamp. rewrite !lookup_insert_ne by done.
  rewrite !object_literal_lookup by distinct_keys. cbn [property String.eqb Ascii.eqb
    Bool.eqb andb fmap option_fmap option_map app assoc].
  split; [reflexivity |]. split; [reflexivity |].
  split; [apply Q.min_glb; lra |].
  split; [eapply Qle_lt_trans; [apply Q.le_min_r | lra] |].
  split; [reflexivity |].
  by eapply list_elem_of_lookup_2.
Qed.

Lemma periodic_update_payload_witness :
  ∃ message p s,
    WebSocketManager.received
      7 (effects (WebSocketManager.periodic_update 0 "session_a" (Some "wf-1"))
                 (world_of calm one_subscriber ∅))
    = [message]
    ∧ message !! "type" = Some (JStr "workflow_progress")
    ∧ payload_field "progress" message = Some (JNum p)
    ∧ (0 <= p)%Q ∧ (p < 100)%Q
    ∧ payload_field "step" message = Some (JStr s)
    ∧ s ∈ WebSocketManager.steps.
Proof.
  refine (periodic_update_payload
            0 "session_a" (Some "wf-1") (world_of calm one_subscriber ∅)
            {| webSocket := 7; workflowId := Some "wf-1";
               connectedAt := "2024-01-15T10:28:00.000Z";
               lastActivity := "2024-01-15T10:28:00.000Z";
               subscriptions := None |} _ eq_refl _).
  - intros n. simpl. destruct (Nat.even n); split; discriminate || reflexivity.
  - vm_compute. reflexivity.
Defined.



(** ** Connection statistics *)

Section Statistics.

Import WebSocketManager.

Lemma sessions_for_cons (key sessionId : string) (session : Session)
    (entries : list (string * Session)) :
  sessions_for key ((sessionId, session) :: entries)
  = if decide (property_key (workflowId session) = key)
    then S (sessions_for key entries) else sessions_for key entries.
Proof.
  unfold sessions_for. case_decide.
  - by rewrite filter_cons_True.
  - by rewrite filter_cons_False.
Qed.

Lemma count_loop_lookup (entries : list (string * Session)) :
  ∀ (workflowCounts : gmap string nat) (key : string),
    count_loop entries workflowCounts !! key
    = match sessions_for key entries with
      | O => workflowCounts !! key
      | S n => Some (default 0 (workflowCounts !! key) + S n)%nat
      end.
Proof.
  induction entries as [| [sessionId session] entries IH]; intros counts key; [done |].
  cbn [count_loop]. rewrite IH, sessions_for_cons. cbn [snd].
  case_decide as Hkey.
  - subst key. rewrite lookup_insert_eq.
    destruct (sessions_for _ entries); simpl; f_equal; lia.
  - by rewrite lookup_insert_ne.
Qed.

Lemma total_insert (counts : gmap string nat) (key : string) :
  total (<[key := (default 0 (counts !! key) + 1)%nat]> counts) = S (total counts).
Proof.
  unfold total.
  assert (∀ (j1 j2 : string) (z1 z2 y : nat),
            (z1 + (z2 + y) = z2 + (z1 + y))%nat) as Hcomm by (intros; lia).
  destruct (counts !! key) as [n |] eqn:Hn.
  - rewrite <- (insert_delete_id counts key n Hn) at 2.
    rewrite <- insert_delete_eq.
    rewrite !map_fold_insert_L by (by intros; try apply Hcomm; try apply lookup_delete_eq).
    simpl. lia.
  - rewrite map_fold_insert_L by (by intros; try apply Hcomm).
    simpl. lia.
Qed.

Lemma total_count_loop (entries : list (string * Session)) :
  ∀ workflowCounts : gmap string nat,
    total (count_loop entries workflowCounts)
    = (total workflowCounts + length entries)%nat.
Proof.
  induction entries as [| [sessionId session] entries IH]; intros counts.
  - simpl. lia.
  - cbn [count_loop length]. rewrite IH, total_insert. lia.
Qed.

Section Order.

Lemma ltb_trans (x y z : string) :
  String.ltb x y = true → String.ltb y z = true → String.ltb x z = true.
Proof.
  unfold String.ltb. intros Hxy Hyz.
  destruct (String.compare x y) eqn:Hc1; try discriminate.
  destruct (String.compare y z) eqn:Hc2; try discriminate.
  apply OrderedTypeEx.String_as_OT.cmp_lt in Hc1, Hc2.
  pose proof (OrderedTypeEx.String_as_OT.lt_trans _ _ _ Hc1 Hc2) as Hc.
  apply OrderedTypeEx.String_as_OT.cmp_lt in Hc.
  unfold OrderedTypeEx.String_as_OT.cmp in Hc. by rewrite Hc.
Qed.

Lemma ltb_irrefl (x : string) : String.ltb x x = false.
Proof.
  unfold String.ltb. pose proof (String.compare_antisym x x) as H.
  by destruct (String.compare x x).
Qed.

Lemma ltb_asym (x y : string) : String.ltb x y = true → String.ltb y x = false.
Proof.
  unfold String.ltb. rewrite (String.compare_antisym x y).
  by destruct (String.compare y x).
Qed.

(** Not later than: [¬ (y < x)]. *)
Lemma not_later_trans (x y z : string) :
  String.ltb y x = false → String.ltb z y = false → String.ltb z x = false.
Proof.
  intros Hxy Hyz. destruct (String.ltb z x) eqn:Hzx; [| done].
  destruct (String.compare y z) eqn:Hc.
  - apply String.compare_eq_iff in Hc as ->. congruence.
  - assert (String.ltb y z = true) as Hlt by (unfold String.ltb; by rewrite Hc).
    pose proof (ltb_trans _ _ _ Hlt Hzx). congruence.
  - assert (String.ltb z y = true) as Hlt.
    { unfold String.ltb. rewrite String.compare_antisym, Hc. done. }
    congruence.
Qed.

End Order.

Lemma oldest_loop_least (entries : list (string * Session)) :
  Forall (fun entry => connectedAt entry.2 ≠ "") entries →
  ∀ t, t ≠ "" →
    ∃ t', oldest_loop entries (Some t) = Some t'
          ∧ t' ≠ ""
          ∧ String.ltb t t' = false
          ∧ (t' = t ∨ ∃ entry, entry ∈ entries ∧ connectedAt entry.2 = t')
          ∧ ∀ entry, entry ∈ entries → String.ltb (connectedAt entry.2) t' = false.
Proof.
  induction 1 as [| [sessionId session] entries Hne _ IH]; intros t Ht.
  - exists t. repeat split; try done; [apply ltb_irrefl | by left |].
    intros entry Hin. by apply elem_of_nil in Hin.
  - cbn [oldest_loop]. cbn [snd] in Hne.
    assert (match t with
            | "" => Some (connectedAt session)
            | String _ _ =>
                if String.ltb (connectedAt session) t
                then Some (connectedAt session) else Some t
            end
            = Some (if String.ltb (connectedAt session) t
                    then connectedAt session else t)) as ->.
    { destruct t; [done |]. by destruct (String.ltb _ _). }
    destruct (String.ltb (connectedAt session) t) eqn:Hlt.
    + destruct (IH (connectedAt session) Hne) as (t' & -> & Hne' & Hle & Hfrom & Hall).
      exists t'. repeat split; try done.
      * apply (not_later_trans _ (connectedAt session)); [done |].
        by apply ltb_asym.
      * right. destruct Hfrom as [-> | (entry & Hin & <-)].
        -- exists (sessionId, session). split; [apply list_elem_of_here | done].
        -- exists entry. split; [by apply list_elem_of_further | done].
      * intros entry [-> | Hin]%elem_of_cons; [done | by apply Hall].
    + destruct (IH t Ht) as (t' & -> & Hne' & Hle & Hfrom & Hall).
      exists t'. repeat split; try done.
      * destruct Hfrom as [-> | (entry & Hin & <-)]; [by left |].
        right. exists entry. split; [by apply list_elem_of_further | done].
      * intros entry [-> | Hin]%elem_of_cons; [| by apply Hall].
        cbn [snd]. by apply (not_later_trans _ t).
Qed.

End Statistics.

(** X22: the counts of [getStats] add up.  When no workflow id names a
    property of [Object.prototype], [getSessionsByWorkflow] maps every key to
    the number of registered sessions whose workflow id has that key, has no
    entry for a key without session, and the counts sum to [totalSessions]. *)
Theorem getSessionsByWorkflow_counts (w : World) (counts : gmap string nat) :
  WebSocketManager.sessionsByWorkflow (WebSocketManager.getStats w) = Some counts →
  (∀ key, default 0%nat (counts !! key) = sessions_for key (sessions (hub w)))
  ∧ (∀ key, counts !! key = None ↔ sessions_for key (sessions (hub w)) = 0%nat)
  ∧ total counts = WebSocketManager.totalSessions (WebSocketManager.getStats w).
Proof.
  cbn [WebSocketManager.getStats WebSocketManager.sessionsByWorkflow
         WebSocketManager.totalSessions].
  unfold WebSocketManager.getSessionsByWorkflow. case_bool_decide; [| done].
  intros [= <-]. split; [| split].
  - intros key. rewrite count_loop_lookup, lookup_empty.
    by destruct (sessions_for key _).
  - intros key. rewrite count_loop_lookup, lookup_empty.
    by destruct (sessions_for key _).
  - rewrite total_count_loop. done.
Qed.

Lemma getSessionsByWorkflow_counts_witness :
  (∀ key, default 0%nat
            (WebSocketManager.count_loop (sessions two_subscribers) ∅ !! key)
          = sessions_for key (sessions two_subscribers))
  ∧ (∀ key, WebSocketManager.count_loop (sessions two_subscribers) ∅ !! key = None
            ↔ sessions_for key (sessions two_subscribers) = 0%nat)
  ∧ total (WebSocketManager.count_loop (sessions two_subscribers) ∅) = 2%nat.
Proof.
  exact (getSessionsByWorkflow_counts
           (world_of calm two_subscribers ∅)
           (WebSocketManager.count_loop (sessions two_subscribers) ∅) eq_refl).
Defined.

(** X23: the oldest connection is the least connection time.  When no
    session has the empty string as connection time, [getOldestConnection]
    is [null] exactly for an empty registry, and otherwise the connection
    time of a registered session that no registered session precedes in the
    order of [<] on strings. *)
Theorem getOldestConnection_least (entries : list (string * Session)) :
  Forall (fun entry => connectedAt entry.2 ≠ "") entries →
  match WebSocketManager.getOldestConnection entries with
  | None => entries = []
  | Some t =>
      (∃ entry, entry ∈ entries ∧ connectedAt entry.2 = t)
      ∧ ∀ entry, entry ∈ entries → String.ltb (connectedAt entry.2) t = false
  end.
Proof.
  intros Hne. unfold WebSocketManager.getOldestConnection.
  destruct entries as [| [sessionId session] entries]; [done |].
  cbn [WebSocketManager.oldest_loop].
  apply Forall_cons in Hne as [Hne1 Hne].
  destruct (oldest_loop_least entries Hne (connectedAt session) Hne1)
    as (t' & -> & _ & Hle & Hfrom & Hall).
  split.
  - destruct Hfrom as [-> | (entry & Hin & <-)].
    + exists (sessionId, session). split; [apply list_elem_of_here | done].
    + exists entry. split; [by apply list_elem_of_further | done].
  - intros entry [-> | Hin]%elem_of_cons; [done | by apply Hall].
Qed.

Lemma getOldestConnection_least_witness :
  match WebSocketManager.getOldestConnection (sessions two_subscribers) with
  | None => sessions two_subscribers = []
  | Some t =>
      (∃ entry, entry ∈ sessions two_subscribers ∧ connectedAt entry.2 = t)
      ∧ ∀ entry, entry ∈ sessions two_subscribers →
                 String.ltb (connectedAt entry.2) t = false
  end.
Proof.
  apply getOldestConnection_least. repeat constructor; discriminate.
Defined.

(** ** The geometry of the visualization *)

Section Geometry.

Import Visualization3D.

Lemma flat_map_length_const {A B} (f : A → list B) (k : nat) (l : list A) :
  (∀ a, a ∈ l → length (f a) = k) → length (flat_map f l) = (k * length l)%nat.
Proof.
  induction l as [| a l IH]; intros Hf; simpl; [lia |].
  rewrite length_app, IH, Hf; [lia | apply list_elem_of_here |].
  intros a' Ha'. by apply Hf, list_elem_of_further.
Qed.

Lemma concat_length_const {A} (k : nat) (ls : list (list A)) :
  Forall (fun l => length l = k) ls → length (concat ls) = (k * length ls)%nat.
Proof.
  induction 1 as [| l ls Hl _ IH]; simpl; [lia |].
  rewrite length_app, IH, Hl. lia.
Qed.

Lemma mapM_concat_length {A B} (f : A → option (list B)) (k : nat) (l : list A)
    (ls : list (list B)) :
  mapM f l = Some ls →
  (∀ a bs, f a = Some bs → length bs = k) →
  length (concat ls) = (k * length l)%nat.
Proof.
  intros Hl Hf. apply mapM_Some in Hl.
  rewrite (concat_length_const k).
  - by rewrite (Forall2_length _ _ _ Hl).
  - induction Hl as [| a bs l ls Ha _ IH]; constructor; [by eapply Hf | done].
Qed.

Lemma vertex_loop_length (xGrid yGrid zGrid : list (list Q)) (rows cols : nat)
    (vs : list (option Q)) :
  vertex_loop xGrid yGrid zGrid rows cols = Some vs →
  length vs = (3 * (rows * cols))%nat.
Proof.
  unfold vertex_loop. intros Hvs.
  apply fmap_Some in Hvs as (ls & Hls & ->).
  rewrite (mapM_concat_length _ (3 * cols) _ _ Hls), length_seq; [lia |].
  intros i bs Hbs. apply fmap_Some in Hbs as (ts & Hts & ->).
  rewrite (mapM_concat_length _ 3 _ _ Hts), length_seq; [lia |].
  intros j t Ht.
  destruct (at2 xGrid i j), (at2 yGrid i j), (at2 zGrid i j); simpl in Ht;
    try discriminate.
  by injection Ht as <-.
Qed.

Lemma face_loop_length (rows cols : nat) :
  length (face_loop rows cols) = (6 * ((rows - 1) * (cols - 1)))%nat.
Proof.
  unfold face_loop.
  rewrite (flat_map_length_const _ (6 * (cols - 1))), length_seq; [lia |].
  intros i _. by rewrite (flat_map_length_const _ 6), length_seq.
Qed.

Lemma face_loop_in_range (rows cols : nat) :
  Forall (fun v => (v < rows * cols)%nat) (face_loop rows cols).
Proof.
  unfold face_loop. apply Forall_flat_map, Forall_forall. intros i Hi.
  apply Forall_flat_map, Forall_forall. intros j Hj.
  apply elem_of_seq in Hi, Hj. repeat constructor; nia.
Qed.

Lemma Math_min_le (x : Q) (xs : list Q) :
  (Math_min x xs <= x)%Q ∧ Forall (fun v => (Math_min x xs <= v)%Q) xs.
Proof.
  unfold Math_min. revert x. induction xs as [| y ys IH]; intros x; simpl.
  - split; [apply Qle_refl | constructor].
  - destruct (IH (Qmin x y)) as [Hle Hall]. split; [| constructor; [| done]].
    + eapply Qle_trans; [exact Hle | apply Q.le_min_l].
    + eapply Qle_trans; [exact Hle | apply Q.le_min_r].
Qed.

Lemma Math_max_ge (x : Q) (xs : list Q) :
  (x <= Math_max x xs)%Q ∧ Forall (fun v => (v <= Math_max x xs)%Q) xs.
Proof.
  unfold Math_max. revert x. induction xs as [| y ys IH]; intros x; simpl.
  - split; [apply Qle_refl | constructor].
  - destruct (IH (Qmax x y)) as [Hle Hall]. split; [| constructor; [| done]].
    + eapply Qle_trans; [apply Q.le_max_l | exact Hle].
    + eapply Qle_trans; [apply Q.le_max_r | exact Hle].
Qed.

Lemma unit_interval (v lo hi : Q) :
  (lo <= v)%Q → (v <= hi)%Q →
  (0 <= (v - lo) / (if Qeq_bool (hi - lo) 0 then 1 else hi - lo))%Q
  ∧ ((v - lo) / (if Qeq_bool (hi - lo) 0 then 1 else hi - lo) <= 1)%Q.
Proof.
  intros Hlo Hhi. destruct (Qeq_bool (hi - lo) 0) eqn:Hspan.
  - apply Qeq_bool_iff in Hspan.
    assert ((v - lo) / 1 == 0)%Q as ->; [| split; lra].
    field_simplify. lra.
  - apply Qeq_bool_neq in Hspan.
    assert (0 < hi - lo)%Q as Hpos by lra.
    split.
    + apply Qle_shift_div_l; [done | lra].
    + apply Qle_shift_div_r; [done | lra].
Qed.

End Geometry.

(** X24: the faces refer to vertices that exist.  When
    [prepareWebGLData] gets through a grid of [rows] rows whose first row
    has [cols] entries, it has pushed three coordinates for each of
    [rows * cols] vertices and six indices for each of the
    [(rows - 1) * (cols - 1)] cells, and every index is below the number of
    vertices. *)
Theorem geometry_faces_in_range (xGrid yGrid : list (list Q))
    (z : option (list (list Q))) (g : Visualization3D.Geometry) :
  Visualization3D.geometry xGrid yGrid z = Some g →
  ∃ rows cols vertex_count,
    rows = length xGrid
    ∧ Some cols = length <$> head xGrid
    ∧ vertex_count = (rows * cols)%nat
    ∧ length (Visualization3D.vertices g) = (3 * vertex_count)%nat
    ∧ length (Visualization3D.faces g) = (3 * (2 * ((rows - 1) * (cols - 1))))%nat
    ∧ Forall (fun v => (v < vertex_count)%nat) (Visualization3D.faces g).
Proof.
  unfold Visualization3D.geometry. intros Hg.
  destruct (head xGrid) as [first |]; [| discriminate]. cbn [mbind option_bind] in Hg.
  destruct (Visualization3D.vertex_loop _ _ _ _ _) as [vs |] eqn:Hvs; [| discriminate].
  injection Hg as <-. cbn [Visualization3D.vertices Visualization3D.faces].
  exists (length xGrid), (length first), (length xGrid * length first)%nat.
  repeat (split; [done |]).
  split; [by apply vertex_loop_length in Hvs |].
  split; [rewrite face_loop_length; lia | apply face_loop_in_range].
Qed.

Lemma geometry_faces_in_range_witness :
  ∃ rows cols vertex_count,
    rows = length small_grid_x
    ∧ Some cols = length <$> head small_grid_x
    ∧ vertex_count = (rows * cols)%nat
    ∧ length (Visualization3D.vertices small_geometry) = (3 * vertex_count)%nat
    ∧ length (Visualization3D.faces small_geometry)
      = (3 * (2 * ((rows - 1) * (cols - 1))))%nat
    ∧ Forall (fun v => (v < vertex_count)%nat) (Visualization3D.faces small_geometry).
Proof.
  exact (geometry_faces_in_range small_grid_x small_grid_y None small_geometry eq_refl).
Defined.

(** X25: normalised field values lie between 0 and 1.  For a field with
    at least one value, [processFieldData] reports a minimum that is below
    and a maximum that is above every original value, and every normalised
    value is at least 0 and at most 1, also when all values are equal and the
    span is replaced by 1. *)
Theorem processField_normalizes (x : Q) (xs : list Q) :
  Forall (fun v => (Visualization3D.min (Visualization3D.processField x xs) <= v)%Q
                   ∧ (v <= Visualization3D.max (Visualization3D.processField x xs))%Q)
         (Visualization3D.original_values (Visualization3D.processField x xs))
  ∧ Forall (fun v => (0 <= v)%Q ∧ (v <= 1)%Q)
           (Visualization3D.values (Visualization3D.processField x xs))
  ∧ length (Visualization3D.values (Visualization3D.processField x xs))
    = length (Visualization3D.original_values (Visualization3D.processField x xs)).
Proof.
  cbn [Visualization3D.processField Visualization3D.min Visualization3D.max
         Visualization3D.values Visualization3D.original_values].
  destruct (Math_min_le x xs) as [Hmin Hmins].
  destruct (Math_max_ge x xs) as [Hmax Hmaxs].
  assert (Forall (fun v => (Visualization3D.Math_min x xs <= v)%Q
                           ∧ (v <= Visualization3D.Math_max x xs)%Q) (x :: xs)) as Hall.
  { constructor; [done |]. apply Forall_forall. intros v Hv.
    rewrite Forall_forall in Hmins, Hmaxs. split; [by apply Hmins | by apply Hmaxs]. }
  split; [done |]. split; [| by rewrite length_map].
  apply Forall_map. eapply Forall_impl; [exact Hall |].
  intros v [Hlo Hhi]. by apply unit_interval.
Qed.

(** X26: the sample grid is what its metadata says.  The grid built by
    [generateSampleResults] has 30 rows of 20 values, every [x] lies in the
    announced bounds from -5 to 5 and every [y] from -3 to 3, and the first
    and the last value of a row of [x] are the bounds themselves. *)
Theorem sample_grid_matches_metadata :
  length WorkflowManager.sample_x = 30%nat
  ∧ length WorkflowManager.sample_y = 30%nat
  ∧ Forall (fun row => length row = 20%nat
                       ∧ Forall (fun v => (-5 <= v)%Q ∧ (v <= 5)%Q) row
                       ∧ (∃ first last, row !! 0%nat = Some first
                                        ∧ row !! 19%nat = Some last
                                        ∧ (first == -5)%Q ∧ (last == 5)%Q))
           WorkflowManager.sample_x
  ∧ Forall (fun row => length row = 20%nat
                       ∧ Forall (fun v => (-3 <= v)%Q ∧ (v <= 3)%Q) row)
           WorkflowManager.sample_y.
Proof.
  unfold WorkflowManager.sample_x, WorkflowManager.sample_y.
  rewrite !length_map, !length_seq. repeat (split; [done |]). split.
  - apply Forall_map, Forall_forall. intros i _.
    rewrite length_map, length_seq. split; [done |]. split.
    + apply Forall_map, Forall_forall. intros j Hj. apply elem_of_seq in Hj. cbn beta.
      assert (0 <= inject_Z (Z.of_nat j) ∧ inject_Z (Z.of_nat j) <= 19)%Q as [? ?].
      { change 0%Q with (inject_Z 0). change 19%Q with (inject_Z 19).
        rewrite <- !Zle_Qle. lia. }
      set (q := inject_Z (Z.of_nat j)) in *.
      assert ((10 * q) / 19 == q * (10 # 19))%Q as -> by field.
      split; lra.
    + do 2 eexists. split; [reflexivity |]. split; [reflexivity |].
      split; reflexivity.
  - apply Forall_map, Forall_forall. intros i Hi. apply elem_of_seq in Hi.
    rewrite length_map, length_seq. split; [done |].
    apply Forall_map, Forall_forall. intros j _. cbn beta.
    assert (0 <= inject_Z (Z.of_nat i) ∧ inject_Z (Z.of_nat i) <= 29)%Q as [? ?].
    { change 0%Q with (inject_Z 0). change 29%Q with (inject_Z 29).
      rewrite <- !Zle_Qle. lia. }
    set (q := inject_Z (Z.of_nat i)) in *.
    assert ((6 * q) / 29 == q * (6 # 29))%Q as -> by field.
    split; lra.
Qed.

(** ** From the upgrade request to the group *)

Section Upgrade.

Import WebSocketManager.



End Upgrade.


(** ** The transitions of a healthy run *)

Section Trace.

Import WorkflowManager.
#[local] Open Scope Q_scope.

Variables (workflowId : string) (o : Outside).
Hypothesis store_up : workflow_store_up o.
Hypothesis steps_up : steps_succeed o.

#[local] Abbreviation traced := (traced workflowId o).

Lemma traced_step (trace : list (string * Q * string)) (w w' : World) :
  traced trace w →
  outside w' = outside w → stored w' workflowId = stored w workflowId →
  persisted workflowId (log w') = persisted workflowId (log w) →
  traced trace w'.
Proof.
  intros [[Ho Hs] Ht] Ho' Hs' Hp. split; [split |]; congruence.
Qed.

Lemma update_traced (trace : list (string * Q * string)) (status step : string)
    (p : Q) metrics :
  hoare (traced trace)
        (updateWorkflowStatus workflowId status (Some p) (Some step) metrics)
        (returns (traced (trace ++ [(status, p, step)]))).
Proof.
  intros w [Hrec Ht].
  destruct (update_writes workflowId o store_up status (Some p) (Some step) metrics
                          w Hrec) as (workflow & _ & ->).
  cbn [fst snd]. split; [by exists () |]. split.
  - destruct Hrec as [Ho _]. split; [done |]. rewrite stored_written. by eexists.
  - rewrite persisted_written, omap_app, Ht. f_equal.
    rewrite omap_head. unfold transition.
    by rewrite updated_status, updated_progress_Some, updated_current_step.
Qed.

Lemma loop_traced (name : string) (metrics : Q → option Json) (ms : nat)
    (hi step : Q) (fuel : nat) :
  ∀ (lo : Q) (trace : list (string * Q * string)),
    hoare (traced trace)
          (for_upto fuel lo hi step (fun progress =>
             updateWorkflowStatus workflowId "processing" (Some progress) (Some name)
                                  (metrics progress) ;;
             sleep ms))
          (returns (traced (trace ++ processing name (loop_values fuel lo hi step)))).
Proof.
  induction fuel as [| fuel IH]; intros lo trace; cbn [for_upto loop_values].
  - intros w Hw. split; [by exists () |]. unfold processing. simpl.
    by rewrite app_nil_r.
  - destruct (Qle_bool lo hi).
    + eapply hoare_seq.
      { eapply hoare_seq; [apply update_traced |]. intros _ w Hw.
        split; [by exists () |].
        eapply traced_step; [exact Hw | done | done |].
        unfold sleep. cbn [fst log emit]. by rewrite persisted_app, app_nil_r. }
      intros _. eapply hoare_conseq; [apply IH | done |].
      intros r w [Hr Hw]. split; [done |].
      unfold processing in *. cbn [map]. by rewrite <- app_assoc in Hw.
    + intros w Hw. split; [by exists () |]. unfold processing. simpl.
      by rewrite app_nil_r.
Qed.

Lemma pipeline_traced (request useCase : JsObject) :
  hoare (traced [])
        (pipeline workflowId request useCase)
        (returns
           (traced
              ((((((((([("processing", 10, "initializing")]
                      ++ processing "problem_analysis"
                           (loop_values (trip_count 10 30 5) 10 30 5))
                     ++ processing "mesh_generation"
                          (loop_values (trip_count 30 50 5) 30 50 5))
                    ++ processing "pinn_training"
                         (loop_values (trip_count 50 80 2) 50 80 2))
                   ++ processing "model_validation"
                        (loop_values (trip_count 80 90 2) 80 90 2))
                  ++ [("processing", 90, "generating_results")])
                 ++ [("processing", 95, "creating_visualization")])
                ++ [("processing", 100, "completed")])
               ++ [("completed", 100, "finished")])%list))).
Proof.
  destruct steps_up as [Hviz Hres].
  unfold pipeline.
  eapply hoare_seq; [apply (update_traced []) |]. intros _.
  eapply hoare_seq; [apply (loop_traced _ (fun _ => None)) |]. intros _.
  eapply hoare_seq; [apply (loop_traced _ (fun _ => None)) |]. intros _.
  eapply hoare_seq; [apply (loop_traced _ (fun p => Some (training_metrics p))) |].
  intros _.
  eapply hoare_seq; [apply (loop_traced _ (fun _ => None)) |]. intros _.
  eapply hoare_seq.
  { unfold generateResultsAndVisualization.
    eapply hoare_seq; [apply update_traced |]. intros _.
    eapply hoare_seq; [intros w Hw; split; [by eexists | exact Hw] |].
    intros simulationResults.
    eapply hoare_seq; [apply update_traced |]. intros _.
    eapply hoare_seq.
    { intros w Hw. unfold createVisualization.
      pose proof Hw as [[Ho _] _]. rewrite Ho.
      destruct (Hviz (calls w)) as [v ->]. cbn [fst snd].
      split; [by eexists |]. by eapply traced_step; [exact Hw | ..]. }
    intros visualization.
    eapply hoare_seq; [intros w Hw; split; [by eexists | exact Hw] |].
    intros analysis.
    eapply hoare_seq.
    { intros w Hw. unfold kv_put. pose proof Hw as [[Ho _] _].
      rewrite Ho, Hres. cbn [fst snd]. split; [by eexists |].
      eapply traced_step; [exact Hw | done | done |].
      cbn [log emit store with_kv called]. by rewrite persisted_app, app_nil_r. }
    intros _. apply update_traced. }
  intros _. apply update_traced.
Qed.

End Trace.

(** X28: the transitions of a healthy run.  When the workflow store
    answers every call, no step can fail and the workflow has a record,
    [processWorkflow] writes exactly 37 records for the workflow, showing in
    this order: initializing at 10; problem analysis at 10, 15, ..., 30; mesh
    generation at 30, 35, ..., 50; training at 50, 52, ..., 80; validation at
    80, 82, ..., 90; generating results at 90; creating the visualization at
    95; step completed at 100, all with status processing; and at last status
    completed, step finished, at 100. *)
Theorem healthy_run_transitions (w : World) (workflowId : string)
    (request useCase : JsObject) :
  workflow_store_up (outside w) →
  steps_succeed (outside w) →
  is_Some (stored w workflowId) →
  omap transition
       (persisted workflowId
          (effects (WorkflowManager.processWorkflow workflowId request useCase) w))
  = ([("processing", 10, "initializing")]
     ++ processing "problem_analysis" [10; 15; 20; 25; 30]
     ++ processing "mesh_generation" [30; 35; 40; 45; 50]
     ++ processing "pinn_training"
          [50; 52; 54; 56; 58; 60; 62; 64; 66; 68; 70; 72; 74; 76; 78; 80]
     ++ processing "model_validation" [80; 82; 84; 86; 88; 90]
     ++ [("processing", 90, "generating_results");
         ("processing", 95, "creating_visualization");
         ("processing", 100, "completed");
         ("completed", 100, "finished")])%list%Q.
Proof.
  intros Hup Hsteps Hrec. unfold effects, WorkflowManager.processWorkflow, try_catch.
  assert (traced workflowId (outside w) [] (clear_log w)) as Hstart by done.
  pose proof (pipeline_traced workflowId (outside w) Hup Hsteps request useCase
                              (clear_log w) Hstart) as [[u Hr] [_ Ht]].
  destruct (WorkflowManager.pipeline workflowId request useCase (clear_log w))
    as [w1 r].
  cbn [fst snd] in *. subst r. cbn [fst]. rewrite Ht. reflexivity.
Qed.

Lemma healthy_run_transitions_witness :
  omap transition
       (persisted "wf-1"
          (effects (WorkflowManager.processWorkflow "wf-1" heat_request ∅)
                   (world_of calm no_sessions {["wf-1" := wf1_initiated]})))
  = ([("processing", 10, "initializing")]
     ++ processing "problem_analysis" [10; 15; 20; 25; 30]
     ++ processing "mesh_generation" [30; 35; 40; 45; 50]
     ++ processing "pinn_training"
          [50; 52; 54; 56; 58; 60; 62; 64; 66; 68; 70; 72; 74; 76; 78; 80]
     ++ processing "model_validation" [80; 82; 84; 86; 88; 90]
     ++ [("processing", 90, "generating_results");
         ("processing", 95, "creating_visualization");
         ("processing", 100, "completed");
         ("completed", 100, "finished")])%list%Q.
Proof.
  refine (healthy_run_transitions
            (world_of calm no_sessions {["wf-1" := wf1_initiated]})
            "wf-1" heat_request ∅ _ _ _).
  - intros n. reflexivity.
  - split; intros n; [by eexists | reflexivity].
  - exists wf1_initiated. apply lookup_singleton_eq.
Defined.
